(** * AlazarTech ATS driver (qcodes/instrument_drivers/AlazarTech/ATS.py)

    A shallow embedding of the three classes of ATS.py:
    - [AlazarParameter]: a configuration field with a value/code mapping and
      an up-to-date flag;
    - [AlazarTech_ATS]: the instrument, with [config], [acquire] and
      [_result_handler];
    - [Buffer]: a page-aligned memory region obtained from the host system.

    Python objects are mutable; the embedding threads the instrument, the
    driver trace and the log through a state-and-exception monad in which
    the state survives a raised exception, as a Python object does. *)

From stdpp Require Import base decidable countable option list strings gmap pretty.
From Stdlib Require Import ZArith Lia Ascii String.

Open Scope Z_scope.
Open Scope string_scope.

(** ** Python values and exceptions *)

(** The values a caller hands to the configuration fields: [None], integers
    and strings.  Device codes are Python integers. *)
Inductive pyval : Type :=
  | PNone
  | PInt (z : Z)
  | PStr (s : string).

#[global] Instance pyval_eq_dec : EqDecision pyval.
Proof. solve_decision. Defined.

#[global] Instance pyval_countable : Countable pyval.
Proof.
  refine (inj_countable'
    (fun v => match v with
              | PNone => inl tt
              | PInt z => inr (inl z)
              | PStr s => inr (inr s)
              end)
    (fun x => match x with
              | inl _ => PNone
              | inr (inl z) => PInt z
              | inr (inr s) => PStr s
              end) _).
  intros []; reflexivity.
Defined.

(** The double-quote and newline characters of the messages. *)
Definition dquote : string := String "034"%char EmptyString.
Definition newline : string := String "010"%char EmptyString.

(** [str(v)] *)
Definition py_str (v : pyval) : string :=
  match v with
  | PNone => "None"
  | PInt z => pretty z
  | PStr s => s
  end.

(** [a == b] on the values above. *)
Definition py_eq (a b : pyval) : bool := bool_decide (a = b).

(** The exception classes the module raises, each with its message. *)
Inductive exc : Type :=
  | Exception (msg : string)
  | KeyError (msg : string)
  | TypeError (msg : string)
  | ValueError (msg : string)
  | NameError (msg : string)
  | AttributeError (msg : string)
  | OutOfFuel.

#[global] Instance exc_eq_dec : EqDecision exc.
Proof. solve_decision. Defined.

(** Results of fallible pure code: [inl e] is a raised exception. *)
Definition res (A : Type) : Type := exc + A.

Definition res_bind {A B} (r : res A) (f : A -> res B) : res B :=
  match r with
  | inl e => inl e
  | inr a => f a
  end.

(** ** class AlazarParameter *)

Module AlazarParameter.

Record t : Type := mk {
  name : string;
  _byte : option Z;
  _uptodate_flag : bool;
  _byte_to_value_dict : gmap Z pyval;
  _value_to_byte_dict : gmap pyval Z
}.

Definition stale_msg : string :=
  "The value of this parameter is not up to date with the actual value in the instrument."
  ++ newline ++ " Most probable cause is illegal usage of ._set() method of this parameter."
  ++ newline ++ " Don't use private methods if you do not know what you are doing!".

(** [get(self)] *)
Definition get (self : t) : res pyval :=
  if negb (_uptodate_flag self) then inl (Exception stale_msg)
  else
    match _byte self with
    | None => inl (KeyError "None")
    | Some b =>
        match _byte_to_value_dict self !! b with
        | Some v => inr v
        | None => inl (KeyError (pretty b))
        end
    end.

(** [_get_byte(self)] *)
Definition _get_byte (self : t) : option Z := _byte self.

Definition unknown_setting_msg (value : pyval) (nm : string) : string :=
  "Value " ++ dquote ++ py_str value ++ dquote
  ++ " unknown setting in parameter " ++ dquote ++ nm ++ dquote.

(** [_set(self, value)] *)
Definition _set (self : t) (value : pyval) : res t :=
  match _value_to_byte_dict self !! value with
  | None => inl (KeyError (unknown_setting_msg value (name self)))
  | Some b =>
      inr {| name := name self;
             _byte := Some b;
             _uptodate_flag := false;
             _byte_to_value_dict := _byte_to_value_dict self;
             _value_to_byte_dict := _value_to_byte_dict self |}
  end.

(** [_set_updated(self)] *)
Definition _set_updated (self : t) : t :=
  {| name := name self;
     _byte := _byte self;
     _uptodate_flag := true;
     _byte_to_value_dict := _byte_to_value_dict self;
     _value_to_byte_dict := _value_to_byte_dict self |}.

(** Unpacking [k, v = key] where [key] is a dictionary key of
    [byte_to_value_dict].  The keys are device codes, that is integers,
    and an integer is not iterable. *)
Definition unpack_key (key : Z) : res (Z * pyval) :=
  inl (TypeError "cannot unpack non-iterable int object").

(** [{v: k for k, v in d}]: the comprehension iterates over [d], which for
    a dictionary yields its keys, and unpacks each one into [k, v]. *)
Fixpoint invert_comprehension (keys : list Z) (acc : gmap pyval Z)
  : res (gmap pyval Z) :=
  match keys with
  | [] => inr acc
  | key :: rest =>
      res_bind (unpack_key key) (fun kv =>
        invert_comprehension rest (<[kv.2 := kv.1]> acc))
  end.

(** [__init__(self, name, label, unit, value, byte_to_value_dict)];
    [byte_to_value_dict] defaults to [None]. *)
Definition __init__ (nm : string) (value : pyval)
    (byte_to_value_dict : option (gmap Z pyval)) : res t :=
  match byte_to_value_dict with
  | None => inl (TypeError "'NoneType' object is not iterable")
  | Some d =>
      res_bind (invert_comprehension (map fst (map_to_list d)) ∅) (fun v2b =>
        _set {| name := nm;
                _byte := None;
                _uptodate_flag := true;
                _byte_to_value_dict := d;
                _value_to_byte_dict := v2b |} value)
  end.

End AlazarParameter.

(** ** class Buffer *)

Module Buffer.

(** What [__init__] leaves on the object: the address returned by the host,
    the length of the [numpy] byte array laid over it, and the
    [_allocated] flag.  The class stores no other attribute. *)
Record t : Type := mk {
  addr : Z;
  buffer : Z;
  _allocated : bool
}.

(** The host: [os.name] and the two [kernel32] entry points used by
    [__init__].  [VirtualAlloc] answers [None] for a null pointer. *)
Record host : Type := mk_host {
  os_name : string;
  VirtualAlloc : Z -> Z -> Z -> Z -> option Z;
  GetLastError : Z
}.

Inductive kernel_event : Type :=
  | KVirtualAlloc (lpAddress dwSize flAllocationType flProtect : Z)
                  (result : option Z)
  | KGetLastError (result : Z).

(** [ctypes.c_long(z)] on the only platform that passes the [os.name]
    test: a signed 32-bit integer, built without overflow checking. *)
Definition c_long (z : Z) : Z := (z + 2 ^ 31) mod 2 ^ 32 - 2 ^ 31.

(** [buf.size_bytes]: [size_bytes] is a local variable of [__init__], the
    object has no such attribute. *)
Definition size_bytes (self : t) : res Z :=
  inl (AttributeError "'Buffer' object has no attribute 'size_bytes'").

(** [__init__(self, bits_per_sample, samples_per_buffer, number_of_channels)],
    with the calls made to the host. *)
Definition __init__ (h : host)
    (bits_per_sample samples_per_buffer number_of_channels : Z)
  : res t * list kernel_event :=
  if negb (bool_decide (bits_per_sample = 8)) then
    (inl (Exception "Buffer: only 8 bit per sample supported"), [])
  else if negb (bool_decide (os_name h = "nt")) then
    (inl (Exception "Buffer: only Windows supported at this moment"), [])
  else
    let mem_commit := 0x1000 in
    let page_readwrite := 0x4 in
    let size_bytes := samples_per_buffer * number_of_channels in
    let a := VirtualAlloc h 0 (c_long size_bytes)
               (c_long mem_commit) (c_long page_readwrite) in
    let ev := KVirtualAlloc 0 (c_long size_bytes)
                (c_long mem_commit) (c_long page_readwrite) a in
    match a with
    | None =>
        let e := GetLastError h in
        (inl (Exception ("Memory allocation error: " ++ pretty e)),
         [ev; KGetLastError e])
    | Some address =>
        if bool_decide (size_bytes < 0) then
          (inl (ValueError "Array length must be >= 0"), [ev])
        else
          (inr {| addr := address; buffer := size_bytes; _allocated := true |},
           [ev])
    end.

(** The call by which memory goes back to the host. *)
Inductive release_event : Type :=
  | KVirtualFree (lpAddress dwSize dwFreeType : Z).

(** [free_mem(self)]: the result of [VirtualFree] is not looked at. *)
Definition free_mem (self : t) : t * list release_event :=
  let mem_release := 0x8000 in
  ({| addr := addr self; buffer := buffer self; _allocated := false |},
   [KVirtualFree (addr self) (c_long 0) (c_long mem_release)]).

Definition leak_msg : string :=
  "Buffer prevented memory leak; Memory released to Windows." ++ newline
  ++ "Memory should have been released before buffer was deleted.".

(** [__del__(self)], with the calls made to the host and the warnings
    logged. *)
Definition __del__ (self : t) : t * list release_event * list string :=
  if _allocated self then
    let (self', evs) := free_mem self in (self', evs, [leak_msg])
  else (self, [], []).

End Buffer.

(** ** class AlazarTech_ATS *)

Module AlazarTech_ATS.

(** [self._succes], set in [__init__]. *)
Definition _succes : Z := 512.

(** The [error_codes] dictionary of [_result_handler]. *)
Definition error_codes : gmap Z string :=
  list_to_map [
    (513, "ApiFailed");
    (514, "ApiAccessDenied");
    (515, "ApiDmaChannelUnavailable");
    (516, "ApiDmaChannelInvalid");
    (517, "ApiDmaChannelTypeError");
    (518, "ApiDmaInProgress");
    (519, "ApiDmaDone");
    (520, "ApiDmaPaused");
    (521, "ApiDmaNotPaused");
    (522, "ApiDmaCommandInvalid");
    (523, "ApiDmaManReady");
    (524, "ApiDmaManNotReady");
    (525, "ApiDmaInvalidChannelPriority");
    (526, "ApiDmaManCorrupted");
    (527, "ApiDmaInvalidElementIndex");
    (528, "ApiDmaNoMoreElements");
    (529, "ApiDmaSglInvalid");
    (530, "ApiDmaSglQueueFull");
    (531, "ApiNullParam");
    (532, "ApiInvalidBusIndex");
    (533, "ApiUnsupportedFunction");
    (534, "ApiInvalidPciSpace");
    (535, "ApiInvalidIopSpace");
    (536, "ApiInvalidSize");
    (537, "ApiInvalidAddress");
    (538, "ApiInvalidAccessType");
    (539, "ApiInvalidIndex");
    (540, "ApiMuNotReady");
    (541, "ApiMuFifoEmpty");
    (542, "ApiMuFifoFull");
    (543, "ApiInvalidRegister");
    (544, "ApiDoorbellClearFailed");
    (545, "ApiInvalidUserPin");
    (546, "ApiInvalidUserState");
    (547, "ApiEepromNotPresent");
    (548, "ApiEepromTypeNotSupported");
    (549, "ApiEepromBlank");
    (550, "ApiConfigAccessFailed");
    (551, "ApiInvalidDeviceInfo");
    (552, "ApiNoActiveDriver");
    (553, "ApiInsufficientResources");
    (554, "ApiObjectAlreadyAllocated");
    (555, "ApiAlreadyInitialized");
    (556, "ApiNotInitialized");
    (557, "ApiBadConfigRegEndianMode");
    (558, "ApiInvalidPowerState");
    (559, "ApiPowerDown");
    (560, "ApiFlybyNotSupported");
    (561, "ApiNotSupportThisChannel");
    (562, "ApiNoAction");
    (563, "ApiHSNotSupported");
    (564, "ApiVPDNotSupported");
    (565, "ApiVpdNotEnabled");
    (566, "ApiNoMoreCap");
    (567, "ApiInvalidOffset");
    (568, "ApiBadPinDirection");
    (569, "ApiPciTimeout");
    (570, "ApiDmaChannelClosed");
    (571, "ApiDmaChannelError");
    (572, "ApiInvalidHandle");
    (573, "ApiBufferNotReady");
    (574, "ApiInvalidData");
    (575, "ApiDoNothing");
    (576, "ApiDmaSglBuildFailed");
    (577, "ApiPMNotSupported");
    (578, "ApiInvalidDriverVersion");
    (579, "ApiWaitTimeout: operation did not finish during timeout interval. Check your trigger.");
    (580, "ApiWaitCanceled");
    (581, "ApiBufferTooSmall");
    (582, "ApiBufferOverflow:rate of acquiring data > rate of transferring data to local memory. Try reducing sample rate, reducing number of enabled channels, increasing size of each DMA buffer or increase number of DMA buffers.");
    (583, "ApiInvalidBuffer");
    (584, "ApiInvalidRecordsPerBuffer");
    (585, "ApiDmaPending:Async I/O operation was succesfully started, it will be completed when sufficient trigger events are supplied to fill the buffer.");
    (586, "ApiLockAndProbePagesFailed:Driver or operating system was unable to prepare the specified buffer for DMA transfer. Try reducing buffer size or total number of buffers.");
    (587, "ApiWaitAbandoned");
    (588, "ApiWaitFailed");
    (589, "ApiTransferComplete:This buffer is last in the current acquisition.");
    (590, "ApiPllNotLocked:hardware error, contact AlazarTech");
    (591, "ApiNotSupportedInDualChannelMode:Requested number of samples per channel is too large to fit in on-board memory. Try reducing number of samples per channel, or switch to single channel mode.")
  ].

(** [_result_handler(self, error_code, error_source)] *)
Definition _result_handler (error_code : Z) (error_source : string) : res unit :=
  if bool_decide (error_code = _succes) then inr tt
  else
    match error_codes !! error_code with
    | None =>
        inl (KeyError (error_source ++ " raised unknown error " ++ pretty error_code))
    | Some m =>
        inl (Exception (error_source ++ " raised " ++ pretty error_code ++ ": " ++ m))
    end.


(** *** The instrument, the driver and the monad *)

(** A call into the vendor library: the entry point and the arguments that
    follow the board handle.  An argument is a Python integer, or [None]
    where a field that was never set is passed on. *)
Record api_call : Type := Call {
  fn : string;
  args : list (option Z)
}.

(** What the library answers: the return code and, for
    [AlazarGetChannelInfo], what it writes through its two pointers. *)
Record dll_reply : Type := Reply {
  return_code : Z;
  out_max_s : Z;
  out_bps : Z
}.

(** The observable history: the calls made to the library with their return
    codes, interleaved with the reads ([_get_byte]) and commits
    ([_set_updated]) of the configuration fields. *)
Inductive event : Type :=
  | EvCall (c : api_call) (rc : Z)
  | EvGetByte (nm : string)
  | EvSetUpdated (nm : string).

#[global] Instance api_call_eq_dec : EqDecision api_call.
Proof. solve_decision. Defined.
#[global] Instance event_eq_dec : EqDecision event.
Proof. solve_decision. Defined.

(** The library as seen from Python: its answer to a call may depend on
    everything that happened before. *)
Definition driver : Type := list event -> api_call -> dll_reply.

(** The instrument object together with what its methods act upon.
    [parameters] binds each name to a parameter object of its own.
    [buflist] and [waittimeout] are attributes the class reads but never
    assigns; [None] stands for an attribute that is absent.
    [number_of_channels] and [samples_per_buffer] are the two local
    variables of [acquire] that hold the buffer geometry. *)
Record t : Type := mk {
  _handle : Z;
  parameters : gmap string AlazarParameter.t;
  buflist : option (list Buffer.t);
  waittimeout : option Z;
  trace : list event;
  warnings : list string;
  number_of_channels : Z;
  samples_per_buffer : Z
}.

Definition with_parameters (ps : gmap string AlazarParameter.t) (st : t) : t :=
  {| _handle := _handle st; parameters := ps; buflist := buflist st;
     waittimeout := waittimeout st; trace := trace st;
     warnings := warnings st;
     number_of_channels := number_of_channels st;
     samples_per_buffer := samples_per_buffer st |}.

Definition with_trace (tr : list event) (st : t) : t :=
  {| _handle := _handle st; parameters := parameters st;
     buflist := buflist st; waittimeout := waittimeout st; trace := tr;
     warnings := warnings st;
     number_of_channels := number_of_channels st;
     samples_per_buffer := samples_per_buffer st |}.

Definition with_warnings (ws : list string) (st : t) : t :=
  {| _handle := _handle st; parameters := parameters st;
     buflist := buflist st; waittimeout := waittimeout st;
     trace := trace st; warnings := ws;
     number_of_channels := number_of_channels st;
     samples_per_buffer := samples_per_buffer st |}.

Definition with_number_of_channels (n : Z) (st : t) : t :=
  {| _handle := _handle st; parameters := parameters st;
     buflist := buflist st; waittimeout := waittimeout st;
     trace := trace st; warnings := warnings st;
     number_of_channels := n;
     samples_per_buffer := samples_per_buffer st |}.

Definition with_samples_per_buffer (n : Z) (st : t) : t :=
  {| _handle := _handle st; parameters := parameters st;
     buflist := buflist st; waittimeout := waittimeout st;
     trace := trace st; warnings := warnings st;
     number_of_channels := number_of_channels st;
     samples_per_buffer := n |}.

(** A method body: it runs on the state and either returns or raises; the
    state it leaves is kept in both cases. *)
Definition M (A : Type) : Type := t -> res A * t.

Definition ret {A} (a : A) : M A := fun st => (inr a, st).
Definition raise {A} (e : exc) : M A := fun st => (inl e, st).
Definition bind {A B} (m : M A) (f : A -> M B) : M B :=
  fun st =>
    match m st with
    | (inl e, st') => (inl e, st')
    | (inr a, st') => f a st'
    end.
Definition lift {A} (r : res A) : M A := fun st => (r, st).

#[global] Instance M_ret : MRet M := @ret.
#[global] Instance M_bind : MBind M := fun A B f m => bind m f.

Definition emit (e : event) : M unit :=
  fun st => (inr tt, with_trace (trace st ++ [e]) st).

(** [self.parameters[nm]] *)
Definition param (nm : string) : M AlazarParameter.t :=
  fun st =>
    match parameters st !! nm with
    | Some p => (inr p, st)
    | None => (inl (KeyError nm), st)
    end.

(** The object bound to [nm] is mutated in place. *)
Definition store (nm : string) (p : AlazarParameter.t) : M unit :=
  fun st => (inr tt, with_parameters (<[nm := p]> (parameters st)) st).

(** [self.parameters[nm]._set(value)] *)
Definition param_set (nm : string) (value : pyval) : M unit :=
  p ← param nm;
  p' ← lift (AlazarParameter._set p value);
  store nm p'.

(** [self.parameters[nm].get()] *)
Definition param_get (nm : string) : M pyval :=
  p ← param nm;
  lift (AlazarParameter.get p).

(** [self.parameters[nm]._get_byte()] *)
Definition get_byte (nm : string) : M (option Z) :=
  p ← param nm;
  emit (EvGetByte nm);;
  ret (AlazarParameter._get_byte p).

(** [self.parameters[nm]._set_updated()] *)
Definition set_updated (nm : string) : M unit :=
  p ← param nm;
  store nm (AlazarParameter._set_updated p);;
  emit (EvSetUpdated nm).

(** [logging.warning(msg)] *)
Definition warning (msg : string) : M unit :=
  fun st => (inr tt, with_warnings (warnings st ++ [msg]) st).

(** Assignments to the two locals of [acquire]. *)
Definition assign_number_of_channels (n : Z) : M unit :=
  fun st => (inr tt, with_number_of_channels n st).

Definition assign_samples_per_buffer (n : Z) : M unit :=
  fun st => (inr tt, with_samples_per_buffer n st).

(** [self._result_handler(error_code=rc, error_source=src)] *)
Definition check (rc : Z) (src : string) : M unit :=
  lift (_result_handler rc src).

(** [if v is not None: body(v)] *)
Definition if_given (v : pyval) (body : pyval -> M unit) : M unit :=
  match v with
  | PNone => ret tt
  | _ => body v
  end.

(** [for i, v in enumerate(l): body(i, v)], counting from [i]. *)
Fixpoint for_enumerate (i : Z) (l : list pyval) (body : Z -> pyval -> M unit)
  : M unit :=
  match l with
  | [] => ret tt
  | v :: l' => body i v;; for_enumerate (i + 1) l' body
  end.

(** [for x in l: body(x)] *)
Fixpoint for_each {A} (l : list A) (body : A -> M unit) : M unit :=
  match l with
  | [] => ret tt
  | x :: l' => body x;; for_each l' body
  end.

(** Evaluates [m] on each element in turn and collects the results. *)
Fixpoint collect {A B} (l : list A) (m : A -> M B) : M (list B) :=
  match l with
  | [] => ret []
  | x :: l' => y ← m x; ys ← collect l' m; ret (y :: ys)
  end.

(** [while cond: body]; [fuel] bounds the number of evaluations of the
    condition. *)
Fixpoint py_while (fuel : nat) (cond : M bool) (body : M unit) : M unit :=
  match fuel with
  | O => raise OutOfFuel
  | S n =>
      b ← cond;
      if (b : bool) then body;; py_while n cond body else ret tt
  end.

(** [a | b] *)
Definition py_or (a b : option Z) : res (option Z) :=
  match a, b with
  | Some x, Some y => inr (Some (Z.lor x y))
  | _, _ => inl (TypeError "unsupported operand type(s) for |")
  end.

(** [a * b] *)
Definition py_mul (a b : option Z) : res Z :=
  match a, b with
  | Some x, Some y => inr (x * y)
  | _, _ => inl (TypeError "unsupported operand type(s) for *")
  end.

(** [a % p] and [int(a / p)] where [p] is a parameter object, not its code:
    the integer (or [None]) on the left does not know the operand on the
    right, and [AlazarParameter] defines no reflected operator, so both
    raise and no remainder or quotient is ever produced. *)
Definition py_mod_param (a : option Z) (p : AlazarParameter.t) : res Z :=
  inl (TypeError "unsupported operand type(s) for %: 'int' and 'AlazarParameter'").

Definition py_truediv_param (a : option Z) (p : AlazarParameter.t) : res Z :=
  inl (TypeError "unsupported operand type(s) for /: 'int' and 'AlazarParameter'").

(** The names bound at module level in ATS.py: its imports and its three
    classes. *)
Definition module_names : list string :=
  ["ctypes"; "logging"; "np"; "os"; "Instrument"; "Parameter";
   "AlazarTech_ATS"; "AlazarParameter"; "Buffer"].

(** Reading a name that the function does not assign: a module-level
    lookup.  None of the module's names is bound to an integer. *)
Definition load_global (nm : string) : M Z :=
  if bool_decide (nm ∈ module_names) then
    raise (TypeError ("'<' not supported for " ++ nm))
  else
    raise (NameError ("name '" ++ nm ++ "' is not defined")).

Section WithDriver.

Variable dll : driver.

(** [self._ATS9870_dll.<fn>(self._handle, *args)] *)
Definition dll_call (f : string) (a : list (option Z)) : M dll_reply :=
  fun st =>
    let r := dll (trace st) (Call f a) in
    (inr r, with_trace (trace st ++ [EvCall (Call f a) (return_code r)]) st).

(** One grouped device call of [config]: the codes of [names] are read in
    order and passed after [pre]; the result is checked; only then is
    each of [names] marked up to date. *)
Definition device_step (f : string) (pre : list (option Z))
    (names : list string) (src : string) : M unit :=
  codes ← collect names get_byte;
  r ← dll_call f (pre ++ codes);
  check (return_code r) src;;
  for_each names set_updated.

(** *** config *)

(** Lines 93-157 of [config]: the grouped device calls, each followed by
    the commits of the fields it consumed. *)
Definition config_device_calls : M unit :=
  device_step "AlazarSetCaptureClock" []
    ["clock_source"; "sample_rate"; "clock_edge"; "decimation"]
    "AlazarSetCaptureClock";;
  for_each [1; 2] (fun i =>
    device_step "AlazarInputControl" [Some i]
      ["coupling" ++ pretty i; "range" ++ pretty i; "impedence" ++ pretty i]
      ("AlazarInputControl " ++ pretty i);;
    device_step "AlazarSetBWLimit" [Some i]
      ["bwlimit" ++ pretty i]
      ("AlazarSetBWLimit " ++ pretty i));;
  device_step "AlazarSetTriggerOperation" []
    ["trigger_operation";
     "trigger_engine1"; "trigger_source1"; "trigger_slope1"; "trigger_level1";
     "trigger_engine2"; "trigger_source2"; "trigger_slope2"; "trigger_level2"]
    "AlazarSetTriggerOperation";;
  device_step "AlazarSetExternalTrigger" []
    ["external_trigger_coupling"; "trigger_range"]
    "AlazarSetExternalTrigger";;
  device_step "AlazarSetTriggerDelay" []
    ["trigger_delay"]
    "AlazarSetTriggerDelay";;
  device_step "AlazarSetTriggerTimeOut" []
    ["timeout_ticks"]
    "AlazarSetTriggerTimeOut".

(** *** acquire *)

Definition unsupported_mode_msg : string :=
  "Only the 'TS' and 'NPT' modes are implemented at this point".

(** Lines 192-193. *)
Definition acquire_check_mode : M unit :=
  m ← param_get "mode";
  ok ← (if py_eq m (PStr "TS") then ret true
        else m' ← param_get "mode"; ret (py_eq m' (PStr "NPT")));
  if (ok : bool) then ret tt else raise (Exception unsupported_mode_msg).

(** Lines 195-206.  The two arguments of [AlazarGetChannelInfo] are the
    addresses of a [uint32] and a [uint8] cell, read back afterwards. *)
Definition acquire_channel_info : M unit :=
  r ← dll_call "AlazarAbortAsyncRead" [];
  check (return_code r) "AlazarAbortAsyncRead";;
  r ← dll_call "AlazarGetChannelInfo" [];
  check (return_code r) "AlazarGetChannelInfo";;
  let bps := out_bps r mod 2 ^ 8 in
  let max_s := out_max_s r mod 2 ^ 32 in
  if bool_decide (bps = 8) then ret tt
  else raise (Exception "Only 8 bits per sample supported at this moment").

(** Lines 208-212. *)
Definition acquire_record_size : M unit :=
  m ← param_get "mode";
  if py_eq m (PStr "NPT") then
    let pretriggersize := 0 in
    post_trigger_size ← get_byte "samples_per_record";
    r ← dll_call "AlazarSetRecordSize" [Some pretriggersize; post_trigger_size];
    check (return_code r) "AlazarSetRecordSize"
  else ret tt.

(** Lines 214-225. *)
Definition acquire_flags : M (option Z) :=
  cs ← get_byte "channel_selection";
  assign_number_of_channels (if bool_decide (cs = Some 3) then 2 else 1);;
  assign_samples_per_buffer 0;;
  f ← get_byte "mode";
  b ← get_byte "external_startcapture";
  f ← lift (py_or f b);
  b ← get_byte "enable_record_headers";
  f ← lift (py_or f b);
  b ← get_byte "alloc_buffers";
  f ← lift (py_or f b);
  b ← get_byte "fifo_only_streaming";
  f ← lift (py_or f b);
  b ← get_byte "interleave_samples";
  f ← lift (py_or f b);
  b ← get_byte "get_processed_data";
  lift (py_or f b).

Definition ts_rounding_msg : string :=
  "buffers_per_acquisition is not a divisor of samples per record which it should be in"
  ++ " TS mode, rounding down in samples per buffer calculation".

(** Lines 226-256. *)
Definition acquire_before_async_read (flags : option Z) : M unit :=
  m ← param_get "mode";
  if py_eq m (PStr "NPT") then
    samples_per_record ← get_byte "samples_per_record";
    records_per_buffer ← get_byte "records_per_buffer";
    bpa ← get_byte "buffers_per_acquisition";
    records_per_acquisition ← lift (py_mul records_per_buffer bpa);
    spb ← lift (py_mul samples_per_record records_per_buffer);
    assign_samples_per_buffer spb;;
    cs ← get_byte "channel_selection";
    off ← get_byte "transfer_offset";
    r ← dll_call "AlazarBeforeAsyncRead"
          [cs; off; samples_per_record; records_per_buffer;
           Some records_per_acquisition; flags];
    check (return_code r) "AlazarBeforeAsyncRead"
  else
    m' ← param_get "mode";
    if py_eq m' (PStr "TS") then
      spr ← get_byte "samples_per_record";
      p ← param "buffers_per_acquisition";
      rem ← lift (py_mod_param spr p);
      (if bool_decide (rem = 0) then ret tt else warning ts_rounding_msg);;
      spr' ← get_byte "samples_per_record";
      p' ← param "buffers_per_acquisition";
      q ← lift (py_truediv_param spr' p');
      assign_samples_per_buffer q;;
      buffers_per_acquisition ← get_byte "buffers_per_acquisition";
      rpb ← get_byte "records_per_buffer";
      (if bool_decide (rpb = Some 1) then ret tt
       else
         warning "records_per_buffer should be 1 in TS mode, defauling to 1";;
         param_set "records_per_buffer" (PInt 1));;
      records_per_buffer ← get_byte "records_per_buffer";
      cs ← get_byte "channel_selection";
      off ← get_byte "transfer_offset";
      r ← dll_call "AlazarBeforeAsyncRead"
            [cs; off; Some q; records_per_buffer;
             buffers_per_acquisition; flags];
      check (return_code r) "AlazarBeforeAsyncRead"
    else ret tt.

(** Lines 257-268. *)
Definition acquire_commit : M unit :=
  set_updated "samples_per_record";;
  set_updated "records_per_buffer";;
  set_updated "buffers_per_acquisition";;
  set_updated "channel_selection";;
  set_updated "transfer_offset";;
  set_updated "mode";;
  set_updated "external_starcapture";;
  set_updated "enable_record_headers";;
  set_updated "alloc_buffers";;
  set_updated "fifo_only_streaming";;
  set_updated "interleave_samples";;
  set_updated "get_processed_data".

(** [self.buflist] and [self.waittimeout] *)
Definition attr_buflist : M (list Buffer.t) :=
  fun st =>
    match buflist st with
    | Some l => (inr l, st)
    | None =>
        (inl (AttributeError
           "'AlazarTech_ATS' object has no attribute 'buflist'"), st)
    end.

Definition attr_waittimeout : M Z :=
  fun st =>
    match waittimeout st with
    | Some w => (inr w, st)
    | None =>
        (inl (AttributeError
           "'AlazarTech_ATS' object has no attribute 'waittimeout'"), st)
    end.

(** [AlazarPostAsyncBuffer(self._handle, buf.addr, buf.size_bytes)] and
    its check. *)
Definition post_buffer (buf : Buffer.t) : M unit :=
  size ← lift (Buffer.size_bytes buf);
  r ← dll_call "AlazarPostAsyncBuffer" [Some (Buffer.addr buf); Some size];
  check (return_code r) "AlazarPostAsyncBuffer".

(** Lines 270-285.  After the [for] loop [buf] is its last element, and
    unbound when the list was empty. *)
Definition acquire_capture (fuel : nat) : M unit :=
  bl ← attr_buflist;
  for_each bl post_buffer;;
  r ← dll_call "AlazarStartCapture" [];
  check (return_code r) "AlazarStartCapture";;
  py_while fuel
    (completed ← load_global "BuffersCompleted";
     target ← load_global "BuffersPerAcquisition";
     ret (bool_decide (completed < target)))
    (buf ← match last bl with
           | Some b => ret b
           | None =>
               raise (NameError
                 "local variable 'buf' referenced before assignment")
           end;
     timeout ← attr_waittimeout;
     r ← dll_call "AlazarWaitAsyncBufferComplete"
           [Some (Buffer.addr buf); Some timeout];
     check (return_code r) "AlazarWaitAsyncBufferComplete";;
     post_buffer buf);;
  r ← dll_call "AlazarAbortAsyncRead" [];
  check (return_code r) "AlazarAbortAsyncRead".

End WithDriver.

(** The keyword arguments of [config]; [PNone] (and [None] for the
    per-channel lists) is the default. *)
Record config_args : Type := ConfigArgs {
  clock_source : pyval;
  sample_rate : pyval;
  clock_edge : pyval;
  decimation : pyval;
  coupling : option (list pyval);
  channel_range : option (list pyval);
  impedence : option (list pyval);
  bwlimit : option (list pyval);
  trigger_operation : pyval;
  trigger_engine1 : pyval;
  trigger_source1 : pyval;
  trigger_slope1 : pyval;
  trigger_level1 : pyval;
  trigger_engine2 : pyval;
  trigger_source2 : pyval;
  trigger_slope2 : pyval;
  trigger_level2 : pyval;
  external_trigger_coupling : pyval;
  trigger_range : pyval;
  trigger_delay : pyval;
  timeout_ticks : pyval
}.

(** [if l is not None: for i, v in enumerate(l): self.parameters[prefix+str(i)]._set(v)] *)
Definition set_channels (prefix : string) (l : option (list pyval)) : M unit :=
  match l with
  | None => ret tt
  | Some vs => for_enumerate 0 vs (fun i v => param_set (prefix ++ pretty i) v)
  end.

(** Lines 41-90 of [config]. *)
Definition config_set_args (a : config_args) : M unit :=
  if_given (clock_source a) (param_set "clock_source");;
  if_given (sample_rate a) (param_set "sample_rate");;
  if_given (clock_edge a) (param_set "clock_edge");;
  if_given (decimation a) (param_set "decimation");;
  set_channels "coupling" (coupling a);;
  set_channels "range" (channel_range a);;
  set_channels "impedence" (impedence a);;
  set_channels "bwlimit" (bwlimit a);;
  if_given (trigger_operation a) (param_set "trigger_operation");;
  if_given (trigger_engine1 a) (param_set "trigger_engine1");;
  if_given (trigger_source1 a) (param_set "trigger_source1");;
  if_given (trigger_slope1 a) (param_set "trigger_slope1");;
  if_given (trigger_level1 a) (param_set "trigger_level1");;
  if_given (trigger_engine2 a) (param_set "trigger_engine2");;
  if_given (trigger_source2 a) (param_set "trigger_source2");;
  if_given (trigger_slope2 a) (param_set "trigger_slope2");;
  if_given (trigger_level2 a) (param_set "trigger_level2");;
  if_given (external_trigger_coupling a) (param_set "external_trigger_coupling");;
  if_given (trigger_range a) (param_set "trigger_range");;
  if_given (trigger_delay a) (param_set "trigger_delay");;
  if_given (timeout_ticks a) (param_set "timeout_ticks").

(** [config(self, ...)] *)
Definition config (dll : driver) (a : config_args) : M unit :=
  config_set_args a;;
  config_device_calls dll.

(** The keyword arguments of [acquire]; [PNone] is the default. *)
Record acquire_args : Type := AcquireArgs {
  mode : pyval;
  samples_per_record : pyval;
  records_per_buffer : pyval;
  buffers_per_acquisition : pyval;
  channel_selection : pyval;
  transfer_offset : pyval;
  external_startcapture : pyval;
  enable_record_headers : pyval;
  alloc_buffers : pyval;
  fifo_only_streaming : pyval;
  interleave_samples : pyval;
  get_processed_data : pyval
}.

(** Lines 165-188 of [acquire]. *)
Definition acquire_set_args (a : acquire_args) : M unit :=
  if_given (mode a) (param_set "mode");;
  if_given (samples_per_record a) (param_set "samples_per_record");;
  if_given (records_per_buffer a) (param_set "records_per_buffer");;
  if_given (buffers_per_acquisition a) (param_set "buffers_per_acquisition");;
  if_given (channel_selection a) (param_set "channel_selection");;
  if_given (transfer_offset a) (param_set "transfer_offset");;
  if_given (external_startcapture a) (param_set "external_starcapture");;
  if_given (enable_record_headers a) (param_set "enable_record_headers");;
  if_given (alloc_buffers a) (param_set "alloc_buffers");;
  if_given (fifo_only_streaming a) (param_set "fifo_only_streaming");;
  if_given (interleave_samples a) (param_set "interleave_samples");;
  if_given (get_processed_data a) (param_set "get_processed_data").

(** [acquire(self, ...)] *)
Definition acquire (dll : driver) (fuel : nat) (a : acquire_args) : M unit :=
  acquire_set_args a;;
  acquire_check_mode;;
  acquire_channel_info dll;;
  acquire_record_size dll;;
  flags ← acquire_flags;
  acquire_before_async_read dll flags;;
  acquire_commit;;
  acquire_capture dll fuel.

End AlazarTech_ATS.


(** ** Specification vocabulary *)

Import AlazarTech_ATS.

(** Weakest precondition of a method body: [Q] is met when it returns, [E]
    when it raises. *)
Definition wp {A} (m : M A) (Q : A -> t -> Prop) (E : exc -> t -> Prop)
    (s : t) : Prop :=
  match m s with
  | (inr a, s') => Q a s'
  | (inl e, s') => E e s'
  end.

(** The device code held by the field [nm], as [_get_byte] reads it. *)
Definition code (s : t) (nm : string) : option Z :=
  parameters s !! nm ≫= AlazarParameter._get_byte.

(** [e] is a call of the library function [f]. *)
Definition is_call (f : string) (e : event) : Prop :=
  match e with
  | EvCall c _ => fn c = f
  | _ => False
  end.

(** The calls of a history, without the field events. *)
Definition calls (tr : list event) : list (api_call * Z) :=
  omap (fun e => match e with
                 | EvCall c rc => Some (c, rc)
                 | _ => None
                 end) tr.

(** *** Commit discipline of [config]

    A monitor reads a history from left to right.  It collects the fields
    read since the last library call; a call that returns the success code
    turns them into the fields that may be committed; a call that returns
    anything else stops the history; a commit is accepted only for a field
    consumed by the call just made. *)
Record monitor : Type := Mon {
  pending : list string;
  allowed : list string;
  stopped : bool
}.

Definition monitor_step (m : monitor) (e : event) : option monitor :=
  if stopped m then None
  else
    match e with
    | EvGetByte n => Some (Mon (n :: pending m) [] false)
    | EvCall c rc =>
        if bool_decide (rc = _succes) then Some (Mon [] (pending m) false)
        else Some (Mon [] [] true)
    | EvSetUpdated n =>
        if bool_decide (n ∈ allowed m) then Some m else None
    end.

Fixpoint monitor_run (m : monitor) (tr : list event) : option monitor :=
  match tr with
  | [] => Some m
  | e :: tr' =>
      match monitor_step m e with
      | Some m' => monitor_run m' tr'
      | None => None
      end
  end.

Definition monitor_init : monitor := Mon [] [] false.

Definition commit_disciplined (tr : list event) : bool :=
  match monitor_run monitor_init tr with
  | Some _ => true
  | None => false
  end.

Definition is_read (e : event) : Prop :=
  match e with EvGetByte _ => True | _ => False end.

Definition is_commit (e : event) : Prop :=
  match e with EvSetUpdated _ => True | _ => False end.

(** The commit of [nm] that follows the history [pre] is justified: [nm]
    was read for a call that returned the success code, and only commits
    lie between that call and this one. *)
Definition justified (pre : list event) (nm : string) : Prop :=
  exists a reads c commits,
    pre = (a ++ EvGetByte nm :: reads
             ++ EvCall c _succes :: commits)%list
    /\ Forall is_read reads /\ Forall is_commit commits.

(** Invariant of the device calls of [config], started on [st1]: the
    history since then is accepted by the monitor, which is in state [m],
    and the fields are those of [st1], marked up to date where a commit was
    recorded. *)
Definition commit_inv (st1 : t) (m : monitor) (s : t) : Prop :=
  exists new,
    trace s = (trace st1 ++ new)%list
    /\ monitor_run monitor_init new = Some m
    /\ forall nm,
         parameters s !! nm
         = if bool_decide (EvSetUpdated nm ∈ new)
           then AlazarParameter._set_updated <$> parameters st1 !! nm
           else parameters st1 !! nm.

(** *** Geometry of the calls made in NPT mode

    [st1] is the instrument once the arguments of [acquire] are stored, [sf]
    the instrument when [acquire] ends. *)
Definition npt_call (st1 sf : t) (e : event) : Prop :=
  match e with
  | EvCall c rc =>
      (fn c = "AlazarSetRecordSize" ->
         args c = [Some 0; code st1 "samples_per_record"])
      /\ (fn c = "AlazarBeforeAsyncRead" ->
            exists spr rpb bpa flags,
              code st1 "samples_per_record" = Some spr
              /\ code st1 "records_per_buffer" = Some rpb
              /\ code st1 "buffers_per_acquisition" = Some bpa
              /\ args c = [code st1 "channel_selection";
                           code st1 "transfer_offset";
                           Some spr; Some rpb; Some (rpb * bpa); flags]
              /\ samples_per_buffer sf = spr * rpb)
  | _ => True
  end.

(** The field [mode] is stale. *)
Definition stale_mode (s : t) : Prop :=
  exists p, parameters s !! "mode" = Some p
            /\ AlazarParameter._uptodate_flag p = false.

Definition is_KeyError (e : exc) : Prop := exists m, e = KeyError m.

(** *** Invariant of [acquire] for the geometry of its calls

    [geometry_args] is [npt_call] without the clause on the local
    [samples_per_buffer]; [geometry_inv] holds along a run of [acquire]:
    the codes are those of [st1], every call made so far has the NPT
    geometry, and either no [AlazarBeforeAsyncRead] was made yet or
    [samples_per_buffer] already holds its NPT value. *)
Definition geometry_args (st1 : t) (e : event) : Prop :=
  match e with
  | EvCall c rc =>
      (fn c = "AlazarSetRecordSize" ->
         args c = [Some 0; code st1 "samples_per_record"])
      /\ (fn c = "AlazarBeforeAsyncRead" ->
            exists spr rpb bpa flags,
              code st1 "samples_per_record" = Some spr
              /\ code st1 "records_per_buffer" = Some rpb
              /\ code st1 "buffers_per_acquisition" = Some bpa
              /\ args c = [code st1 "channel_selection";
                           code st1 "transfer_offset";
                           Some spr; Some rpb; Some (rpb * bpa); flags])
  | _ => True
  end.

Definition geometry_inv (st1 : t) (armed : bool) (s : t) : Prop :=
  (forall nm, code s nm = code st1 nm)
  /\ exists new,
       trace s = (trace st1 ++ new)%list
       /\ Forall (geometry_args st1) new
       /\ if armed then
            exists spr rpb,
              code st1 "samples_per_record" = Some spr
              /\ code st1 "records_per_buffer" = Some rpb
              /\ samples_per_buffer s = spr * rpb
          else Forall (fun e => ~ is_call "AlazarBeforeAsyncRead" e) new.

Definition some_geometry_inv (st1 s : t) : Prop :=
  exists armed, geometry_inv st1 armed s.

(** *** Further vocabulary *)

(** A method call on a buffer after its construction: [free_mem()], or the
    finalizer. *)
Inductive buffer_call : Type := CallFreeMem | CallDel.

Definition is_free_mem (c : buffer_call) : bool :=
  match c with CallFreeMem => true | CallDel => false end.

(** The calls [cs] made in turn on the buffer [b]: the buffer at the end,
    the releases asked of the host and the warnings logged. *)
Fixpoint buffer_run (cs : list buffer_call) (b : Buffer.t)
  : Buffer.t * list Buffer.release_event * list string :=
  match cs with
  | [] => (b, [], [])
  | c :: cs' =>
      let '(b1, evs1, ws1) :=
        match c with
        | CallFreeMem => let (b1, evs1) := Buffer.free_mem b in (b1, evs1, [])
        | CallDel => Buffer.__del__ b
        end in
      let '(b2, evs2, ws2) := buffer_run cs' b1 in
      (b2, (evs1 ++ evs2)%list, (ws1 ++ ws2)%list)
  end.

(** The finalizer is the first of the calls [cs] and finds the buffer
    allocated. *)
Definition finalizer_releases (cs : list buffer_call) (b : Buffer.t) : bool :=
  match cs with
  | CallDel :: _ => Buffer._allocated b
  | _ => false
  end.

(** The fields in which [acquire] stores its arguments (lines 165-188) and
    which it marks up to date (lines 257-268), under the names the source
    uses there. *)
Definition acquire_arg_fields : list string :=
  ["mode"; "samples_per_record"; "records_per_buffer";
   "buffers_per_acquisition"; "channel_selection"; "transfer_offset";
   "external_starcapture"; "enable_record_headers"; "alloc_buffers";
   "fifo_only_streaming"; "interleave_samples"; "get_processed_data"].

(** The fields [config] reads for its device calls and marks up to date
    afterwards (lines 93-157), in the order of the calls. *)
Definition config_device_fields : list string :=
  ["clock_source"; "sample_rate"; "clock_edge"; "decimation";
   "coupling1"; "range1"; "impedence1"; "bwlimit1";
   "coupling2"; "range2"; "impedence2"; "bwlimit2";
   "trigger_operation";
   "trigger_engine1"; "trigger_source1"; "trigger_slope1"; "trigger_level1";
   "trigger_engine2"; "trigger_source2"; "trigger_slope2"; "trigger_level2";
   "external_trigger_coupling"; "trigger_range";
   "trigger_delay"; "timeout_ticks"].

(** The per-channel list arguments of [config], each with the prefix of the
    fields it is stored in. *)
Definition channel_lists (a : config_args)
  : list (string * option (list pyval)) :=
  [("coupling", coupling a); ("range", channel_range a);
   ("impedence", impedence a); ("bwlimit", bwlimit a)].

(** The field [nm] holds the code of [v] and is not up to date. *)
Definition holds_stale (nm : string) (v : pyval) (s : t) : Prop :=
  exists p b,
    parameters s !! nm = Some p
    /\ AlazarParameter._uptodate_flag p = false
    /\ AlazarParameter._byte p = Some b
    /\ AlazarParameter._value_to_byte_dict p !! v = Some b.

(** [e] is a call of [AlazarBeforeAsyncRead] that returned the success
    code. *)
Definition is_armed (e : event) : Prop :=
  exists args, e = EvCall (Call "AlazarBeforeAsyncRead" args) _succes.

(** The field [mode] of [s] reads NPT or TS. *)
Definition supported_mode (s : t) : Prop :=
  exists p,
    parameters s !! "mode" = Some p
    /\ (AlazarParameter.get p = inr (PStr "NPT")
        \/ AlazarParameter.get p = inr (PStr "TS")).

(** The history of [s] extends that of [s0] by events none of which is a
    commit. *)
Definition no_commit_since (s0 s : t) : Prop :=
  exists new,
    trace s = (trace s0 ++ new)%list /\ Forall (fun e => ~ is_commit e) new.

(** The history of [s] extends that of [s0] by a part without commits in
    which the acquisition was armed, and then by anything. *)
Definition armed_since (s0 s : t) : Prop :=
  exists pre post,
    trace s = (trace s0 ++ pre ++ post)%list
    /\ Forall (fun e => ~ is_commit e) pre
    /\ Exists is_armed pre.

(** The field [nm] of [s] exists and is marked up to date. *)
Definition uptodate (s : t) (nm : string) : Prop :=
  exists p,
    parameters s !! nm = Some p /\ AlazarParameter._uptodate_flag p = true.

(** State of the device calls of [config], started on [st1]: the calls [cs]
    were made since, in this order; the codes of the fields are those of
    [st1]; the fields [ns] are up to date. *)
Definition sent (st1 : t) (cs : list (api_call * Z)) (ns : list string)
    (s : t) : Prop :=
  calls (trace s) = (calls (trace st1) ++ cs)%list
  /\ (forall nm, code s nm = code st1 nm)
  /\ (forall nm, nm ∈ ns -> uptodate s nm).

(** [s] and [s'] are the same instrument up to the field [nm], which both
    have or both lack. *)
Definition same_except (nm : string) (s s' : t) : Prop :=
  _handle s = _handle s'
  /\ buflist s = buflist s'
  /\ waittimeout s = waittimeout s'
  /\ trace s = trace s'
  /\ warnings s = warnings s'
  /\ number_of_channels s = number_of_channels s'
  /\ samples_per_buffer s = samples_per_buffer s'
  /\ (forall n, n <> nm -> parameters s !! n = parameters s' !! n)
  /\ (is_Some (parameters s !! nm) <-> is_Some (parameters s' !! nm)).

(** The body [m] does not look at the field [nm]: on two instruments that
    differ in this field only it has the same outcome, and leaves
    instruments that differ in this field only. *)
Definition ignores {A} (nm : string) (m : M A) : Prop :=
  forall s s',
    same_except nm s s' ->
    fst (m s) = fst (m s') /\ same_except nm (snd (m s)) (snd (m s')).

(** The arguments [a] with [v] for [external_startcapture]. *)
Definition with_external_startcapture (v : pyval) (a : acquire_args)
  : acquire_args :=
  AcquireArgs (mode a) (samples_per_record a) (records_per_buffer a)
    (buffers_per_acquisition a) (channel_selection a) (transfer_offset a)
    v (enable_record_headers a) (alloc_buffers a) (fifo_only_streaming a)
    (interleave_samples a) (get_processed_data a).

(** Whenever the body [m] raises, the exception satisfies [P]. *)
Definition raises_only {A} (P : exc -> Prop) (m : M A) : Prop :=
  forall s, match fst (m s) with inl e => P e | inr _ => True end.

(** The library functions [acquire] calls, as it names them when a status
    code is checked. *)
Definition acquire_calls : list string :=
  ["AlazarAbortAsyncRead"; "AlazarGetChannelInfo"; "AlazarSetRecordSize";
   "AlazarBeforeAsyncRead"; "AlazarPostAsyncBuffer"; "AlazarStartCapture";
   "AlazarWaitAsyncBufferComplete"].

(** The exceptions with which [acquire] can end. *)
Inductive acquire_exception : exc -> Prop :=
  | AeKeyError m : acquire_exception (KeyError m)
  | AeStale : acquire_exception (Exception AlazarParameter.stale_msg)
  | AeMode : acquire_exception (Exception unsupported_mode_msg)
  | AeBits :
      acquire_exception
        (Exception "Only 8 bits per sample supported at this moment")
  | AeStatus src rc msg :
      src ∈ acquire_calls ->
      error_codes !! rc = Some msg ->
      acquire_exception
        (Exception (src ++ " raised " ++ pretty rc ++ ": " ++ msg))
  | AeTypeError m : acquire_exception (TypeError m)
  | AeBuflist :
      acquire_exception
        (AttributeError "'AlazarTech_ATS' object has no attribute 'buflist'")
  | AeSizeBytes :
      acquire_exception
        (AttributeError "'Buffer' object has no attribute 'size_bytes'")
  | AeLoop :
      acquire_exception (NameError "name 'BuffersCompleted' is not defined").

(** The calls [acquire(a)] for each [a] of [l] in turn, on the same
    instrument: how each one ended, and the instrument at the end. *)
Fixpoint acquire_all (dll : driver) (fuel : nat) (l : list acquire_args)
    (s : t) : list (res unit) * t :=
  match l with
  | [] => ([], s)
  | a :: l' =>
      let (r, s1) := acquire dll fuel a s in
      let (rs, s2) := acquire_all dll fuel l' s1 in
      (r :: rs, s2)
  end.

(** [r] is how a call ends that did not get past the arguments and the
    mode check. *)
Definition early_failure (r : res unit) : Prop :=
  r = inl (Exception AlazarParameter.stale_msg)
  \/ exists m, r = inl (KeyError m).

(** The fields whose codes make up the flags of [AlazarBeforeAsyncRead]
    (lines 219-225), in the order in which they are read. *)
Definition flag_fields : list string :=
  ["mode"; "external_startcapture"; "enable_record_headers"; "alloc_buffers";
   "fifo_only_streaming"; "interleave_samples"; "get_processed_data"].

(** The exception of the loop condition of line 277. *)
Definition loop_error : exc :=
  NameError "name 'BuffersCompleted' is not defined".

(** What a run of [acquire] that reaches the capture loop has done, from
    the instrument [st1] the arguments left to the instrument [sf] at the
    end: the mode read NPT and [buflist] was empty; the five library calls
    were made in this order, each answered with the success code, with
    the codes of [st1] as arguments, the flags being the bitwise or of the
    codes of [flag_fields]; the twelve fields of the arguments are up to
    date; and the two locals hold the buffer geometry. *)
Definition furthest_run (st1 sf : t) : Prop :=
  let c := code st1 in
  exists spr rpb bpa fs,
    fst (param_get "mode" st1) = inr (PStr "NPT")
    /\ buflist st1 = Some []
    /\ c "samples_per_record" = Some spr
    /\ c "records_per_buffer" = Some rpb
    /\ c "buffers_per_acquisition" = Some bpa
    /\ map c flag_fields = map Some fs
    /\ calls (trace sf)
       = (calls (trace st1)
          ++ [(Call "AlazarAbortAsyncRead" [], 512);
              (Call "AlazarGetChannelInfo" [], 512);
              (Call "AlazarSetRecordSize" [Some 0; Some spr], 512);
              (Call "AlazarBeforeAsyncRead"
                 [c "channel_selection"; c "transfer_offset"; Some spr;
                  Some rpb; Some (rpb * bpa); Some (foldl Z.lor 0 fs)], 512);
              (Call "AlazarStartCapture" [], 512)])%list
    /\ (forall nm, nm ∈ acquire_arg_fields -> uptodate sf nm)
    /\ samples_per_buffer sf = spr * rpb
    /\ number_of_channels sf
       = (if bool_decide (c "channel_selection" = Some 3) then 2 else 1).

(** The names under which [config] reports its library calls when it
    checks their status codes. *)
Definition config_sources : list string :=
  ["AlazarSetCaptureClock";
   "AlazarInputControl 1"; "AlazarSetBWLimit 1";
   "AlazarInputControl 2"; "AlazarSetBWLimit 2";
   "AlazarSetTriggerOperation"; "AlazarSetExternalTrigger";
   "AlazarSetTriggerDelay"; "AlazarSetTriggerTimeOut"].

(** The exceptions with which [config] can end. *)
Inductive config_exception : exc -> Prop :=
  | CeKeyError m : config_exception (KeyError m)
  | CeStatus src rc msg :
      src ∈ config_sources ->
      rc <> _succes ->
      error_codes !! rc = Some msg ->
      config_exception
        (Exception (src ++ " raised " ++ pretty rc ++ ": " ++ msg)).

(** The library answers every call of [f] with the success code. *)
Definition accepts (dll : driver) (f : string) : Prop :=
  forall tr args, return_code (dll tr (Call f args)) = _succes.

(** The library reports 8 bits per sample whenever it is asked for the
    channel info. *)
Definition reports_8_bits (dll : driver) : Prop :=
  forall tr args,
    out_bps (dll tr (Call "AlazarGetChannelInfo" args)) mod 2 ^ 8 = 8.

(** The event [e] was recorded after the history of [s0]. *)
Definition recorded_since (s0 : t) (e : event) (s : t) : Prop :=
  exists new, trace s = (trace s0 ++ new)%list /\ e ∈ new.

(** ** Test objects *)

Module Fixture.

(** A field whose two dictionaries are inverse to each other, holding
    [code] and flagged [uptodate]. *)
Definition field (nm : string) (table : list (Z * pyval)) (code : option Z)
    (uptodate : bool) : AlazarParameter.t :=
  AlazarParameter.mk nm code uptodate
    (list_to_map table)
    (list_to_map (map (fun kv => (kv.2, kv.1)) table)).

(** A numeric field whose only value [v] is its own code. *)
Definition number (nm : string) (v : Z) (uptodate : bool)
  : string * AlazarParameter.t :=
  (nm, field nm [(v, PInt v)] (Some v) uptodate).

Definition mode_table : list (Z * pyval) :=
  [(0x200, PStr "NPT"); (0x400, PStr "TS"); (0x100, PStr "CS")].

(** The fields [acquire] touches, under both spellings of
    [external_startcapture]. *)
Definition acquire_fields (mode_code spr rpb bpa : Z)
  : gmap string AlazarParameter.t :=
  list_to_map [
    ("mode", field "mode" mode_table (Some mode_code) true);
    number "samples_per_record" spr true;
    number "records_per_buffer" rpb true;
    number "buffers_per_acquisition" bpa true;
    number "channel_selection" 3 true;
    number "transfer_offset" 0 true;
    number "external_startcapture" 0 true;
    number "external_starcapture" 0 true;
    number "enable_record_headers" 0 true;
    number "alloc_buffers" 0 true;
    number "fifo_only_streaming" 0 true;
    number "interleave_samples" 0 true;
    number "get_processed_data" 0 true ].

Definition board (ps : gmap string AlazarParameter.t) : t :=
  AlazarTech_ATS.mk 1 ps (Some []) (Some 1000) [] [] 0 0.

(** NPT, 1024 samples per record, 4 records per buffer, 10 buffers. *)
Definition npt_board : t := board (acquire_fields 0x200 1024 4 10).

(** TS, 1000 samples per record, 3 buffers. *)
Definition ts_board : t := board (acquire_fields 0x400 1000 1 3).

(** A library that accepts every call and reports 8 bits per sample. *)
Definition always_ok : driver := fun _ _ => Reply 512 0 8.

(** A library whose [n]-th call (counting from 0) fails with
    [ApiWaitTimeout]. *)
Definition fails_at (n : nat) : driver :=
  fun tr _ =>
    if bool_decide (List.length (calls tr) = n) then Reply 579 0 8
    else Reply 512 0 8.

Definition no_args : acquire_args :=
  AcquireArgs PNone PNone PNone PNone PNone PNone
              PNone PNone PNone PNone PNone PNone.

Definition with_mode (m : pyval) : acquire_args :=
  AcquireArgs m PNone PNone PNone PNone PNone
              PNone PNone PNone PNone PNone PNone.

Definition clock_table : list (Z * pyval) :=
  [(1, PStr "INTERNAL_CLOCK"); (2, PStr "EXTERNAL_CLOCK")].

(** The fields [config] touches, each stale and holding code [1]. *)
Definition config_fields : gmap string AlazarParameter.t :=
  list_to_map
    (("clock_source", field "clock_source" clock_table (Some 1) false)
     :: map (fun nm => (nm, field nm [(1, PInt 1)] (Some 1) false))
        ["sample_rate"; "clock_edge"; "decimation";
         "coupling1"; "range1"; "impedence1"; "bwlimit1";
         "coupling2"; "range2"; "impedence2"; "bwlimit2";
         "trigger_operation";
         "trigger_engine1"; "trigger_source1"; "trigger_slope1"; "trigger_level1";
         "trigger_engine2"; "trigger_source2"; "trigger_slope2"; "trigger_level2";
         "external_trigger_coupling"; "trigger_range"; "trigger_delay";
         "timeout_ticks"]).

Definition no_config_args : config_args :=
  ConfigArgs PNone PNone PNone PNone None None None None
             PNone PNone PNone PNone PNone PNone PNone PNone PNone
             PNone PNone PNone PNone.

Definition windows : Buffer.host :=
  Buffer.mk_host "nt" (fun _ _ _ _ => Some 65536) 0.


End Fixture.

Module ChannelFixture.

(** A board with the fields of [Fixture.config_fields] and a field
    [coupling0] that knows the values 1 and 2. *)
Definition board : t :=
  Fixture.board
    (<["coupling0" := Fixture.field "coupling0" [(1, PInt 1); (2, PInt 2)]
                        (Some 1) true]> Fixture.config_fields).

(** [config(coupling=[2, 1])] *)
Definition coupling_args : config_args :=
  ConfigArgs PNone PNone PNone PNone (Some [PInt 2; PInt 1]) None None None
             PNone PNone PNone PNone PNone PNone PNone PNone PNone
             PNone PNone PNone PNone.

End ChannelFixture.

(** ** The status-code check *)

(** C5. [_result_handler] returns on the success code 512 and on nothing
    else; a code of the table raises [Exception] with the name of the
    operation, the code and the message of the table; a code outside the
    table raises [KeyError] with the name of the operation and the code. *)
Theorem result_handler_classifies (error_code : Z) (error_source : string) :
  (error_code = 512 -> _result_handler error_code error_source = inr tt)
  /\ (forall m, error_code <> 512 -> error_codes !! error_code = Some m ->
        _result_handler error_code error_source
        = inl (Exception (error_source ++ " raised " ++ pretty error_code
                          ++ ": " ++ m)))
  /\ (error_code <> 512 -> error_codes !! error_code = None ->
        _result_handler error_code error_source
        = inl (KeyError (error_source ++ " raised unknown error "
                         ++ pretty error_code)))
  /\ (_result_handler error_code error_source = inr tt -> error_code = 512).
Proof.
  unfold _result_handler, _succes.
  repeat split.
  - intros ->. reflexivity.
  - intros m Hne Hm. rewrite bool_decide_eq_false_2 by exact Hne.
    rewrite Hm. reflexivity.
  - intros Hne Hm. rewrite bool_decide_eq_false_2 by exact Hne.
    rewrite Hm. reflexivity.
  - case_bool_decide as Hc; [intros _; exact Hc |].
    destruct (error_codes !! error_code); discriminate.
Qed.

Lemma result_handler_classifies_witness :
  _result_handler 512 "AlazarStartCapture" = inr tt
  /\ _result_handler 579 "AlazarWaitAsyncBufferComplete"
     = inl (Exception
         ("AlazarWaitAsyncBufferComplete" ++ " raised " ++ pretty 579 ++ ": "
          ++ "ApiWaitTimeout: operation did not finish during timeout interval. Check your trigger."))
  /\ _result_handler 600 "AlazarStartCapture"
     = inl (KeyError ("AlazarStartCapture" ++ " raised unknown error "
                      ++ pretty 600)).
Proof.
  split; [| split].
  - apply (result_handler_classifies 512 "AlazarStartCapture"). reflexivity.
  - apply (result_handler_classifies 579 "AlazarWaitAsyncBufferComplete").
    + lia.
    + vm_compute. reflexivity.
  - apply (result_handler_classifies 600 "AlazarStartCapture").
    + lia.
    + vm_compute. reflexivity.
Defined.

Lemma error_codes_dom : dom error_codes = list_to_set (seqZ 513 79).
Proof. vm_compute. reflexivity. Qed.

(** The table holds exactly the codes 513 to 591; 512 is not among them. *)
Lemma error_codes_domain (c : Z) :
  is_Some (error_codes !! c) <-> 513 <= c <= 591.
Proof.
  rewrite <- elem_of_dom, error_codes_dom, elem_of_list_to_set, elem_of_seqZ.
  lia.
Qed.

(** ** Configuration fields *)

Lemma param_set_run (nm : string) (v : pyval) (s : t) :
  param_set nm v s
  = match parameters s !! nm with
    | None => (inl (KeyError nm), s)
    | Some p =>
        match AlazarParameter._set p v with
        | inl e => (inl e, s)
        | inr p' => (inr tt, with_parameters (<[nm := p']> (parameters s)) s)
        end
    end.
Proof.
  unfold param_set, param, lift, store, mbind, M_bind, bind.
  destruct (parameters s !! nm) as [p |]; [| reflexivity].
  destruct (AlazarParameter._set p v); reflexivity.
Qed.

Lemma param_get_run (nm : string) (s : t) :
  param_get nm s
  = match parameters s !! nm with
    | None => (inl (KeyError nm), s)
    | Some p => (AlazarParameter.get p, s)
    end.
Proof.
  unfold param_get, param, lift, mbind, M_bind, bind.
  destruct (parameters s !! nm); reflexivity.
Qed.

Lemma get_byte_run (nm : string) (s : t) :
  get_byte nm s
  = match parameters s !! nm with
    | None => (inl (KeyError nm), s)
    | Some p =>
        (inr (AlazarParameter._byte p),
         with_trace (trace s ++ [EvGetByte nm]) s)
    end.
Proof.
  unfold get_byte, param, emit, mbind, M_bind, bind, mret, M_ret, ret.
  destruct (parameters s !! nm); reflexivity.
Qed.

Lemma set_updated_run (nm : string) (s : t) :
  set_updated nm s
  = match parameters s !! nm with
    | None => (inl (KeyError nm), s)
    | Some p =>
        (inr tt,
         with_trace (trace s ++ [EvSetUpdated nm])
           (with_parameters
              (<[nm := AlazarParameter._set_updated p]> (parameters s)) s))
    end.
Proof.
  unfold set_updated, param, store, emit, mbind, M_bind, bind.
  destruct (parameters s !! nm); reflexivity.
Qed.

Lemma set_rejects (p : AlazarParameter.t) (v : pyval) :
  AlazarParameter._value_to_byte_dict p !! v = None ->
  AlazarParameter._set p v
  = inl (KeyError (AlazarParameter.unknown_setting_msg v
                     (AlazarParameter.name p))).
Proof. intros Hv. unfold AlazarParameter._set. rewrite Hv. reflexivity. Qed.

Lemma param_set_rejects (nm : string) (v : pyval) (s : t)
    (p : AlazarParameter.t) :
  parameters s !! nm = Some p ->
  AlazarParameter._value_to_byte_dict p !! v = None ->
  param_set nm v s
  = (inl (KeyError (AlazarParameter.unknown_setting_msg v
                      (AlazarParameter.name p))), s).
Proof.
  intros Hp Hv. rewrite param_set_run, Hp, (set_rejects p v Hv). reflexivity.
Qed.

(** C7. Setting a field to a value outside its domain raises [KeyError]
    with a message that quotes the value and the name of the field; the
    instrument is left exactly as it was: no call to the library is made,
    and the field keeps its code and its flag. *)
Theorem set_outside_domain_rejected (nm : string) (v : pyval) (s : t)
    (p : AlazarParameter.t) :
  parameters s !! nm = Some p ->
  AlazarParameter._value_to_byte_dict p !! v = None ->
  AlazarParameter._set p v
    = inl (KeyError ("Value " ++ dquote ++ py_str v ++ dquote
                     ++ " unknown setting in parameter "
                     ++ dquote ++ AlazarParameter.name p ++ dquote))
  /\ param_set nm v s
     = (inl (KeyError (AlazarParameter.unknown_setting_msg v
                         (AlazarParameter.name p))), s)
  /\ trace (snd (param_set nm v s)) = trace s
  /\ parameters (snd (param_set nm v s)) !! nm = Some p.
Proof.
  intros Hp Hv. rewrite (param_set_rejects nm v s p Hp Hv). cbn [snd].
  split; [apply set_rejects, Hv |]. split; [reflexivity |].
  split; [reflexivity | exact Hp].
Qed.

Lemma set_outside_domain_rejected_witness :
  param_set "mode" (PStr "XX") Fixture.npt_board
  = (inl (KeyError (AlazarParameter.unknown_setting_msg (PStr "XX") "mode")),
     Fixture.npt_board).
Proof.
  apply (set_outside_domain_rejected "mode" (PStr "XX") Fixture.npt_board
           (Fixture.field "mode" Fixture.mode_table (Some 0x200) true)).
  - vm_compute. reflexivity.
  - vm_compute. reflexivity.
Defined.

(** C10. While a field is stale, [get] raises; this is the state [_set]
    leaves it in.  [_get_byte] hands out the code all the same: the code
    just stored on a stale field, and [None] on a field that never held
    one. *)
Theorem stale_value_not_readable (p p' : AlazarParameter.t) (v : pyval) :
  AlazarParameter._set p v = inr p' ->
  AlazarParameter._uptodate_flag p' = false
  /\ AlazarParameter.get p' = inl (Exception AlazarParameter.stale_msg)
  /\ (exists b, AlazarParameter._value_to_byte_dict p !! v = Some b
                /\ AlazarParameter._get_byte p' = Some b)
  /\ (forall nm s q, parameters s !! nm = Some q ->
        AlazarParameter._uptodate_flag q = false ->
        fst (param_get nm s) = inl (Exception AlazarParameter.stale_msg)
        /\ fst (get_byte nm s) = inr (AlazarParameter._byte q)).
Proof.
  unfold AlazarParameter._set. intros Hset.
  destruct (AlazarParameter._value_to_byte_dict p !! v) as [b |] eqn:Hv;
    [| discriminate].
  injection Hset as <-.
  split; [reflexivity |]. split; [reflexivity |].
  split; [exists b; split; reflexivity |].
  intros nm s q Hq Hflag. split.
  - rewrite param_get_run, Hq. unfold AlazarParameter.get. rewrite Hflag.
    reflexivity.
  - rewrite get_byte_run, Hq. reflexivity.
Qed.

Lemma stale_value_not_readable_witness :
  AlazarParameter._uptodate_flag
    (Fixture.field "mode" Fixture.mode_table (Some 0x400) false) = false
  /\ AlazarParameter.get
       (Fixture.field "mode" Fixture.mode_table (Some 0x400) false)
     = inl (Exception AlazarParameter.stale_msg).
Proof.
  pose proof (stale_value_not_readable
                (Fixture.field "mode" Fixture.mode_table (Some 0x200) true)
                (Fixture.field "mode" Fixture.mode_table (Some 0x400) false)
                (PStr "TS")) as H.
  destruct H as (Hflag & Hget & _).
  - vm_compute. reflexivity.
  - split; [exact Hflag | exact Hget].
Defined.

(** A field that was never set hands out [None] without raising. *)
Lemma get_byte_never_set (nm : string) (s : t) (q : AlazarParameter.t) :
  parameters s !! nm = Some q ->
  AlazarParameter._byte q = None ->
  fst (get_byte nm s) = inr None.
Proof. intros Hq Hb. rewrite get_byte_run, Hq, <- Hb. reflexivity. Qed.

(** Set, then commit: the field is up to date and holds the code that
    [_value_to_byte_dict] gives for the value. *)
Lemma set_commit_roundtrip (p p' : AlazarParameter.t) (v : pyval) (b : Z) :
  AlazarParameter._value_to_byte_dict p !! v = Some b ->
  AlazarParameter._set p v = inr p' ->
  AlazarParameter._uptodate_flag (AlazarParameter._set_updated p') = true
  /\ AlazarParameter._get_byte (AlazarParameter._set_updated p') = Some b.
Proof.
  unfold AlazarParameter._set. intros Hv. rewrite Hv.
  intros [= <-]. split; reflexivity.
Qed.

(** C8. The constructor never builds a field.  With [None] for the table the
    comprehension raises; with an empty table the reverse dictionary is
    empty and the first [_set] raises; otherwise the comprehension iterates
    over the keys of the table and fails to unpack the first one. *)
Theorem init_always_raises (nm : string) (value : pyval)
    (byte_to_value_dict : option (gmap Z pyval)) :
  exists e, AlazarParameter.__init__ nm value byte_to_value_dict = inl e
            /\ (e = TypeError "'NoneType' object is not iterable"
                \/ e = TypeError "cannot unpack non-iterable int object"
                \/ e = KeyError (AlazarParameter.unknown_setting_msg value nm)).
Proof.
  unfold AlazarParameter.__init__.
  destruct byte_to_value_dict as [d |]; [| eauto].
  destruct (map fst (map_to_list d)) as [| k ks]; simpl.
  - unfold AlazarParameter._set. simpl. rewrite lookup_empty. eauto.
  - eauto.
Qed.

(** The constructor on the table of the acquisition modes. *)
Lemma init_mode_field_raises :
  AlazarParameter.__init__ "mode" (PStr "NPT")
    (Some (list_to_map Fixture.mode_table))
  = inl (TypeError "cannot unpack non-iterable int object").
Proof. vm_compute. reflexivity. Qed.

(** ** Buffers *)





(** ** Rules for method bodies *)

Lemma wp_bind {A B} (m : M A) (f : A -> M B) Q E s :
  wp (m ≫= f) Q E s = wp m (fun a s' => wp (f a) Q E s') E s.
Proof.
  unfold wp, mbind, M_bind, bind. destruct (m s) as [[e | a] s']; reflexivity.
Qed.

Lemma wp_ret {A} (a : A) Q E s : wp (mret a) Q E s = Q a s.
Proof. reflexivity. Qed.

Lemma wp_ret' {A} (a : A) Q E s : wp (AlazarTech_ATS.ret a) Q E s = Q a s.
Proof. reflexivity. Qed.

Lemma wp_raise {A} (e : exc) (Q : A -> t -> Prop) E s :
  wp (raise e) Q E s = E e s.
Proof. reflexivity. Qed.

Lemma wp_lift {A} (r : res A) Q E s :
  wp (lift r) Q E s = match r with inl e => E e s | inr a => Q a s end.
Proof. unfold wp, lift. destruct r; reflexivity. Qed.

Lemma wp_mono {A} (m : M A) (Q Q' : A -> t -> Prop) (E E' : exc -> t -> Prop) s :
  (forall a s', Q a s' -> Q' a s') ->
  (forall e s', E e s' -> E' e s') ->
  wp m Q E s -> wp m Q' E' s.
Proof.
  unfold wp. intros HQ HE. destruct (m s) as [[e | a] s']; auto.
Qed.

Lemma wp_final {A} (m : M A) (F : t -> Prop) s :
  wp m (fun _ => F) (fun _ => F) s <-> F (snd (m s)).
Proof. unfold wp. destruct (m s) as [[e | a] s']; reflexivity. Qed.

Lemma wp_param nm Q E s :
  wp (param nm) Q E s
  = match parameters s !! nm with
    | Some p => Q p s
    | None => E (KeyError nm) s
    end.
Proof. unfold wp, param. destruct (parameters s !! nm); reflexivity. Qed.

Lemma wp_param_get nm Q E s :
  wp (param_get nm) Q E s
  = match parameters s !! nm with
    | None => E (KeyError nm) s
    | Some p =>
        match AlazarParameter.get p with
        | inl e => E e s
        | inr v => Q v s
        end
    end.
Proof.
  unfold wp. rewrite param_get_run.
  destruct (parameters s !! nm) as [p |]; [| reflexivity].
  destruct (AlazarParameter.get p); reflexivity.
Qed.

Lemma wp_param_set nm v Q E s :
  wp (param_set nm v) Q E s
  = match parameters s !! nm with
    | None => E (KeyError nm) s
    | Some p =>
        match AlazarParameter._set p v with
        | inl e => E e s
        | inr p' => Q tt (with_parameters (<[nm := p']> (parameters s)) s)
        end
    end.
Proof.
  unfold wp. rewrite param_set_run.
  destruct (parameters s !! nm) as [p |]; [| reflexivity].
  destruct (AlazarParameter._set p v); reflexivity.
Qed.

Lemma wp_get_byte nm Q E s :
  wp (get_byte nm) Q E s
  = match parameters s !! nm with
    | None => E (KeyError nm) s
    | Some p =>
        Q (AlazarParameter._byte p) (with_trace (trace s ++ [EvGetByte nm]) s)
    end.
Proof.
  unfold wp. rewrite get_byte_run.
  destruct (parameters s !! nm); reflexivity.
Qed.

Lemma wp_set_updated nm Q E s :
  wp (set_updated nm) Q E s
  = match parameters s !! nm with
    | None => E (KeyError nm) s
    | Some p =>
        Q tt (with_trace (trace s ++ [EvSetUpdated nm])
                (with_parameters
                   (<[nm := AlazarParameter._set_updated p]> (parameters s)) s))
    end.
Proof.
  unfold wp. rewrite set_updated_run.
  destruct (parameters s !! nm); reflexivity.
Qed.

Lemma wp_dll_call dll f a Q E s :
  wp (dll_call dll f a) Q E s
  = Q (dll (trace s) (Call f a))
      (with_trace
         (trace s ++ [EvCall (Call f a) (return_code (dll (trace s) (Call f a)))])
         s).
Proof. reflexivity. Qed.

Lemma wp_check rc src (Q : unit -> t -> Prop) E s :
  wp (check rc src) Q E s
  = match _result_handler rc src with
    | inl e => E e s
    | inr _ => Q tt s
    end.
Proof.
  unfold check. rewrite wp_lift.
  destruct (_result_handler rc src) as [e | []]; reflexivity.
Qed.

Lemma wp_assign_number_of_channels n (Q : unit -> t -> Prop) E s :
  wp (assign_number_of_channels n) Q E s = Q tt (with_number_of_channels n s).
Proof. reflexivity. Qed.

Lemma wp_assign_samples_per_buffer n (Q : unit -> t -> Prop) E s :
  wp (assign_samples_per_buffer n) Q E s = Q tt (with_samples_per_buffer n s).
Proof. reflexivity. Qed.

Lemma wp_warning msg (Q : unit -> t -> Prop) E s :
  wp (warning msg) Q E s = Q tt (with_warnings (warnings s ++ [msg]) s).
Proof. reflexivity. Qed.

Lemma wp_if_given v body (Q : unit -> t -> Prop) E s :
  wp (if_given v body) Q E s
  = match v with
    | PNone => Q tt s
    | _ => wp (body v) Q E s
    end.
Proof. destruct v; reflexivity. Qed.

Lemma result_handler_ok rc src :
  _result_handler rc src = inr tt -> rc = _succes.
Proof.
  unfold _result_handler. case_bool_decide as Hc; [intros _; exact Hc |].
  destruct (error_codes !! rc); discriminate.
Qed.

Lemma result_handler_success src : _result_handler _succes src = inr tt.
Proof. reflexivity. Qed.

(** ** acquire: the arguments and the mode check *)

Lemma bind_run {A B} (m : M A) (f : A -> M B) s :
  (m ≫= f) s
  = match m s with
    | (inl e, s') => (inl e, s')
    | (inr a, s') => f a s'
    end.
Proof. reflexivity. Qed.

Lemma wp_run {A} (m : M A) Q E s r s' :
  wp m Q E s -> m s = (r, s') ->
  match r with inl e => E e s' | inr a => Q a s' end.
Proof. unfold wp. intros H Hm. rewrite Hm in H. exact H. Qed.

(** Storing the arguments makes no call and records no event. *)
Lemma param_set_keeps (I : t -> Prop) nm v s :
  (forall ps s', I s' -> I (with_parameters ps s')) ->
  I s -> wp (param_set nm v) (fun _ => I) (fun _ => I) s.
Proof.
  intros Hps HI. rewrite wp_param_set.
  destruct (parameters s !! nm) as [p |]; [| exact HI].
  destruct (AlazarParameter._set p v); [exact HI |]. apply Hps, HI.
Qed.

Lemma if_given_set_keeps (I : t -> Prop) nm v s :
  (forall ps s', I s' -> I (with_parameters ps s')) ->
  I s -> wp (if_given v (param_set nm)) (fun _ => I) (fun _ => I) s.
Proof.
  intros Hps HI. rewrite wp_if_given.
  destruct v; [exact HI | |]; apply param_set_keeps; assumption.
Qed.

Ltac wp_chain tac :=
  repeat (lazymatch goal with
          | |- wp (mbind _ _) _ _ _ =>
              rewrite wp_bind;
              eapply wp_mono; [ | | tac ];
              [ intros ? ? ? | intros ? ? HE; exact HE ]
          end);
  tac.

Lemma acquire_set_args_keeps (I : t -> Prop) a s :
  (forall ps s', I s' -> I (with_parameters ps s')) ->
  I s -> I (snd (acquire_set_args a s)).
Proof.
  intros Hps HI. apply (proj1 (wp_final (acquire_set_args a) I s)).
  unfold acquire_set_args.
  wp_chain ltac:(apply (if_given_set_keeps I); assumption).
Qed.

Lemma acquire_set_args_trace a s :
  trace (snd (acquire_set_args a s)) = trace s.
Proof.
  apply (acquire_set_args_keeps (fun s' => trace s' = trace s));
    [intros ps s' Hs'; exact Hs' | reflexivity].
Qed.

Lemma set_error_is_KeyError p v e :
  AlazarParameter._set p v = inl e -> is_KeyError e.
Proof.
  unfold AlazarParameter._set.
  destruct (AlazarParameter._value_to_byte_dict p !! v); [discriminate |].
  intros [= <-]. eexists. reflexivity.
Qed.

Lemma set_leaves_stale p v p' :
  AlazarParameter._set p v = inr p' ->
  AlazarParameter._uptodate_flag p' = false.
Proof.
  unfold AlazarParameter._set.
  destruct (AlazarParameter._value_to_byte_dict p !! v); [| discriminate].
  intros [= <-]. reflexivity.
Qed.

Lemma param_set_mode_stale v s :
  wp (param_set "mode" v) (fun _ => stale_mode) (fun e _ => is_KeyError e) s.
Proof.
  rewrite wp_param_set.
  destruct (parameters s !! "mode") as [p |]; [| eexists; reflexivity].
  destruct (AlazarParameter._set p v) as [e | p'] eqn:Hset.
  - eapply set_error_is_KeyError, Hset.
  - exists p'. split; [apply lookup_insert_eq |].
    eapply set_leaves_stale, Hset.
Qed.

Lemma if_given_set_other nm v s :
  nm <> "mode" -> stale_mode s ->
  wp (if_given v (param_set nm)) (fun _ => stale_mode)
     (fun e _ => is_KeyError e) s.
Proof.
  intros Hnm Hs. rewrite wp_if_given.
  assert (Hset : wp (param_set nm v) (fun _ => stale_mode)
                    (fun e _ => is_KeyError e) s).
  { rewrite wp_param_set.
    destruct (parameters s !! nm) as [p |]; [| eexists; reflexivity].
    destruct (AlazarParameter._set p v) as [e | p'] eqn:Hp.
    - eapply set_error_is_KeyError, Hp.
    - destruct Hs as (q & Hq & Hflag). exists q. split; [| exact Hflag].
      cbn. rewrite lookup_insert_ne by exact Hnm. exact Hq. }
  destruct v; [exact Hs | exact Hset | exact Hset].
Qed.

Lemma acquire_set_args_mode_given a s :
  mode a <> PNone ->
  wp (acquire_set_args a) (fun _ => stale_mode) (fun e _ => is_KeyError e) s.
Proof.
  intros Hmode. unfold acquire_set_args.
  rewrite wp_bind.
  eapply wp_mono with (Q := fun _ => stale_mode)
                      (E := fun e _ => is_KeyError e).
  2: { intros e s' He. exact He. }
  2: { rewrite wp_if_given. destruct (mode a); [congruence | |];
       apply param_set_mode_stale. }
  intros _ s1 Hs1.
  wp_chain ltac:(apply if_given_set_other; [discriminate | assumption]).
Qed.

Lemma check_mode_stale s :
  stale_mode s ->
  acquire_check_mode s = (inl (Exception AlazarParameter.stale_msg), s).
Proof.
  intros (p & Hp & Hflag). unfold acquire_check_mode.
  rewrite bind_run, param_get_run, Hp.
  unfold AlazarParameter.get. rewrite Hflag. reflexivity.
Qed.

(** With a mode argument, whatever it is, [acquire] raises before the
    library is reached: [KeyError] from storing an argument, or else the
    staleness exception of [get], because line 192 reads the mode through
    [get] right after [_set] marked it stale.  The exception for
    unsupported modes is never the one raised. *)
Lemma acquire_mode_given_cases dll fuel a s :
  mode a <> PNone ->
  let r := acquire dll fuel a s in
  trace (snd r) = trace s
  /\ ((exists m, fst r = inl (KeyError m))
      \/ fst r = inl (Exception AlazarParameter.stale_msg))
  /\ fst r <> inl (Exception unsupported_mode_msg).
Proof.
  intros Hmode r.
  assert (Hr : trace (snd r) = trace s
               /\ ((exists m, fst r = inl (KeyError m))
                   \/ fst r = inl (Exception AlazarParameter.stale_msg))).
  { subst r. unfold acquire. rewrite bind_run.
    pose proof (acquire_set_args_trace a s) as Htr.
    pose proof (acquire_set_args_mode_given a s Hmode) as Hwp.
    destruct (acquire_set_args a s) as [[e | []] s1] eqn:Hset.
    - apply (wp_run _ _ _ _ _ _ Hwp) in Hset as [m ->].
      split; [exact Htr | left; eauto].
    - apply (wp_run _ _ _ _ _ _ Hwp) in Hset.
      rewrite bind_run, (check_mode_stale s1 Hset).
      split; [exact Htr | right; reflexivity]. }
  destruct Hr as (Htr & Herr). split; [exact Htr |]. split; [exact Herr |].
  destruct Herr as [[m Hm] | Hm]; rewrite Hm; [discriminate |].
  intros [= H].
Qed.

(** ** acquire: the capture loop *)

Lemma acquire_capture_run dll fuel s :
  acquire_capture dll (S fuel) s
  = match buflist s with
    | None =>
        (inl (AttributeError
                "'AlazarTech_ATS' object has no attribute 'buflist'"), s)
    | Some [] =>
        let r := dll (trace s) (Call "AlazarStartCapture" []) in
        let s' := with_trace
                    (trace s ++ [EvCall (Call "AlazarStartCapture" [])
                                   (return_code r)]) s in
        match _result_handler (return_code r) "AlazarStartCapture" with
        | inl e => (inl e, s')
        | inr _ =>
            (inl (NameError "name 'BuffersCompleted' is not defined"), s')
        end
    | Some (_ :: _) =>
        (inl (AttributeError
                "'Buffer' object has no attribute 'size_bytes'"), s)
    end.
Proof.
  unfold acquire_capture. rewrite bind_run. unfold attr_buflist.
  destruct (buflist s) as [[| b bl] |]; [| reflexivity | reflexivity].
  cbn [for_each]. rewrite bind_run. cbn [mret M_ret ret].
  unfold AlazarTech_ATS.ret at 1. rewrite bind_run.
  unfold dll_call at 1. cbv zeta. rewrite bind_run. unfold check at 1.
  unfold lift at 1.
  destruct (_result_handler _ "AlazarStartCapture") as [e | []];
    reflexivity.
Qed.

Lemma acquire_capture_raises dll fuel s :
  exists e, fst (acquire_capture dll fuel s) = inl e.
Proof.
  destruct fuel as [| fuel].
  - unfold acquire_capture. rewrite bind_run. unfold attr_buflist.
    destruct (buflist s) as [[| b bl] |]; [| eexists; reflexivity ..].
    cbn [for_each]. rewrite bind_run. cbn [mret M_ret ret].
    unfold AlazarTech_ATS.ret at 1. rewrite bind_run.
    unfold dll_call at 1. cbv zeta. rewrite bind_run. unfold check at 1.
    unfold lift at 1.
    destruct (_result_handler _ "AlazarStartCapture") as [e | []];
      eexists; reflexivity.
  - rewrite acquire_capture_run.
    destruct (buflist s) as [[| b bl] |]; [| eexists; reflexivity ..].
    cbv zeta.
    destruct (_result_handler _ "AlazarStartCapture") as [e | ?];
      eexists; reflexivity.
Qed.

Lemma never_returns_bind {A B} (m : M A) (f : A -> M B) s :
  (forall a s', exists e, fst (f a s') = inl e) ->
  exists e, fst ((m ≫= f) s) = inl e.
Proof.
  intros Hf. rewrite bind_run. destruct (m s) as [[e | a] s'].
  - eexists. reflexivity.
  - apply Hf.
Qed.

Theorem acquire_always_raises dll fuel a s :
  exists e, fst (acquire dll fuel a s) = inl e.
Proof.
  unfold acquire.
  do 7 (apply never_returns_bind; intros ? ?).
  apply acquire_capture_raises.
Qed.

Lemma calls_app tr1 tr2 :
  calls (tr1 ++ tr2) = (calls tr1 ++ calls tr2)%list.
Proof. apply omap_app. Qed.

(** C1 on the code. The capture phase of [acquire], with fuel for at least
    one evaluation of the loop condition: without [buflist] it raises at
    once; with a buffer in it, posting raises on [buf.size_bytes]; with an
    empty list the capture is started and, if that succeeds, the loop
    condition raises [NameError].  No wait, no repost and no closing abort
    is ever issued. *)
Theorem capture_loop_raises_before_first_wait dll fuel s :
  let r := acquire_capture dll (S fuel) s in
  exists new,
    trace (snd r) = (trace s ++ new)%list
    /\ Forall (is_call "AlazarStartCapture") new
    /\ (List.length new <= 1)%nat
    /\ (exists e, fst r = inl e)
    /\ (buflist s = Some [] ->
        return_code (dll (trace s) (Call "AlazarStartCapture" [])) = 512 ->
        new = [EvCall (Call "AlazarStartCapture" []) 512]
        /\ fst r = inl (NameError "name 'BuffersCompleted' is not defined")).
Proof.
  intros r. subst r. rewrite acquire_capture_run.
  destruct (buflist s) as [[| b bl] |]; cbv zeta.
  - destruct (_result_handler _ "AlazarStartCapture") as [e | []] eqn:Hrc.
    + eexists. split; [reflexivity |].
      split; [repeat constructor |]. split; [simpl; lia |].
      split; [eexists; reflexivity |].
      intros _ H512. rewrite H512 in Hrc. discriminate Hrc.
    + eexists. split; [reflexivity |].
      split; [repeat constructor |]. split; [simpl; lia |].
      split; [eexists; reflexivity |].
      intros _ H512. rewrite H512. split; reflexivity.
  - exists []. rewrite app_nil_r. split; [reflexivity |].
    split; [constructor |]. split; [simpl; lia |].
    split; [eexists; reflexivity |]. intros [=].
  - exists []. rewrite app_nil_r. split; [reflexivity |].
    split; [constructor |]. split; [simpl; lia |].
    split; [eexists; reflexivity |]. intros [=].
Qed.

Lemma capture_loop_raises_before_first_wait_witness :
  exists new,
    trace (snd (acquire_capture Fixture.always_ok 1 Fixture.npt_board))
    = (trace Fixture.npt_board ++ new)%list
    /\ new = [EvCall (Call "AlazarStartCapture" []) 512]
    /\ fst (acquire_capture Fixture.always_ok 1 Fixture.npt_board)
       = inl (NameError "name 'BuffersCompleted' is not defined").
Proof.
  destruct (capture_loop_raises_before_first_wait
              Fixture.always_ok 0 Fixture.npt_board)
    as (new & Htr & _ & _ & _ & H).
  exists new. split; [exact Htr |].
  apply H; reflexivity.
Defined.

(** [acquire] on the NPT board of the test objects, with a library that
    accepts every call: the loop condition raises, and the closing abort is
    missing from the calls made. *)
Lemma acquire_npt_board_run :
  let r := acquire Fixture.always_ok 10 Fixture.no_args Fixture.npt_board in
  fst r = inl (NameError "name 'BuffersCompleted' is not defined")
  /\ calls (trace (snd r))
     = [(Call "AlazarAbortAsyncRead" [], 512);
        (Call "AlazarGetChannelInfo" [], 512);
        (Call "AlazarSetRecordSize" [Some 0; Some 1024], 512);
        (Call "AlazarBeforeAsyncRead"
           [Some 3; Some 0; Some 1024; Some 4; Some 40; Some 512], 512);
        (Call "AlazarStartCapture" [], 512)]
  /\ samples_per_buffer (snd r) = 4096.
Proof. vm_compute. repeat split. Qed.

Lemma acquire_mode_outside_domain dll fuel a s p :
  mode a <> PNone ->
  parameters s !! "mode" = Some p ->
  AlazarParameter._value_to_byte_dict p !! mode a = None ->
  acquire dll fuel a s
  = (inl (KeyError (AlazarParameter.unknown_setting_msg (mode a)
                      (AlazarParameter.name p))), s).
Proof.
  intros Hmode Hp Hv. unfold acquire, acquire_set_args.
  rewrite !bind_run.
  assert (Hset : if_given (mode a) (param_set "mode") s
                 = (inl (KeyError (AlazarParameter.unknown_setting_msg (mode a)
                                     (AlazarParameter.name p))), s)).
  { pose proof (param_set_rejects "mode" (mode a) s p Hp Hv) as H.
    destruct (mode a); [congruence | exact H | exact H]. }
  rewrite Hset. reflexivity.
Qed.

(** C2 as the code has it by design. A call of [acquire] with a mode
    argument other than NPT and TS raises, and no call to the library is
    made before it does; when the value is outside the domain of the field
    [mode], the exception is the [KeyError] of [_set] and the instrument is
    left as it was. *)
Theorem acquire_unsupported_mode_fails_early dll fuel a s :
  mode a <> PNone -> mode a <> PStr "NPT" -> mode a <> PStr "TS" ->
  let r := acquire dll fuel a s in
  (exists e, fst r = inl e)
  /\ trace (snd r) = trace s
  /\ (forall p, parameters s !! "mode" = Some p ->
        AlazarParameter._value_to_byte_dict p !! mode a = None ->
        r = (inl (KeyError (AlazarParameter.unknown_setting_msg (mode a)
                              (AlazarParameter.name p))), s)).
Proof.
  intros Hmode _ _ r.
  destruct (acquire_mode_given_cases dll fuel a s Hmode) as (Htr & Herr & _).
  split; [| split; [exact Htr |]].
  - destruct Herr as [[m Hm] | Hm]; eauto.
  - intros p Hp Hv. apply acquire_mode_outside_domain; assumption.
Qed.

Lemma acquire_unsupported_mode_fails_early_witness :
  (exists e, fst (acquire Fixture.always_ok 10 (Fixture.with_mode (PStr "CS"))
                    Fixture.npt_board) = inl e)
  /\ trace (snd (acquire Fixture.always_ok 10 (Fixture.with_mode (PStr "CS"))
                   Fixture.npt_board)) = trace Fixture.npt_board.
Proof.
  destruct (acquire_unsupported_mode_fails_early Fixture.always_ok 10
              (Fixture.with_mode (PStr "CS")) Fixture.npt_board)
    as (Herr & Htr & _).
  - simpl. discriminate.
  - simpl. discriminate.
  - simpl. discriminate.
  - split; [exact Herr | exact Htr].
Defined.

(** C2 as stated fails: a mode outside the domain of the field is rejected
    by [_set] with [KeyError], not with the exception for unsupported
    modes. *)
Lemma acquire_unsupported_mode_counterexample :
  fst (acquire Fixture.always_ok 10 (Fixture.with_mode (PStr "XX"))
         Fixture.npt_board)
  = inl (KeyError (AlazarParameter.unknown_setting_msg (PStr "XX") "mode"))
  /\ fst (acquire Fixture.always_ok 10 (Fixture.with_mode (PStr "XX"))
            Fixture.npt_board)
     <> inl (Exception unsupported_mode_msg).
Proof. split; [vm_compute; reflexivity | vm_compute; discriminate]. Qed.

(** The same call with each kind of mode: a mode of the field that is not
    supported, a supported mode, and a value outside the field. *)
Lemma acquire_mode_given_runs :
  fst (acquire Fixture.always_ok 10 (Fixture.with_mode (PStr "CS"))
         Fixture.npt_board)
  = inl (Exception AlazarParameter.stale_msg)
  /\ fst (acquire Fixture.always_ok 10 (Fixture.with_mode (PStr "NPT"))
            Fixture.npt_board)
     = inl (Exception AlazarParameter.stale_msg)
  /\ fst (acquire Fixture.always_ok 10 (Fixture.with_mode (PStr "XX"))
            Fixture.npt_board)
     = inl (KeyError (AlazarParameter.unknown_setting_msg (PStr "XX") "mode")).
Proof. vm_compute. repeat split. Qed.

(** ** acquire: TS mode *)

Lemma calls_snoc_get_byte tr nm : calls (tr ++ [EvGetByte nm]) = calls tr.
Proof. rewrite calls_app. apply app_nil_r. Qed.

Lemma calls_snoc_set_updated tr nm : calls (tr ++ [EvSetUpdated nm]) = calls tr.
Proof. rewrite calls_app. apply app_nil_r. Qed.

Ltac st_simpl :=
  cbn [parameters trace warnings samples_per_buffer number_of_channels
       buflist waittimeout _handle
       with_trace with_parameters with_warnings
       with_samples_per_buffer with_number_of_channels].

Lemma wp_snd {A} (m : M A) (F : exc -> t -> Prop) s :
  wp m (fun _ _ => False) F s ->
  exists e, fst (m s) = inl e /\ F e (snd (m s)).
Proof.
  unfold wp. destruct (m s) as [[e | a] s']; [eauto | contradiction].
Qed.

(** C4 on the code. In TS mode the geometry step of [acquire] always raises:
    [TypeError] at line 240, where the remainder is taken by the parameter
    object [buffers_per_acquisition] instead of its code (or [KeyError] when
    a field is missing).  No call reaches the library, no warning is
    logged, [samples_per_buffer] is not computed and [records_per_buffer]
    is not overridden. *)
Theorem ts_geometry_raises_type_error dll flags s p :
  parameters s !! "mode" = Some p ->
  AlazarParameter.get p = inr (PStr "TS") ->
  let r := acquire_before_async_read dll flags s in
  (fst r = inl (TypeError
             "unsupported operand type(s) for %: 'int' and 'AlazarParameter'")
   \/ exists m, fst r = inl (KeyError m))
  /\ calls (trace (snd r)) = calls (trace s)
  /\ warnings (snd r) = warnings s
  /\ samples_per_buffer (snd r) = samples_per_buffer s
  /\ parameters (snd r) = parameters s.
Proof.
  intros Hp Hget r. subst r.
  destruct (wp_snd (acquire_before_async_read dll flags)
     (fun e s' =>
        (e = TypeError
               "unsupported operand type(s) for %: 'int' and 'AlazarParameter'"
         \/ is_KeyError e)
        /\ calls (trace s') = calls (trace s)
        /\ warnings s' = warnings s
        /\ samples_per_buffer s' = samples_per_buffer s
        /\ parameters s' = parameters s) s) as (e & He & Herr & Hrest).
  - unfold acquire_before_async_read.
    rewrite wp_bind, wp_param_get, Hp, Hget.
    change (py_eq (PStr "TS") (PStr "NPT")) with false. cbv iota.
    rewrite wp_bind, wp_param_get, Hp, Hget.
    change (py_eq (PStr "TS") (PStr "TS")) with true. cbv iota.
    rewrite wp_bind, wp_get_byte.
    destruct (parameters s !! "samples_per_record") as [q |];
      [| split; [right; eexists; reflexivity | repeat split]].
    rewrite wp_bind, wp_param. st_simpl.
    destruct (parameters s !! "buffers_per_acquisition") as [q' |];
      st_simpl; rewrite ?calls_snoc_get_byte;
      [| split; [right; eexists; reflexivity | repeat split]].
    rewrite wp_bind, wp_lift. unfold py_mod_param. st_simpl.
    rewrite calls_snoc_get_byte.
    split; [left; reflexivity | repeat split].
  - rewrite He. split; [| exact Hrest].
    destruct Herr as [-> | [m ->]]; [left; reflexivity | right; eauto].
Qed.

Lemma ts_geometry_raises_type_error_witness :
  fst (acquire_before_async_read Fixture.always_ok (Some 0x400)
         Fixture.ts_board)
  = inl (TypeError
           "unsupported operand type(s) for %: 'int' and 'AlazarParameter'")
  /\ warnings (snd (acquire_before_async_read Fixture.always_ok (Some 0x400)
                      Fixture.ts_board)) = []
  /\ samples_per_buffer
       (snd (acquire_before_async_read Fixture.always_ok (Some 0x400)
               Fixture.ts_board)) = 0.
Proof.
  destruct (ts_geometry_raises_type_error Fixture.always_ok (Some 0x400)
              Fixture.ts_board
              (Fixture.field "mode" Fixture.mode_table (Some 0x400) true))
    as (_ & _ & Hw & Hspb & _).
  - vm_compute. reflexivity.
  - vm_compute. reflexivity.
  - split; [vm_compute; reflexivity |]. split; [exact Hw | exact Hspb].
Defined.

(** [acquire] on the TS board of the test objects: 1000 samples per record
    and 3 buffers give neither 333 nor a warning, but [TypeError]. *)
Lemma acquire_ts_board_run :
  let r := acquire Fixture.always_ok 10 Fixture.no_args Fixture.ts_board in
  fst r = inl (TypeError
                 "unsupported operand type(s) for %: 'int' and 'AlazarParameter'")
  /\ calls (trace (snd r))
     = [(Call "AlazarAbortAsyncRead" [], 512);
        (Call "AlazarGetChannelInfo" [], 512)]
  /\ warnings (snd r) = []
  /\ samples_per_buffer (snd r) = 0.
Proof. vm_compute. repeat split. Qed.

(** ** acquire: NPT mode *)

Section Geometry.

Variable dll : driver.
Variable st1 : t.

Lemma inv_fin b s : geometry_inv st1 b s -> some_geometry_inv st1 s.
Proof. intros H. exists b. exact H. Qed.

Lemma inv_event b s e :
  geometry_inv st1 b s -> geometry_args st1 e -> ~ is_call "AlazarBeforeAsyncRead" e ->
  geometry_inv st1 b (with_trace (trace s ++ [e]) s).
Proof.
  intros (Hc & new & Htr & Hnew & Hb) He Hne. split; [exact Hc |].
  exists (new ++ [e])%list. st_simpl. rewrite Htr, app_assoc.
  split; [reflexivity |]. split.
  - apply Forall_app. split; [exact Hnew | repeat constructor; exact He].
  - destruct b; [exact Hb |].
    apply Forall_app. split; [exact Hb | repeat constructor; exact Hne].
Qed.

Lemma inv_commit b s nm p :
  geometry_inv st1 b s -> parameters s !! nm = Some p ->
  geometry_inv st1 b (with_parameters
           (<[nm := AlazarParameter._set_updated p]> (parameters s)) s).
Proof.
  intros (Hc & Hrest) Hp. split; [| exact Hrest].
  intros nm'. rewrite <- Hc. unfold code. st_simpl.
  destruct (decide (nm = nm')) as [<- | Hne].
  - rewrite lookup_insert_eq, Hp. reflexivity.
  - rewrite lookup_insert_ne by exact Hne. reflexivity.
Qed.

Lemma inv_byte b s nm p :
  geometry_inv st1 b s -> parameters s !! nm = Some p ->
  AlazarParameter._byte p = code st1 nm.
Proof.
  intros (Hc & _) Hp. rewrite <- Hc. unfold code. rewrite Hp. reflexivity.
Qed.

Lemma keeps_get_byte b nm s :
  geometry_inv st1 b s ->
  wp (get_byte nm) (fun v s' => geometry_inv st1 b s' /\ v = code st1 nm) (fun _ : exc => some_geometry_inv st1) s.
Proof.
  intros H. rewrite wp_get_byte.
  destruct (parameters s !! nm) as [p |] eqn:Hp; [| eapply inv_fin, H].
  split; [| eapply inv_byte; eassumption].
  apply inv_event; [exact H | exact I | intros []].
Qed.

Lemma keeps_set_updated b nm s :
  geometry_inv st1 b s -> wp (set_updated nm) (fun _ => geometry_inv st1 b) (fun _ : exc => some_geometry_inv st1) s.
Proof.
  intros H. rewrite wp_set_updated.
  destruct (parameters s !! nm) as [p |] eqn:Hp; [| eapply inv_fin, H].
  apply (inv_event b (with_parameters _ s)); [| exact I | intros []].
  apply inv_commit; assumption.
Qed.

Lemma keeps_param_get b nm s :
  geometry_inv st1 b s -> wp (param_get nm) (fun _ => geometry_inv st1 b) (fun _ : exc => some_geometry_inv st1) s.
Proof.
  intros H. rewrite wp_param_get.
  destruct (parameters s !! nm) as [p |]; [| eapply inv_fin, H].
  destruct (AlazarParameter.get p); [eapply inv_fin, H | exact H].
Qed.

Lemma keeps_param b nm s :
  geometry_inv st1 b s -> wp (param nm) (fun _ => geometry_inv st1 b) (fun _ : exc => some_geometry_inv st1) s.
Proof.
  intros H. rewrite wp_param.
  destruct (parameters s !! nm) as [p |]; [exact H | eapply inv_fin, H].
Qed.

Lemma keeps_check b rc src s :
  geometry_inv st1 b s -> wp (check rc src) (fun _ => geometry_inv st1 b) (fun _ : exc => some_geometry_inv st1) s.
Proof.
  intros H. rewrite wp_check.
  destruct (_result_handler rc src); [eapply inv_fin, H | exact H].
Qed.

Lemma keeps_lift {A} b (r : res A) s :
  geometry_inv st1 b s -> wp (lift r) (fun _ => geometry_inv st1 b) (fun _ : exc => some_geometry_inv st1) s.
Proof.
  intros H. rewrite wp_lift. destruct r; [eapply inv_fin, H | exact H].
Qed.

Lemma keeps_call_other b f a s :
  f <> "AlazarSetRecordSize" -> f <> "AlazarBeforeAsyncRead" ->
  geometry_inv st1 b s -> wp (dll_call dll f a) (fun _ => geometry_inv st1 b) (fun _ : exc => some_geometry_inv st1) s.
Proof.
  intros Hf1 Hf2 H. rewrite wp_dll_call.
  apply inv_event; [exact H | | exact Hf2].
  split; intros Hf; cbn in Hf; congruence.
Qed.

Lemma inv_locals b s n :
  geometry_inv st1 b s -> geometry_inv st1 b (with_number_of_channels n s).
Proof. intros H. exact H. Qed.

Lemma inv_warning b s ws :
  geometry_inv st1 b s -> geometry_inv st1 b (with_warnings ws s).
Proof. intros H. exact H. Qed.

Lemma inv_samples_per_buffer s n :
  geometry_inv st1 false s -> geometry_inv st1 false (with_samples_per_buffer n s).
Proof. intros H. exact H. Qed.


Ltac keep H :=
  first
    [ apply keeps_get_byte; exact H
    | apply keeps_set_updated; exact H
    | apply keeps_param_get; exact H
    | apply keeps_param; exact H
    | apply keeps_check; exact H
    | apply keeps_lift; exact H
    | apply keeps_call_other; [discriminate | discriminate | exact H] ].

(** One step of a sequence: the head keeps the invariant [H], the rest
    goes on from the state it leaves. *)
Ltac keep_bind H v s' H' :=
  rewrite wp_bind;
  eapply wp_mono; [ | | keep H ];
  [ intros v s' H' | intros ? ? HE; exact HE ].

Lemma check_mode_keeps b s :
  geometry_inv st1 b s -> wp acquire_check_mode (fun _ => geometry_inv st1 b) (fun _ : exc => some_geometry_inv st1) s.
Proof.
  intros H. unfold acquire_check_mode.
  keep_bind H m s1 H1.
  rewrite wp_bind.
  eapply wp_mono with (Q := fun _ => geometry_inv st1 b) (E := (fun _ : exc => some_geometry_inv st1)).
  - intros ok s2 H2. destruct ok; [exact H2 | eapply inv_fin, H2].
  - intros e s2 H2. exact H2.
  - destruct (py_eq m (PStr "TS")); [exact H1 |].
    keep_bind H1 m' s2 H2. exact H2.
Qed.

Lemma channel_info_keeps b s :
  geometry_inv st1 b s -> wp (acquire_channel_info dll) (fun _ => geometry_inv st1 b) (fun _ : exc => some_geometry_inv st1) s.
Proof.
  intros H. unfold acquire_channel_info.
  keep_bind H r s1 H1. keep_bind H1 u s2 H2.
  keep_bind H2 r' s3 H3. keep_bind H3 u' s4 H4.
  cbv zeta. case_bool_decide; [exact H4 | eapply inv_fin, H4].
Qed.

Lemma record_size_keeps s :
  geometry_inv st1 false s -> wp (acquire_record_size dll) (fun _ => geometry_inv st1 false) (fun _ : exc => some_geometry_inv st1) s.
Proof.
  intros H. unfold acquire_record_size.
  keep_bind H m s1 H1.
  destruct (py_eq m (PStr "NPT")); [| exact H1].
  cbv zeta. keep_bind H1 post s2 H2. destruct H2 as [H2 ->].
  rewrite wp_bind, wp_dll_call.
  apply keeps_check. apply inv_event; [exact H2 | | intros [=]].
  split; [intros _; reflexivity | intros [=]].
Qed.

Ltac keep_next :=
  lazymatch goal with
  | |- wp (mbind _ _) _ _ ?s =>
      match goal with
      | H : geometry_inv _ _ s |- _ =>
          rewrite wp_bind;
          eapply wp_mono; [ | | keep H ];
          [ intros ? ? ? | intros ? ? HE; exact HE ]
      end
  | |- wp _ _ _ ?s =>
      match goal with
      | H : geometry_inv _ _ s |- _ => keep H
      end
  end;
  cbv beta in *;
  repeat match goal with
         | H : geometry_inv _ _ _ /\ _ |- _ => destruct H as [H ?]
         end.

Lemma flags_keeps s :
  geometry_inv st1 false s -> wp acquire_flags (fun _ => geometry_inv st1 false) (fun _ : exc => some_geometry_inv st1) s.
Proof.
  intros H. unfold acquire_flags.
  keep_next.
  rewrite wp_bind, wp_assign_number_of_channels.
  rewrite wp_bind, wp_assign_samples_per_buffer.
  match goal with
  | |- wp _ _ _ ?s2 =>
      assert (H2 : geometry_inv st1 false s2)
        by (apply inv_samples_per_buffer, inv_locals; assumption);
      revert H2; generalize s2; intros s2' H2
  end.
  do 12 keep_next. keep_next.
Qed.

Lemma inv_arm s spr rpb :
  geometry_inv st1 false s ->
  code st1 "samples_per_record" = Some spr ->
  code st1 "records_per_buffer" = Some rpb ->
  samples_per_buffer s = spr * rpb ->
  forall e, geometry_args st1 e ->
  geometry_inv st1 true (with_trace (trace s ++ [e]) s).
Proof.
  intros (Hc & new & Htr & Hnew & _) Hspr Hrpb Hspb e He.
  split; [exact Hc |].
  exists (new ++ [e])%list. st_simpl. rewrite Htr, app_assoc.
  split; [reflexivity |]. split.
  - apply Forall_app. split; [exact Hnew | repeat constructor; exact He].
  - exists spr, rpb. auto.
Qed.

Lemma py_mul_inr a b z :
  py_mul a b = inr z -> exists x y, a = Some x /\ b = Some y /\ z = x * y.
Proof.
  destruct a as [x |], b as [y |]; simpl; try discriminate.
  intros [= <-]. eauto.
Qed.

Lemma before_async_read_keeps flags s :
  geometry_inv st1 false s ->
  wp (acquire_before_async_read dll flags)
     (fun _ => some_geometry_inv st1) (fun _ : exc => some_geometry_inv st1) s.
Proof.
  intros H. unfold acquire_before_async_read.
  keep_bind H m s1 H1. destruct (py_eq m (PStr "NPT")).
  - keep_bind H1 vspr s2 H2. destruct H2 as [H2 ->].
    keep_bind H2 vrpb s3 H3. destruct H3 as [H3 ->].
    keep_bind H3 vbpa s4 H4. destruct H4 as [H4 ->].
    rewrite wp_bind, wp_lift.
    destruct (py_mul _ _) as [e | rpa] eqn:Hrpa; [eapply inv_fin, H4 |].
    rewrite wp_bind, wp_lift.
    destruct (py_mul (code st1 "samples_per_record") _) as [e | spb] eqn:Hspb;
      [eapply inv_fin, H4 |].
    apply py_mul_inr in Hrpa as (rpb & bpa & Hrpb & Hbpa & ->).
    apply py_mul_inr in Hspb as (spr & rpb' & Hspr & Hrpb' & ->).
    rewrite Hrpb in Hrpb'. injection Hrpb' as <-.
    rewrite wp_bind, wp_assign_samples_per_buffer.
    apply (inv_samples_per_buffer _ (spr * rpb)) in H4.
    rewrite wp_bind, wp_get_byte. st_simpl.
    destruct (parameters s4 !! "channel_selection") as [pc |] eqn:Hpc;
      [| eapply inv_fin, H4].
    pose proof (inv_byte _ _ _ _ H4 Hpc) as Hbc.
    apply (inv_event _ _ (EvGetByte "channel_selection")) in H4;
      [| exact I | intros []].
    rewrite wp_bind, wp_get_byte. st_simpl.
    destruct (parameters s4 !! "transfer_offset") as [po |] eqn:Hpo;
      [| eapply inv_fin, H4].
    pose proof (inv_byte _ _ _ _ H4 Hpo) as Hbo.
    apply (inv_event _ _ (EvGetByte "transfer_offset")) in H4;
      [| exact I | intros []].
    rewrite wp_bind, wp_dll_call.
    match goal with
    | |- wp _ _ _ (with_trace (_ ++ [?e]) ?s5) =>
        assert (H5 : geometry_inv st1 true (with_trace (trace s5 ++ [e]) s5))
    end.
    { apply (inv_arm _ spr rpb); [exact H4 | exact Hspr | exact Hrpb
                                  | reflexivity |].
      split; [intros [=] |]. intros _.
      exists spr, rpb, bpa, flags. rewrite Hbc, Hbo, Hspr, Hrpb.
      repeat split; assumption. }
    revert H5. st_simpl. intros H5.
    rewrite wp_check.
    destruct (_result_handler _ _); eapply inv_fin, H5.
  - keep_bind H1 m' s2 H2. destruct (py_eq m' (PStr "TS")).
    + keep_bind H2 vspr s3 H3. destruct H3 as [H3 _].
      keep_bind H3 p s4 H4.
      rewrite wp_bind, wp_lift. unfold py_mod_param. eapply inv_fin, H4.
    + eapply inv_fin, H2.
Qed.

Lemma commit_keeps b s :
  geometry_inv st1 b s -> wp acquire_commit (fun _ => geometry_inv st1 b) (fun _ : exc => some_geometry_inv st1) s.
Proof.
  intros H. unfold acquire_commit. do 11 keep_next. keep_next.
Qed.

Lemma acquire_capture_state fuel s :
  exists tr,
    snd (acquire_capture dll fuel s) = with_trace tr s
    /\ (tr = trace s
        \/ exists rc,
             tr = (trace s ++ [EvCall (Call "AlazarStartCapture" []) rc])%list).
Proof.
  assert (Hs : s = with_trace (trace s) s) by (destruct s; reflexivity).
  destruct fuel as [| fuel].
  - unfold acquire_capture. rewrite bind_run. unfold attr_buflist.
    destruct (buflist s) as [[| b bl] |];
      [| exists (trace s); split; [exact Hs | left; reflexivity] ..].
    cbn [for_each]. rewrite bind_run. cbn [mret M_ret ret].
    unfold AlazarTech_ATS.ret at 1. rewrite bind_run.
    unfold dll_call at 1. cbv zeta. rewrite bind_run. unfold check at 1.
    unfold lift at 1.
    destruct (_result_handler _ "AlazarStartCapture") as [e | []];
      eexists; (split; [reflexivity | right; eexists; reflexivity]).
  - rewrite acquire_capture_run.
    destruct (buflist s) as [[| b bl] |];
      [| exists (trace s); split; [exact Hs | left; reflexivity] ..].
    cbv zeta.
    destruct (_result_handler _ "AlazarStartCapture") as [e | ?];
      eexists; (split; [reflexivity | right; eexists; reflexivity]).
Qed.

Lemma capture_keeps b fuel s :
  geometry_inv st1 b s -> some_geometry_inv st1 (snd (acquire_capture dll fuel s)).
Proof.
  intros H.
  destruct (acquire_capture_state fuel s) as (tr & Hsnd & Htr).
  rewrite Hsnd. destruct Htr as [Htr | [rc Htr]]; rewrite Htr.
  - exists b. exact H.
  - exists b. apply inv_event; [exact H | | intros [=]].
    split; intros [=].
Qed.

Lemma acquire_body_keeps fuel s :
  geometry_inv st1 false s ->
  some_geometry_inv st1
    (snd ((acquire_check_mode;;
           acquire_channel_info dll;;
           acquire_record_size dll;;
           flags ← acquire_flags;
           acquire_before_async_read dll flags;;
           acquire_commit;;
           acquire_capture dll fuel) s)).
Proof.
  intros H. apply (proj1 (wp_final _ (some_geometry_inv st1) s)).
  rewrite wp_bind.
  eapply wp_mono; [ | | apply check_mode_keeps, H ]; [| intros ? ? HE; exact HE].
  intros ? s1 H1. rewrite wp_bind.
  eapply wp_mono; [ | | apply channel_info_keeps, H1 ]; [| intros ? ? HE; exact HE].
  intros ? s2 H2. rewrite wp_bind.
  eapply wp_mono; [ | | apply record_size_keeps, H2 ]; [| intros ? ? HE; exact HE].
  intros ? s3 H3. rewrite wp_bind.
  eapply wp_mono; [ | | apply flags_keeps, H3 ]; [| intros ? ? HE; exact HE].
  intros flags s4 H4. rewrite wp_bind.
  eapply wp_mono; [ | | apply before_async_read_keeps, H4 ];
    [| intros ? ? HE; exact HE].
  intros ? s5 [b H5]. rewrite wp_bind.
  eapply wp_mono; [ | | apply commit_keeps, H5 ]; [| intros ? ? HE; exact HE].
  intros ? s6 H6. apply wp_final. eapply capture_keeps, H6.
Qed.

End Geometry.

Lemma geometry_inv_init st1 : geometry_inv st1 false st1.
Proof.
  split; [reflexivity |]. exists []. rewrite app_nil_r.
  split; [reflexivity |]. split; constructor.
Qed.

Lemma geometry_inv_npt_call st1 sf :
  some_geometry_inv st1 sf ->
  exists new, trace sf = (trace st1 ++ new)%list
              /\ Forall (npt_call st1 sf) new.
Proof.
  intros (b & _ & new & Htr & Hnew & Hb). exists new. split; [exact Htr |].
  rewrite Forall_forall in Hnew |- *. intros e He.
  specialize (Hnew e He). destruct e as [c rc | |]; [| exact I ..].
  destruct Hnew as [Hsrs Hbar]. split; [exact Hsrs |].
  intros Hfn. destruct (Hbar Hfn) as (spr & rpb & bpa & flags & Hspr & Hrpb
                                       & Hbpa & Hargs).
  exists spr, rpb, bpa, flags. repeat split; try assumption.
  destruct b.
  - destruct Hb as (spr' & rpb' & Hspr' & Hrpb' & Hspb). congruence.
  - rewrite Forall_forall in Hb. exfalso. apply (Hb _ He). exact Hfn.
Qed.

(** Every call that a run of [acquire] makes has the NPT geometry:
    [AlazarSetRecordSize] receives pretrigger size 0 and the code of
    [samples_per_record]; [AlazarBeforeAsyncRead] receives the codes of
    [samples_per_record] and [records_per_buffer] and their
    [records_per_buffer * buffers_per_acquisition]; and once that call is
    made the buffer size [samples_per_buffer] is
    [samples_per_record * records_per_buffer]. *)
Lemma acquire_calls_npt_geometry dll fuel a st :
  let st1 := snd (acquire_set_args a st) in
  let sf := snd (acquire dll fuel a st) in
  exists new, trace sf = (trace st ++ new)%list
              /\ Forall (npt_call st1 sf) new.
Proof.
  intros st1 sf. rewrite <- (acquire_set_args_trace a st).
  apply geometry_inv_npt_call. subst st1 sf. unfold acquire.
  rewrite bind_run.
  destruct (acquire_set_args a st) as [[e | []] s1]; cbn [snd].
  - exists false. apply geometry_inv_init.
  - apply acquire_body_keeps, geometry_inv_init.
Qed.

(** ** The monitor *)

Lemma monitor_run_app m tr1 tr2 :
  monitor_run m (tr1 ++ tr2)
  = monitor_run m tr1 ≫= fun m' => monitor_run m' tr2.
Proof.
  revert m. induction tr1 as [| e tr1 IH]; intros m; [reflexivity |].
  cbn [app monitor_run]. destruct (monitor_step m e); [apply IH | reflexivity].
Qed.

Lemma monitor_run_snoc m tr e m' :
  monitor_run m tr = Some m' ->
  monitor_run m (tr ++ [e]) = monitor_step m' e.
Proof.
  intros H. rewrite monitor_run_app, H. cbn.
  destruct (monitor_step m' e); reflexivity.
Qed.

Lemma monitor_run_snoc_inv m tr e m2 :
  monitor_run m (tr ++ [e]) = Some m2 ->
  exists m1, monitor_run m tr = Some m1 /\ monitor_step m1 e = Some m2.
Proof.
  rewrite monitor_run_app.
  destruct (monitor_run m tr) as [m1 |]; [| discriminate].
  cbn. destruct (monitor_step m1 e) as [m2' |] eqn:Hs; [| discriminate].
  intros [= <-]. eauto.
Qed.

Lemma monitor_stopped_run m tr m' :
  stopped m = true -> monitor_run m tr = Some m' -> tr = [] /\ m' = m.
Proof.
  intros Hs. destruct tr as [| e tr]; cbn.
  - intros [= <-]. auto.
  - unfold monitor_step. rewrite Hs. discriminate.
Qed.

Lemma monitor_step_not_stopped m e m' :
  monitor_step m e = Some m' -> stopped m = false.
Proof.
  unfold monitor_step. destruct (stopped m); [discriminate | reflexivity].
Qed.

(** A failed call is the last event of an accepted history. *)
Lemma monitor_failed_call_last m tr m' c rc :
  monitor_run m tr = Some m' -> EvCall c rc ∈ tr -> rc <> _succes ->
  stopped m' = true /\ last tr = Some (EvCall c rc).
Proof.
  revert m. induction tr as [| e tr IH]; intros m Hrun Hin Hrc.
  - apply elem_of_nil in Hin. contradiction.
  - cbn in Hrun. destruct (monitor_step m e) as [m1 |] eqn:Hstep;
      [| discriminate].
    apply elem_of_cons in Hin as [<- | Hin].
    + unfold monitor_step in Hstep. destruct (stopped m); [discriminate |].
      rewrite bool_decide_eq_false_2 in Hstep by exact Hrc.
      injection Hstep as <-.
      apply monitor_stopped_run in Hrun as [-> ->]; [| reflexivity].
      split; reflexivity.
    + destruct (IH m1 Hrun Hin Hrc) as [Hs Hl]. split; [exact Hs |].
      destruct tr as [| e' tr]; [apply elem_of_nil in Hin; contradiction |].
      exact Hl.
Qed.

(** What the state of the monitor records about an accepted history. *)
Lemma monitor_run_sound tr m :
  monitor_run monitor_init tr = Some m ->
  (pending m = [] \/ allowed m = [])
  /\ (forall nm, nm ∈ pending m ->
        exists a reads, tr = (a ++ EvGetByte nm :: reads)%list
                        /\ Forall is_read reads)
  /\ (forall nm, nm ∈ allowed m -> justified tr nm).
Proof.
  revert m. induction tr as [| e tr IH] using rev_ind; intros m Hrun.
  - injection Hrun as <-. cbn. split; [left; reflexivity |].
    split; intros nm Hnm; apply elem_of_nil in Hnm; contradiction.
  - apply monitor_run_snoc_inv in Hrun as (m1 & Hrun & Hstep).
    destruct (IH m1 Hrun) as (Hor & Hpend & Hall).
    unfold monitor_step in Hstep. destruct (stopped m1); [discriminate |].
    destruct e as [c rc | n | n].
    + case_bool_decide as Hrc; injection Hstep as <-; cbn.
      * split; [left; reflexivity |].
        split; [intros nm Hnm; apply elem_of_nil in Hnm; contradiction |].
        intros nm Hnm. destruct (Hpend nm Hnm) as (a & reads & -> & Hreads).
        exists a, reads, c, []. rewrite Hrc, <- app_assoc.
        split; [reflexivity |]. split; [exact Hreads | constructor].
      * split; [left; reflexivity |].
        split; intros nm Hnm; apply elem_of_nil in Hnm; contradiction.
    + injection Hstep as <-. cbn. split; [right; reflexivity |]. split.
      * intros nm Hnm. apply elem_of_cons in Hnm as [-> | Hnm].
        -- exists tr, []. split; [reflexivity | constructor].
        -- destruct (Hpend nm Hnm) as (a & reads & -> & Hreads).
           exists a, (reads ++ [EvGetByte n])%list. rewrite <- app_assoc.
           split; [reflexivity |].
           apply Forall_app. split; [exact Hreads | repeat constructor].
      * intros nm Hnm. apply elem_of_nil in Hnm. contradiction.
    + case_bool_decide as Hn; [| discriminate]. injection Hstep as <-.
      assert (Hp : pending m1 = []).
      { destruct Hor as [Hp | Ha]; [exact Hp |].
        rewrite Ha in Hn. apply elem_of_nil in Hn. contradiction. }
      split; [left; exact Hp |]. split.
      * intros nm Hnm. rewrite Hp in Hnm. apply elem_of_nil in Hnm.
        contradiction.
      * intros nm Hnm.
        destruct (Hall nm Hnm) as (a & reads & c & commits & -> & Hr & Hc).
        exists a, reads, c, (commits ++ [EvSetUpdated n])%list.
        split; [| split; [exact Hr |]].
        -- rewrite <- !app_assoc. cbn. rewrite <- app_assoc. reflexivity.
        -- apply Forall_app. split; [exact Hc | repeat constructor].
Qed.

(** Every commit of an accepted history is justified. *)
Lemma commit_disciplined_justified tr pre nm post :
  commit_disciplined tr = true ->
  tr = (pre ++ EvSetUpdated nm :: post)%list ->
  justified pre nm.
Proof.
  unfold commit_disciplined. intros Hd ->.
  fold monitor_init in Hd.
  rewrite monitor_run_app in Hd.
  destruct (monitor_run monitor_init pre) as [m |] eqn:Hpre; [| discriminate].
  cbn in Hd. unfold monitor_step in Hd. destruct (stopped m); [discriminate |].
  case_bool_decide as Hn; [| discriminate].
  apply (monitor_run_sound pre m Hpre). exact Hn.
Qed.

(** ** config *)


Lemma set_channels_keeps (I : t -> Prop) prefix l s :
  (forall ps s', I s' -> I (with_parameters ps s')) ->
  I s -> wp (set_channels prefix l) (fun _ => I) (fun _ => I) s.
Proof.
  intros Hps HI. destruct l as [vs |]; [| exact HI].
  unfold set_channels. generalize 0. revert s HI.
  induction vs as [| v vs IH]; intros s HI i; [exact HI |].
  cbn [for_enumerate]. rewrite wp_bind.
  eapply wp_mono; [ | | apply (param_set_keeps I); assumption ].
  - intros ? s' Hs'. apply IH. exact Hs'.
  - intros ? ? HE. exact HE.
Qed.

Lemma config_set_args_keeps (I : t -> Prop) a s :
  (forall ps s', I s' -> I (with_parameters ps s')) ->
  I s -> I (snd (config_set_args a s)).
Proof.
  intros Hps HI. apply (proj1 (wp_final (config_set_args a) I s)).
  unfold config_set_args.
  wp_chain ltac:(first [ apply (if_given_set_keeps I); assumption
                       | apply (set_channels_keeps I); assumption ]).
Qed.

Lemma config_set_args_trace a s :
  trace (snd (config_set_args a s)) = trace s.
Proof.
  apply (config_set_args_keeps (fun s' => trace s' = trace s));
    [intros ps s' Hs'; exact Hs' | reflexivity].
Qed.

Section Commit.

Variable dll : driver.
Variable st1 : t.

Lemma commit_inv_init : commit_inv st1 monitor_init st1.
Proof.
  exists []. rewrite app_nil_r. split; [reflexivity |].
  split; [reflexivity |]. intros nm.
  rewrite bool_decide_eq_false_2; [reflexivity |]. apply not_elem_of_nil.
Qed.

Lemma set_updated_not_in_snoc nm (new : list event) e :
  ~ is_commit e ->
  bool_decide (EvSetUpdated nm ∈ (new ++ [e])%list)
  = bool_decide (EvSetUpdated nm ∈ new).
Proof.
  intros He. apply bool_decide_ext. rewrite elem_of_app, list_elem_of_singleton.
  split; [| tauto]. intros [H | Heq]; [exact H |]. subst e.
  destruct He. exact I.
Qed.

Lemma commit_inv_event m m' s e :
  commit_inv st1 m s -> monitor_step m e = Some m' -> ~ is_commit e ->
  commit_inv st1 m' (with_trace (trace s ++ [e]) s).
Proof.
  intros (new & Htr & Hrun & Hps) Hstep He.
  exists (new ++ [e])%list. st_simpl. rewrite Htr, app_assoc.
  split; [reflexivity |].
  split; [rewrite (monitor_run_snoc _ _ _ _ Hrun); exact Hstep |].
  intros nm. rewrite set_updated_not_in_snoc by exact He. apply Hps.
Qed.

Lemma set_updated_idem p :
  AlazarParameter._set_updated (AlazarParameter._set_updated p)
  = AlazarParameter._set_updated p.
Proof. reflexivity. Qed.

Lemma commit_inv_commit m s nm p :
  commit_inv st1 m s -> stopped m = false -> nm ∈ allowed m ->
  parameters s !! nm = Some p ->
  commit_inv st1 m
    (with_trace (trace s ++ [EvSetUpdated nm])
       (with_parameters
          (<[nm := AlazarParameter._set_updated p]> (parameters s)) s)).
Proof.
  intros (new & Htr & Hrun & Hps) Hs Hnm Hp.
  exists (new ++ [EvSetUpdated nm])%list. st_simpl. rewrite Htr, app_assoc.
  split; [reflexivity |]. split.
  - rewrite (monitor_run_snoc _ _ _ _ Hrun). unfold monitor_step.
    rewrite Hs. rewrite bool_decide_eq_true_2 by exact Hnm. reflexivity.
  - intros nm'. destruct (decide (nm = nm')) as [<- | Hne].
    + rewrite lookup_insert_eq.
      rewrite bool_decide_eq_true_2
        by (apply elem_of_app; right; apply list_elem_of_singleton; reflexivity).
      specialize (Hps nm). rewrite Hp in Hps.
      destruct (bool_decide (EvSetUpdated nm ∈ new));
        destruct (parameters st1 !! nm) as [p1 |]; try discriminate;
        injection Hps as ->; reflexivity.
    + rewrite lookup_insert_ne by exact Hne. rewrite Hps.
      apply (f_equal (fun b : bool => if b then _ else _)).
      apply bool_decide_ext. rewrite elem_of_app, list_elem_of_singleton.
      split; [tauto |]. intros [H | [= H]]; [exact H | congruence].
Qed.

Lemma collect_get_byte_keeps names m s :
  commit_inv st1 m s -> stopped m = false ->
  wp (collect names get_byte)
     (fun _ s' => exists m', commit_inv st1 m' s' /\ stopped m' = false
                             /\ pending m' = (rev names ++ pending m)%list)
     (fun _ s' => exists m', commit_inv st1 m' s') s.
Proof.
  revert m s. induction names as [| n names IH]; intros m s H Hs.
  - cbn [collect]. rewrite wp_ret. exists m. auto.
  - cbn [collect]. rewrite wp_bind, wp_get_byte.
    destruct (parameters s !! n) as [p |]; [| exists m; exact H].
    rewrite wp_bind.
    eapply wp_mono;
      [ | | apply (IH (Mon (n :: pending m) [] false)); [| reflexivity] ].
    + intros ys s' (m' & H' & Hs' & Hp'). rewrite wp_ret.
      exists m'. split; [exact H' |]. split; [exact Hs' |].
      rewrite Hp'. cbn [rev pending]. rewrite <- app_assoc. reflexivity.
    + intros ? ? HE. exact HE.
    + apply (commit_inv_event m); [exact H | | intros []].
      unfold monitor_step. rewrite Hs. reflexivity.
Qed.

Lemma for_each_set_updated_keeps l m s :
  commit_inv st1 m s -> stopped m = false ->
  (forall n, n ∈ l -> n ∈ allowed m) ->
  wp (for_each l set_updated)
     (fun _ s' => commit_inv st1 m s')
     (fun _ s' => exists m', commit_inv st1 m' s') s.
Proof.
  revert s. induction l as [| n l IH]; intros s H Hs Hl.
  - exact H.
  - cbn [for_each]. rewrite wp_bind, wp_set_updated.
    destruct (parameters s !! n) as [p |] eqn:Hp; [| exists m; exact H].
    apply IH; [| exact Hs | intros n' Hn'; apply Hl; right; exact Hn'].
    apply commit_inv_commit; [exact H | exact Hs | | exact Hp].
    apply Hl. left.
Qed.

Lemma device_step_keeps f pre names src m s :
  commit_inv st1 m s -> stopped m = false -> pending m = [] ->
  wp (device_step dll f pre names src)
     (fun _ s' => exists m', commit_inv st1 m' s' /\ stopped m' = false
                             /\ pending m' = [])
     (fun _ s' => exists m', commit_inv st1 m' s') s.
Proof.
  intros H Hs Hp. unfold device_step. rewrite wp_bind.
  eapply wp_mono; [ | | apply collect_get_byte_keeps; eassumption ];
    [| intros ? ? HE; exact HE].
  intros codes s1 (m1 & H1 & Hs1 & Hp1).
  rewrite wp_bind, wp_dll_call, wp_bind, wp_check.
  set (c := Call f (pre ++ codes)).
  set (rc := return_code (dll (trace s1) c)).
  destruct (_result_handler rc src) as [e | []] eqn:Hrc.
  - assert (Hm2 : exists m2, monitor_step m1 (EvCall c rc) = Some m2)
      by (unfold monitor_step; rewrite Hs1;
          destruct (bool_decide (rc = _succes)); eauto).
    destruct Hm2 as [m2 Hm2]. exists m2.
    apply (commit_inv_event m1); [exact H1 | exact Hm2 | intros []].
  - apply result_handler_ok in Hrc.
    assert (H2 : commit_inv st1 (Mon [] (pending m1) false)
                   (with_trace (trace s1 ++ [EvCall c rc]) s1)).
    { apply (commit_inv_event m1); [exact H1 | | intros []].
      unfold monitor_step. rewrite Hs1.
      rewrite bool_decide_eq_true_2 by exact Hrc. reflexivity. }
    eapply wp_mono;
      [ | | apply for_each_set_updated_keeps; [exact H2 | reflexivity |] ].
    + intros ? s2 Hs2. eexists. split; [exact Hs2 |]. split; reflexivity.
    + intros ? ? HE. exact HE.
    + intros n Hn. cbn [allowed]. rewrite Hp1, Hp, app_nil_r.
      apply list_elem_of_In, in_rev. rewrite rev_involutive.
      apply list_elem_of_In. exact Hn.
Qed.

Ltac commit_steps :=
  lazymatch goal with
  | |- wp (mbind _ _) _ _ _ => rewrite wp_bind; commit_steps
  | |- wp (device_step _ _ _ _ _) _ _ _ =>
      eapply wp_mono;
      [ | | eapply device_step_keeps; eassumption ];
      [ intros ? ? (? & ? & ? & ?); commit_steps
      | intros ? ? HE; exact HE ]
  | |- wp (AlazarTech_ATS.ret _) _ _ _ => rewrite wp_ret'; commit_steps
  | |- _ => eauto
  end.

Lemma config_device_calls_keeps s :
  commit_inv st1 monitor_init s ->
  wp (config_device_calls dll)
     (fun _ s' => exists m', commit_inv st1 m' s' /\ stopped m' = false
                             /\ pending m' = [])
     (fun _ s' => exists m', commit_inv st1 m' s') s.
Proof.
  intros H.
  assert (Hs : stopped monitor_init = false) by reflexivity.
  assert (Hp : pending monitor_init = []) by reflexivity.
  revert H Hs Hp. generalize monitor_init. intros m H Hs Hp.
  unfold config_device_calls. cbn [for_each].
  commit_steps.
Qed.

End Commit.

(** C6. Along every run of [config], in the history of the device calls,
    reads and commits: every commit is of a field that was read for the
    call made just before, and that call returned the success code (the
    monitor accepts the history, and each commit is [justified]); at the
    end a field is marked up to date exactly when a commit was recorded for
    it, and is otherwise as the arguments left it; and a call that fails is
    the last event of the run, which then ends with an exception. *)
Theorem config_commit_discipline dll a st :
  let st1 := snd (config_set_args a st) in
  let r := config dll a st in
  exists new,
    trace (snd r) = (trace st ++ new)%list
    /\ commit_disciplined new = true
    /\ (forall pre nm post,
          new = (pre ++ EvSetUpdated nm :: post)%list -> justified pre nm)
    /\ (forall nm,
          parameters (snd r) !! nm
          = if bool_decide (EvSetUpdated nm ∈ new)
            then AlazarParameter._set_updated <$> parameters st1 !! nm
            else parameters st1 !! nm)
    /\ (forall c rc, EvCall c rc ∈ new -> rc <> 512 ->
          (exists e, fst r = inl e) /\ last new = Some (EvCall c rc)).
Proof.
  intros st1 r.
  assert (Hwp : wp (config dll a)
            (fun _ s' => exists m', commit_inv st1 m' s' /\ stopped m' = false)
            (fun _ s' => exists m', commit_inv st1 m' s') st).
  { unfold config. rewrite wp_bind. unfold wp at 1. subst st1.
    destruct (config_set_args a st) as [[e | []] s1]; cbn [snd].
    - exists monitor_init. apply commit_inv_init.
    - eapply wp_mono;
        [ | | apply config_device_calls_keeps, commit_inv_init ].
      + intros ? s' (m' & H' & Hs' & _). eauto.
      + intros ? ? HE. exact HE. }
  assert (Hfin : exists m', commit_inv st1 m' (snd r)
                            /\ (fst r = inr tt -> stopped m' = false)).
  { unfold wp in Hwp. subst r. destruct (config dll a st) as [[e | []] s'].
    - destruct Hwp as [m' H']. exists m'. split; [exact H' | discriminate].
    - destruct Hwp as (m' & H' & Hs'). exists m'. auto. }
  destruct Hfin as (m' & (new & Htr & Hrun & Hps) & Hok).
  exists new. subst st1. rewrite config_set_args_trace in Htr.
  assert (Hd : commit_disciplined new = true).
  { unfold commit_disciplined. fold monitor_init. rewrite Hrun. reflexivity. }
  split; [exact Htr |]. split; [exact Hd |]. split.
  { intros pre nm post ->. eapply commit_disciplined_justified; eauto. }
  split; [exact Hps |].
  intros c rc Hin Hrc.
  destruct (monitor_failed_call_last _ _ _ _ _ Hrun Hin Hrc) as [Hst Hlast].
  split; [| exact Hlast].
  destruct (fst r) as [e | []]; [eauto |].
  rewrite Hok in Hst by reflexivity. discriminate.
Qed.

Lemma config_commit_discipline_witness :
  exists e,
    fst (config (Fixture.fails_at 1) Fixture.no_config_args
           (Fixture.board Fixture.config_fields)) = inl e.
Proof.
  destruct (config_commit_discipline (Fixture.fails_at 1)
              Fixture.no_config_args (Fixture.board Fixture.config_fields))
    as (new & Htr & _ & _ & _ & Hfail).
  apply (Hfail (Call "AlazarInputControl" [Some 1; Some 1; Some 1; Some 1])
               579); [| lia].
  vm_compute in Htr. rewrite <- Htr.
  apply list_elem_of_In. vm_compute. tauto.
Defined.

(** [config] with a library whose second call fails: the four clock fields
    are committed, the fields of the failed call and of the calls not made
    stay stale, and the history ends with the failed call. *)
Lemma config_second_call_fails_run :
  let r := config (Fixture.fails_at 1) Fixture.no_config_args
             (Fixture.board Fixture.config_fields) in
  fst r = inl (Exception
                 ("AlazarInputControl 1 raised 579: "
                  ++ "ApiWaitTimeout: operation did not finish during timeout interval. Check your trigger."))
  /\ calls (trace (snd r))
     = [(Call "AlazarSetCaptureClock" [Some 1; Some 1; Some 1; Some 1], 512);
        (Call "AlazarInputControl" [Some 1; Some 1; Some 1; Some 1], 579)]
  /\ map (fun nm => AlazarParameter._uptodate_flag
                      <$> parameters (snd r) !! nm)
         ["clock_source"; "sample_rate"; "clock_edge"; "decimation";
          "coupling1"; "range1"; "impedence1"; "bwlimit1"; "timeout_ticks"]
     = [Some true; Some true; Some true; Some true;
        Some false; Some false; Some false; Some false; Some false]
  /\ commit_disciplined (trace (snd r)) = true.
Proof. vm_compute. repeat split. Qed.


(** * Further properties *)

(** ** Further properties of the status-code check and of the fields *)

(** X1. The status-code check by ranges: each of the codes 513 to 591
    raises [Exception] with its message of the table, and every code below
    512 or above 591 raises [KeyError]. *)
Theorem result_handler_by_range (error_code : Z) (error_source : string) :
  (513 <= error_code <= 591 ->
     exists m,
       error_codes !! error_code = Some m
       /\ _result_handler error_code error_source
          = inl (Exception (error_source ++ " raised " ++ pretty error_code
                            ++ ": " ++ m)))
  /\ (error_code < 512 \/ 591 < error_code ->
        _result_handler error_code error_source
        = inl (KeyError (error_source ++ " raised unknown error "
                         ++ pretty error_code))).
Proof.
  unfold _result_handler, _succes. split.
  - intros Hc. destruct (proj2 (error_codes_domain error_code) Hc) as [m Hm].
    exists m. split; [exact Hm |].
    rewrite bool_decide_eq_false_2 by lia. rewrite Hm. reflexivity.
  - intros Hc. rewrite bool_decide_eq_false_2 by lia.
    destruct (error_codes !! error_code) as [m |] eqn:Hm; [| reflexivity].
    assert (513 <= error_code <= 591) by (apply error_codes_domain; eauto).
    lia.
Qed.

Lemma result_handler_by_range_witness :
  (exists m, error_codes !! 513 = Some m
             /\ _result_handler 513 "AlazarStartCapture"
                = inl (Exception ("AlazarStartCapture" ++ " raised "
                                  ++ pretty 513 ++ ": " ++ m)))
  /\ _result_handler 0 "AlazarStartCapture"
     = inl (KeyError ("AlazarStartCapture" ++ " raised unknown error "
                      ++ pretty 0)).
Proof.
  split.
  - apply (result_handler_by_range 513 "AlazarStartCapture"). lia.
  - apply (result_handler_by_range 0 "AlazarStartCapture"). lia.
Defined.

(** X2. Set, commit, read: once a value is stored and committed, [get]
    returns what [_byte_to_value_dict] holds for the stored code, and
    raises [KeyError] when it holds nothing; it returns the value that was
    set exactly when the two dictionaries agree on it. *)
Theorem set_commit_get (p p' : AlazarParameter.t) (v : pyval) (b : Z) :
  AlazarParameter._value_to_byte_dict p !! v = Some b ->
  AlazarParameter._set p v = inr p' ->
  AlazarParameter.get (AlazarParameter._set_updated p')
  = match AlazarParameter._byte_to_value_dict p !! b with
    | Some v' => inr v'
    | None => inl (KeyError (pretty b))
    end
  /\ (AlazarParameter._byte_to_value_dict p !! b = Some v ->
      AlazarParameter.get (AlazarParameter._set_updated p') = inr v).
Proof.
  unfold AlazarParameter._set. intros Hv. rewrite Hv. intros [= <-].
  unfold AlazarParameter.get, AlazarParameter._set_updated. cbn.
  split; [reflexivity |]. intros ->. reflexivity.
Qed.

Lemma set_commit_get_witness :
  AlazarParameter.get
    (AlazarParameter._set_updated
       (Fixture.field "mode" Fixture.mode_table (Some 0x400) false))
  = inr (PStr "TS").
Proof.
  apply (set_commit_get
           (Fixture.field "mode" Fixture.mode_table (Some 0x200) true)
           (Fixture.field "mode" Fixture.mode_table (Some 0x400) false)
           (PStr "TS") 0x400);
    vm_compute; reflexivity.
Defined.

(** ** Buffers: release *)

(** X3. A buffer that [__init__] built and nobody released: the finalizer
    hands back to the host exactly the address [VirtualAlloc] returned,
    once, logs the leak warning and leaves the buffer marked as not
    allocated. *)
Theorem del_releases_leaked_buffer (h : Buffer.host)
    (bits_per_sample samples_per_buffer number_of_channels : Z)
    (b : Buffer.t) (evs : list Buffer.kernel_event) :
  Buffer.__init__ h bits_per_sample samples_per_buffer number_of_channels
  = (inr b, evs) ->
  exists a sz,
    evs = [Buffer.KVirtualAlloc 0 sz 0x1000 0x4 (Some a)]
    /\ Buffer.__del__ b
       = ({| Buffer.addr := a; Buffer.buffer := Buffer.buffer b;
             Buffer._allocated := false |},
          [Buffer.KVirtualFree a 0 0x8000], [Buffer.leak_msg]).
Proof.
  unfold Buffer.__init__. cbv zeta.
  destruct (negb (bool_decide (bits_per_sample = 8))); [discriminate |].
  destruct (negb (bool_decide (Buffer.os_name h = "nt"))); [discriminate |].
  change (Buffer.c_long 4096) with 4096.
  change (Buffer.c_long 4) with 4.
  destruct (Buffer.VirtualAlloc h 0 _ 4096 4) as [a |]; [| discriminate].
  case_bool_decide; [discriminate |].
  intros [= <- <-]. eexists _, _. split; reflexivity.
Qed.

Lemma del_releases_leaked_buffer_witness :
  Buffer.__del__ (Buffer.mk 65536 8192 true)
  = (Buffer.mk 65536 8192 false,
     [Buffer.KVirtualFree 65536 0 0x8000], [Buffer.leak_msg]).
Proof.
  destruct (del_releases_leaked_buffer Fixture.windows 8 4096 2
              (Buffer.mk 65536 8192 true)
              [Buffer.KVirtualAlloc 0 8192 0x1000 0x4 (Some 65536)])
    as (a & sz & Hevs & Hdel).
  - vm_compute. reflexivity.
  - injection Hevs as _ <-. exact Hdel.
Defined.

(** ** Buffers: release *)

Lemma buffer_run_released cs b :
  Buffer._allocated b = false ->
  buffer_run cs b
  = (b,
     replicate (List.length (List.filter is_free_mem cs))
       (Buffer.KVirtualFree (Buffer.addr b) 0 0x8000),
     []).
Proof.
  revert b. induction cs as [| c cs IH]; intros b Hb; [reflexivity |].
  destruct b as [a n al]. cbn in Hb. subst al.
  destruct c; cbn [buffer_run Buffer.free_mem Buffer.__del__
                   Buffer._allocated Buffer.addr Buffer.buffer];
    rewrite IH by reflexivity; reflexivity.
Qed.

(** X4. Release is guarded in the finalizer only.  In any sequence of
    [free_mem] calls and finalizer runs on a buffer, [free_mem] hands the
    address of the buffer to the host each time it is called, released
    already or not, and the finalizer does so only when it comes first and
    finds the buffer allocated, which is also the only case in which the
    leak warning is logged.  After the first call the buffer is marked as
    not allocated; its address and length never change. *)
Theorem buffer_release_count (cs : list buffer_call) (b : Buffer.t) :
  let '(b', evs, ws) := buffer_run cs b in
  evs = replicate
          (List.length (List.filter is_free_mem cs)
           + (if finalizer_releases cs b then 1 else 0))%nat
          (Buffer.KVirtualFree (Buffer.addr b) 0 0x8000)
  /\ ws = (if finalizer_releases cs b then [Buffer.leak_msg] else [])
  /\ Buffer.addr b' = Buffer.addr b
  /\ Buffer.buffer b' = Buffer.buffer b
  /\ Buffer._allocated b'
     = match cs with [] => Buffer._allocated b | _ => false end.
Proof.
  destruct cs as [| c cs]; [repeat split |].
  destruct b as [a n al].
  destruct c; [| destruct al];
    cbn [buffer_run Buffer.free_mem Buffer.__del__ finalizer_releases
         Buffer._allocated Buffer.addr Buffer.buffer];
    rewrite buffer_run_released by reflexivity;
    cbn [List.filter is_free_mem List.length Buffer.addr Buffer.buffer
         Buffer._allocated];
    rewrite ?Nat.add_0_r, ?Nat.add_1_r; repeat split.
Qed.

(** ** Invariants kept by the method bodies

    An assertion [I] on the instrument that survives the recording of the
    events in [P], the rebinding of the fields in [good] and the updates of
    the log and of the locals is kept by every method body that records
    only such events and writes only such fields. *)

Section Frame.

Variable dll : driver.
Variable I : t -> Prop.
Variable P : event -> Prop.
Variable good : string -> Prop.

Hypothesis Htr : forall s e, P e -> I s -> I (with_trace (trace s ++ [e]) s).
Hypothesis Hps :
  forall s nm p, good nm -> I s ->
    I (with_parameters (<[nm := p]> (parameters s)) s).
Hypothesis Hws : forall s ws, I s -> I (with_warnings ws s).
Hypothesis Hnc : forall s n, I s -> I (with_number_of_channels n s).
Hypothesis Hspb : forall s n, I s -> I (with_samples_per_buffer n s).

Hypothesis Hread : forall nm, P (EvGetByte nm).
Hypothesis Hcall : forall c rc, P (EvCall c rc).
Hypothesis Hcommit : forall nm, P (EvSetUpdated nm).

Lemma fk_param nm s : I s -> wp (param nm) (fun _ => I) (fun _ => I) s.
Proof.
  intros H. rewrite wp_param. destruct (parameters s !! nm); exact H.
Qed.

Lemma fk_param_get nm s :
  I s -> wp (param_get nm) (fun _ => I) (fun _ => I) s.
Proof.
  intros H. rewrite wp_param_get.
  destruct (parameters s !! nm) as [p |]; [| exact H].
  destruct (AlazarParameter.get p); exact H.
Qed.

Lemma fk_param_set nm v s :
  good nm -> I s -> wp (param_set nm v) (fun _ => I) (fun _ => I) s.
Proof.
  intros Hg H. rewrite wp_param_set.
  destruct (parameters s !! nm) as [p |]; [| exact H].
  destruct (AlazarParameter._set p v); [exact H |]. apply Hps; assumption.
Qed.

Lemma fk_get_byte nm s :
  I s -> wp (get_byte nm) (fun _ => I) (fun _ => I) s.
Proof.
  intros H. rewrite wp_get_byte.
  destruct (parameters s !! nm); [| exact H]. apply Htr; [apply Hread | exact H].
Qed.

Lemma fk_set_updated nm s :
  good nm -> I s -> wp (set_updated nm) (fun _ => I) (fun _ => I) s.
Proof.
  intros Hg H. rewrite wp_set_updated.
  destruct (parameters s !! nm) as [p |]; [| exact H].
  apply (Htr (with_parameters _ s)); [apply Hcommit |].
  apply Hps; assumption.
Qed.

Lemma fk_check rc src s :
  I s -> wp (check rc src) (fun _ => I) (fun _ => I) s.
Proof.
  intros H. rewrite wp_check. destruct (_result_handler rc src); exact H.
Qed.

Lemma fk_lift {A} (r : res A) s :
  I s -> wp (lift r) (fun _ => I) (fun _ => I) s.
Proof. intros H. rewrite wp_lift. destruct r; exact H. Qed.

Lemma fk_dll_call f a s :
  I s -> wp (dll_call dll f a) (fun _ => I) (fun _ => I) s.
Proof. intros H. rewrite wp_dll_call. apply Htr; [apply Hcall | exact H]. Qed.

Lemma fk_warning msg s :
  I s -> wp (warning msg) (fun _ => I) (fun _ => I) s.
Proof. intros H. rewrite wp_warning. apply Hws, H. Qed.

Lemma fk_assign_number_of_channels n s :
  I s -> wp (assign_number_of_channels n) (fun _ => I) (fun _ => I) s.
Proof. intros H. rewrite wp_assign_number_of_channels. apply Hnc, H. Qed.

Lemma fk_assign_samples_per_buffer n s :
  I s -> wp (assign_samples_per_buffer n) (fun _ => I) (fun _ => I) s.
Proof. intros H. rewrite wp_assign_samples_per_buffer. apply Hspb, H. Qed.

Lemma fk_ret {A} (a : A) s : I s -> wp (mret a) (fun _ => I) (fun _ => I) s.
Proof. intros H. exact H. Qed.

Lemma fk_raise {A} (e : exc) s :
  I s -> wp (raise e : M A) (fun _ => I) (fun _ => I) s.
Proof. intros H. exact H. Qed.

Lemma fk_if_given v body s :
  (forall v' s', I s' -> wp (body v') (fun _ => I) (fun _ => I) s') ->
  I s -> wp (if_given v body) (fun _ => I) (fun _ => I) s.
Proof.
  intros Hb H. rewrite wp_if_given. destruct v; [exact H | |]; apply Hb, H.
Qed.


Hypothesis Hgood : forall nm, nm ∈ acquire_arg_fields -> good nm.

Ltac fk_good := apply Hgood; unfold acquire_arg_fields; solve [repeat constructor].

Ltac fk_head H :=
  first
    [ apply fk_get_byte; exact H
    | apply fk_param_get; exact H
    | apply fk_param; exact H
    | apply fk_check; exact H
    | apply fk_lift; exact H
    | apply fk_dll_call; exact H
    | apply fk_warning; exact H
    | apply fk_assign_number_of_channels; exact H
    | apply fk_assign_samples_per_buffer; exact H
    | apply fk_set_updated; [fk_good | exact H]
    | apply fk_if_given;
      [intros ? ? ?; apply fk_param_set; [fk_good | assumption] | exact H] ].

Ltac fk_next :=
  lazymatch goal with
  | H : I ?s |- wp (mbind _ _) _ _ ?s =>
      rewrite wp_bind;
      eapply wp_mono; [ | | fk_head H ];
      [ intros ? ? ? | intros ? ? HE; exact HE ];
      cbv beta in *
  | H : I ?s |- wp _ _ _ ?s => fk_head H
  end.

Lemma frame_acquire_set_args a s :
  I s -> wp (acquire_set_args a) (fun _ => I) (fun _ => I) s.
Proof. intros H. unfold acquire_set_args. do 11 fk_next. fk_next. Qed.

Lemma frame_check_mode s :
  I s -> wp acquire_check_mode (fun _ => I) (fun _ => I) s.
Proof.
  intros H. unfold acquire_check_mode. fk_next.
  rewrite wp_bind.
  eapply wp_mono with (Q := fun _ => I) (E := fun _ => I).
  - intros ok s2 H2. destruct ok; exact H2.
  - intros e s2 H2. exact H2.
  - destruct (py_eq a (PStr "TS")); [assumption |]. fk_next. assumption.
Qed.

Lemma frame_channel_info s :
  I s -> wp (acquire_channel_info dll) (fun _ => I) (fun _ => I) s.
Proof.
  intros H. unfold acquire_channel_info. do 4 fk_next.
  cbv zeta. case_bool_decide; assumption.
Qed.

Lemma frame_record_size s :
  I s -> wp (acquire_record_size dll) (fun _ => I) (fun _ => I) s.
Proof.
  intros H. unfold acquire_record_size. fk_next.
  destruct (py_eq a (PStr "NPT")); [| assumption].
  cbv zeta. do 2 fk_next. fk_next.
Qed.

Lemma frame_flags s :
  I s -> wp acquire_flags (fun _ => I) (fun _ => I) s.
Proof. intros H. unfold acquire_flags. do 15 fk_next. fk_next. Qed.

Lemma frame_before_async_read flags s :
  I s -> wp (acquire_before_async_read dll flags) (fun _ => I) (fun _ => I) s.
Proof.
  intros H. unfold acquire_before_async_read. fk_next.
  destruct (py_eq a (PStr "NPT")).
  - do 9 fk_next. fk_next.
  - fk_next. destruct (py_eq a0 (PStr "TS")); [| assumption].
    do 2 fk_next. rewrite wp_bind, wp_lift. unfold py_mod_param. assumption.
Qed.

Lemma frame_commit s :
  I s -> wp acquire_commit (fun _ => I) (fun _ => I) s.
Proof. intros H. unfold acquire_commit. do 11 fk_next. fk_next. Qed.

Lemma frame_capture fuel s :
  I s -> I (snd (acquire_capture dll fuel s)).
Proof.
  intros H. destruct (acquire_capture_state dll fuel s) as (tr & Hsnd & Htr').
  rewrite Hsnd. destruct Htr' as [Htr' | [rc Htr']]; rewrite Htr'.
  - destruct s; exact H.
  - apply Htr; [apply Hcall | exact H].
Qed.

Lemma frame_acquire_after_channel_info fuel s :
  I s ->
  wp (acquire_record_size dll;;
      flags ← acquire_flags;
      acquire_before_async_read dll flags;;
      acquire_commit;;
      acquire_capture dll fuel) (fun _ => I) (fun _ => I) s.
Proof.
  intros H3. rewrite wp_bind.
  eapply wp_mono; [ | | apply frame_record_size, H3 ];
    [| intros ? ? HE; exact HE].
  intros ? s4 H4. rewrite wp_bind.
  eapply wp_mono; [ | | apply frame_flags, H4 ];
    [| intros ? ? HE; exact HE].
  intros flags s5 H5. rewrite wp_bind.
  eapply wp_mono; [ | | apply frame_before_async_read, H5 ];
    [| intros ? ? HE; exact HE].
  intros ? s6 H6. rewrite wp_bind.
  eapply wp_mono; [ | | apply frame_commit, H6 ];
    [| intros ? ? HE; exact HE].
  intros ? s7 H7. apply wp_final. apply frame_capture, H7.
Qed.

Lemma frame_acquire fuel a s :
  I s -> I (snd (acquire dll fuel a s)).
Proof.
  intros H. apply (proj1 (wp_final _ I s)). unfold acquire.
  rewrite wp_bind.
  eapply wp_mono; [ | | apply frame_acquire_set_args, H ];
    [| intros ? ? HE; exact HE].
  intros ? s1 H1. rewrite wp_bind.
  eapply wp_mono; [ | | apply frame_check_mode, H1 ];
    [| intros ? ? HE; exact HE].
  intros ? s2 H2. rewrite wp_bind.
  eapply wp_mono; [ | | apply frame_channel_info, H2 ];
    [| intros ? ? HE; exact HE].
  intros ? s3 H3. apply frame_acquire_after_channel_info, H3.
Qed.

End Frame.

(** ** acquire: what it leaves alone, and what it does first *)

(** X5. [acquire] writes the twelve fields of its arguments and no other:
    every other field is at the end what it was at the start.  This holds
    in particular for [external_startcapture], the field the flags are read
    from: the argument of that name is stored in, and the commit goes to,
    [external_starcapture]. *)
Theorem acquire_leaves_other_fields dll fuel a s nm :
  nm ∉ acquire_arg_fields ->
  parameters (snd (acquire dll fuel a s)) !! nm = parameters s !! nm.
Proof.
  intros Hnm.
  apply (frame_acquire dll
           (fun s' => parameters s' !! nm = parameters s !! nm)
           (fun _ => True) (fun n => n <> nm)); try (intros; assumption);
    try (intros; exact I).
  - intros s' n p Hn Hs'. st_simpl. rewrite lookup_insert_ne by exact Hn.
    exact Hs'.
  - intros n Hn ->. contradiction.
  - reflexivity.
Qed.

Lemma acquire_leaves_other_fields_witness :
  parameters
    (snd (acquire Fixture.always_ok 10
            (AcquireArgs PNone PNone PNone PNone PNone PNone
                         (PInt 0) PNone PNone PNone PNone PNone)
            Fixture.npt_board)) !! "external_startcapture"
  = parameters Fixture.npt_board !! "external_startcapture".
Proof.
  apply (acquire_leaves_other_fields Fixture.always_ok 10).
  unfold acquire_arg_fields. intros H.
  repeat (apply elem_of_cons in H as [H | H]; [discriminate H |]).
  inversion H.
Defined.

(** X6. The first call [acquire] makes to the library, if it makes any, is
    [AlazarAbortAsyncRead]. *)
Theorem acquire_aborts_first dll fuel a s :
  exists new,
    trace (snd (acquire dll fuel a s)) = (trace s ++ new)%list
    /\ (calls new = []
        \/ exists rc rest,
             calls new = (Call "AlazarAbortAsyncRead" [], rc) :: rest).
Proof.
  set (I0 := fun s' : t => trace s' = trace s).
  set (I1 := fun s' : t =>
               exists rc rest,
                 trace s'
                 = (trace s ++ EvCall (Call "AlazarAbortAsyncRead" []) rc
                      :: rest)%list).
  set (F := fun s' : t =>
              exists new,
                trace s' = (trace s ++ new)%list
                /\ (calls new = []
                    \/ exists rc rest,
                         calls new
                         = (Call "AlazarAbortAsyncRead" [], rc) :: rest)).
  assert (H0F : forall s', I0 s' -> F s').
  { intros s' Hs'. exists []. rewrite app_nil_r. split; [exact Hs' | left].
    reflexivity. }
  assert (H1F : forall s', I1 s' -> F s').
  { intros s' (rc & rest & Hs'). eexists. split; [exact Hs' |]. right.
    exists rc, (calls rest). reflexivity. }
  assert (H1tr : forall s' e, True -> I1 s' ->
                   I1 (with_trace (trace s' ++ [e]) s')).
  { intros s' e _ (rc & rest & Hs'). exists rc, (rest ++ [e])%list.
    st_simpl. rewrite Hs', <- app_assoc. reflexivity. }
  apply (proj1 (wp_final _ F s)). unfold acquire. rewrite wp_bind.
  eapply wp_mono with (Q := fun _ => I0) (E := fun _ => I0);
    [ | intros e s' Hs'; apply H0F, Hs'
      | apply (frame_acquire_set_args I0 (fun _ => True));
        [intros; assumption | intros; exact Logic.I | reflexivity] ].
  intros ? s1 H1. rewrite wp_bind.
  eapply wp_mono with (Q := fun _ => I0) (E := fun _ => I0);
    [ | intros e s' Hs'; apply H0F, Hs' | apply frame_check_mode, H1 ].
  intros ? s2 H2. rewrite wp_bind. unfold acquire_channel_info.
  rewrite wp_bind, wp_dll_call.
  set (rc := return_code (dll (trace s2) (Call "AlazarAbortAsyncRead" []))).
  assert (H3 : I1 (with_trace
                     (trace s2 ++ [EvCall (Call "AlazarAbortAsyncRead" []) rc])
                     s2)).
  { exists rc, []. st_simpl. rewrite H2. reflexivity. }
  revert H3. generalize (with_trace
                     (trace s2 ++ [EvCall (Call "AlazarAbortAsyncRead" []) rc])
                     s2). intros s3 H3.
  eapply wp_mono with (Q := fun _ => I1) (E := fun _ => I1);
    [ | intros e s' Hs'; apply H1F, Hs' | ].
  - intros ? s4 H4.
    eapply wp_mono with (Q := fun _ => I1) (E := fun _ => I1);
      [ intros ? s' Hs'; apply H1F, Hs' | intros e s' Hs'; apply H1F, Hs' | ].
    apply (frame_acquire_after_channel_info dll I1 (fun _ => True)
             (fun _ => True)); try (intros; assumption);
      try (intros; exact I).
    exact H1tr.
  - rewrite wp_bind.
    eapply wp_mono; [ | | apply (fk_check I1), H3 ];
      [| intros ? ? HE; exact HE].
    intros ? s4 H4. cbv beta in H4. rewrite wp_bind.
    eapply wp_mono;
      [ | | apply (fk_dll_call dll I1 (fun _ => True));
            [exact H1tr | intros; exact I | exact H4] ];
      [| intros ? ? HE; exact HE].
    intros r s5 H5. cbv beta in H5. rewrite wp_bind.
    eapply wp_mono; [ | | apply (fk_check I1), H5 ];
      [| intros ? ? HE; exact HE].
    intros ? s6 H6. cbv zeta. case_bool_decide; exact H6.
Qed.

(** ** config: a frame rule for the device calls *)

Section FrameConfig.

Variable dll : driver.
Variable I : t -> Prop.
Variable P : event -> Prop.
Variable good : string -> Prop.

Hypothesis Htr : forall s e, P e -> I s -> I (with_trace (trace s ++ [e]) s).
Hypothesis Hps :
  forall s nm p, good nm -> I s ->
    I (with_parameters (<[nm := p]> (parameters s)) s).
Hypothesis Hcall : forall c rc, P (EvCall c rc).

Lemma fc_collect names s :
  (forall n, n ∈ names -> P (EvGetByte n)) ->
  I s -> wp (collect names get_byte) (fun _ => I) (fun _ => I) s.
Proof.
  revert s. induction names as [| n names IH]; intros s Hn H; [exact H |].
  cbn [collect]. rewrite wp_bind, wp_get_byte.
  destruct (parameters s !! n); [| exact H].
  rewrite wp_bind. eapply wp_mono; [ | | apply IH ].
  - intros ys s' Hs'. exact Hs'.
  - intros ? ? HE. exact HE.
  - intros n' Hn'. apply Hn. right. exact Hn'.
  - apply Htr; [apply Hn; left | exact H].
Qed.

Lemma fc_for_each_set_updated names s :
  (forall n, n ∈ names -> good n /\ P (EvSetUpdated n)) ->
  I s -> wp (for_each names set_updated) (fun _ => I) (fun _ => I) s.
Proof.
  revert s. induction names as [| n names IH]; intros s Hn H; [exact H |].
  cbn [for_each]. rewrite wp_bind, wp_set_updated.
  destruct (parameters s !! n) as [p |]; [| exact H].
  apply IH; [intros n' Hn'; apply Hn; right; exact Hn' |].
  destruct (Hn n) as [Hg Hp]; [left |].
  apply (Htr (with_parameters _ s)); [exact Hp |].
  apply Hps; assumption.
Qed.

Lemma fc_device_step f pre names src s :
  (forall n, n ∈ names ->
     good n /\ P (EvGetByte n) /\ P (EvSetUpdated n)) ->
  I s -> wp (device_step dll f pre names src) (fun _ => I) (fun _ => I) s.
Proof.
  intros Hn H. unfold device_step. rewrite wp_bind.
  eapply wp_mono; [ | | apply fc_collect;
                        [intros n Hin; apply (Hn n Hin) | exact H] ];
    [| intros ? ? HE; exact HE].
  intros codes s1 H1. cbv beta in H1. rewrite wp_bind, wp_dll_call.
  rewrite wp_bind, wp_check.
  destruct (_result_handler _ src) as [e | []].
  - apply Htr; [apply Hcall | exact H1].
  - apply fc_for_each_set_updated.
    + intros n Hin. destruct (Hn n Hin) as (? & ? & ?). split; assumption.
    + apply Htr; [apply Hcall | exact H1].
Qed.

Hypothesis Hname :
  forall n, n ∈ config_device_fields ->
    good n /\ P (EvGetByte n) /\ P (EvSetUpdated n).

Ltac fc_names :=
  let n := fresh "n" in
  let Hn := fresh "Hn" in
  intros n Hn; apply Hname; unfold config_device_fields;
  repeat (apply elem_of_cons in Hn as [-> | Hn];
          [solve [repeat constructor] |]);
  inversion Hn.

Ltac fc_go H :=
  cbv beta;
  lazymatch goal with
  | |- wp (mbind _ _) _ _ _ => rewrite wp_bind; fc_go H
  | |- wp (device_step _ _ _ _ _) _ _ _ =>
      eapply wp_mono;
      [ | | apply fc_device_step; [fc_names | exact H] ];
      [ let H' := fresh "H" in intros ? ? H'; fc_go H'
      | intros ? ? HE; exact HE ]
  | |- wp (AlazarTech_ATS.ret _) _ _ _ => rewrite wp_ret'; fc_go H
  | |- wp (mret _) _ _ _ => rewrite wp_ret; fc_go H
  | |- I _ => exact H
  end.

Lemma frame_config_device_calls s :
  I s -> wp (config_device_calls dll) (fun _ => I) (fun _ => I) s.
Proof.
  intros H. unfold config_device_calls. cbn [for_each]. fc_go H.
Qed.

End FrameConfig.

(** ** config: which fields reach the device *)

Lemma config_run dll a st :
  config dll a st
  = match config_set_args a st with
    | (inl e, s1) => (inl e, s1)
    | (inr _, s1) => config_device_calls dll s1
    end.
Proof. reflexivity. Qed.

Lemma config_device_calls_frame dll s nm :
  nm ∉ config_device_fields ->
  parameters (snd (config_device_calls dll s)) !! nm = parameters s !! nm
  /\ exists new,
       trace (snd (config_device_calls dll s)) = (trace s ++ new)%list
       /\ (EvGetByte nm ∉ new) /\ (EvSetUpdated nm ∉ new).
Proof.
  intros Hnm.
  apply (proj1 (wp_final (config_device_calls dll)
    (fun s' =>
       parameters s' !! nm = parameters s !! nm
       /\ exists new,
            trace s' = (trace s ++ new)%list
            /\ (EvGetByte nm ∉ new) /\ (EvSetUpdated nm ∉ new)) s)).
  apply (frame_config_device_calls dll _
           (fun e => e <> EvGetByte nm /\ e <> EvSetUpdated nm)
           (fun n => n <> nm)).
  - intros s' e [He1 He2] (Hp & new & Ht & Hg & Hu). st_simpl.
    split; [exact Hp |]. exists (new ++ [e])%list.
    rewrite Ht, <- app_assoc. split; [reflexivity |].
    rewrite !elem_of_app, !list_elem_of_singleton. split; intros [? | ?];
      try contradiction; congruence.
  - intros s' n p Hn (Hp & Hrest). st_simpl. split; [| exact Hrest].
    rewrite lookup_insert_ne by exact Hn. exact Hp.
  - intros c rc. split; discriminate.
  - intros n Hn.
    assert (n <> nm) by (intros ->; contradiction).
    repeat split; congruence.
  - split; [reflexivity |]. exists []. rewrite app_nil_r.
    split; [reflexivity |]. split; apply not_elem_of_nil.
Qed.

(** X7. The device calls of [config] read and commit the twenty-five fields
    they name and no other: any other field is at the end as the argument
    phase left it, and its code is neither read nor marked up to date. *)
Theorem config_consumes_only_device_fields dll a st nm :
  nm ∉ config_device_fields ->
  parameters (snd (config dll a st)) !! nm
  = parameters (snd (config_set_args a st)) !! nm
  /\ exists new,
       trace (snd (config dll a st)) = (trace st ++ new)%list
       /\ (EvGetByte nm ∉ new) /\ (EvSetUpdated nm ∉ new).
Proof.
  intros Hnm. rewrite config_run.
  pose proof (config_set_args_trace a st) as Htr.
  destruct (config_set_args a st) as [[e | []] s1]; cbn [snd] in *.
  - split; [reflexivity |]. exists []. rewrite app_nil_r.
    split; [exact Htr |]. split; apply not_elem_of_nil.
  - destruct (config_device_calls_frame dll s1 nm Hnm) as (Hp & new & Ht & H).
    split; [exact Hp |]. exists new. rewrite Ht, Htr. split; [reflexivity |].
    exact H.
Qed.

Lemma config_consumes_only_device_fields_witness :
  parameters
    (snd (config Fixture.always_ok ChannelFixture.coupling_args
            ChannelFixture.board))
    !! "coupling0"
  = Some (Fixture.field "coupling0" [(1, PInt 1); (2, PInt 2)] (Some 2) false)
  /\ exists new,
       trace (snd (config Fixture.always_ok ChannelFixture.coupling_args
                     ChannelFixture.board))
       = (trace ChannelFixture.board ++ new)%list
       /\ (EvGetByte "coupling0" ∉ new) /\ (EvSetUpdated "coupling0" ∉ new).
Proof.
  destruct (config_consumes_only_device_fields Fixture.always_ok
              ChannelFixture.coupling_args ChannelFixture.board "coupling0")
    as [Hp Hnew].
  - unfold config_device_fields. intros H.
    repeat (apply elem_of_cons in H as [H | H]; [discriminate H |]).
    inversion H.
  - split; [| exact Hnew]. rewrite Hp. vm_compute. reflexivity.
Defined.

(** ** config: the first entry of a per-channel list *)

Lemma wp_trivial {A} (m : M A) s :
  wp m (fun _ _ => True) (fun _ _ => True) s.
Proof. unfold wp. destruct (m s) as [[e | a] s']; exact Logic.I. Qed.

Lemma append_inj_r (p x y : string) : p ++ x = p ++ y -> x = y.
Proof.
  induction p as [| c p IH]; cbn; [intros H; exact H |].
  intros [= H]. apply IH, H.
Qed.

Lemma hs_param_set nm0 v0 nm v s :
  nm <> nm0 -> holds_stale nm0 v0 s ->
  wp (param_set nm v) (fun _ => holds_stale nm0 v0) (fun _ _ => True) s.
Proof.
  intros Hnm (p0 & b0 & Hp0 & H). rewrite wp_param_set.
  destruct (parameters s !! nm) as [p |]; [| exact Logic.I].
  destruct (AlazarParameter._set p v); [exact Logic.I |].
  exists p0, b0. st_simpl. rewrite lookup_insert_ne by exact Hnm.
  split; assumption.
Qed.

Lemma hs_if_given nm0 v0 nm v s :
  nm <> nm0 -> holds_stale nm0 v0 s ->
  wp (if_given v (param_set nm)) (fun _ => holds_stale nm0 v0)
     (fun _ _ => True) s.
Proof.
  intros Hnm H. rewrite wp_if_given.
  destruct v; [exact H | |]; apply hs_param_set; assumption.
Qed.

Lemma hs_for_enumerate nm0 v0 prefix vs i s :
  (forall j : Z, i <= j -> prefix ++ pretty j <> nm0) ->
  holds_stale nm0 v0 s ->
  wp (for_enumerate i vs (fun i v => param_set (prefix ++ pretty i) v))
     (fun _ => holds_stale nm0 v0) (fun _ _ => True) s.
Proof.
  revert i s. induction vs as [| v vs IH]; intros i s Hi H; [exact H |].
  cbn [for_enumerate]. rewrite wp_bind.
  eapply wp_mono; [ | | apply (hs_param_set nm0 v0); [apply Hi; lia | exact H] ];
    [| intros; exact Logic.I].
  intros ? s' Hs'. apply IH; [| exact Hs'].
  intros j Hj. apply Hi. lia.
Qed.

Lemma hs_set_channels nm0 v0 prefix l s :
  (forall j : Z, prefix ++ pretty j <> nm0) ->
  holds_stale nm0 v0 s ->
  wp (set_channels prefix l) (fun _ => holds_stale nm0 v0)
     (fun _ _ => True) s.
Proof.
  intros Hp H. destruct l as [vs |]; [| exact H].
  apply hs_for_enumerate; [intros j _; apply Hp | exact H].
Qed.

Lemma set_channels_first prefix v vs s :
  wp (set_channels prefix (Some (v :: vs)))
     (fun _ => holds_stale (prefix ++ "0") v) (fun _ _ => True) s.
Proof.
  cbn [set_channels for_enumerate]. rewrite wp_bind, wp_param_set.
  change (pretty 0) with "0".
  destruct (parameters s !! (prefix ++ "0")) as [p |]; [| exact Logic.I].
  unfold AlazarParameter._set.
  destruct (AlazarParameter._value_to_byte_dict p !! v) as [b |] eqn:Hb;
    [| exact Logic.I].
  apply hs_for_enumerate.
  - intros j Hj Heq. apply append_inj_r in Heq.
    change "0" with (pretty 0) in Heq. apply pretty_Z_inj in Heq. lia.
  - eexists _, b. st_simpl. rewrite lookup_insert_eq.
    split; [reflexivity |]. cbn. auto.
Qed.

Ltac hs_keep H :=
  lazymatch type of H with
  | holds_stale ?nm0 ?v0 _ =>
      first
        [ apply (hs_if_given nm0 v0);
          [ let Heq := fresh "Heq" in
            intros Heq; simpl in Heq; discriminate Heq
          | exact H ]
        | apply (hs_set_channels nm0 v0);
          [ let j := fresh "j" in
            let Heq := fresh "Heq" in
            intros j Heq; simpl in Heq; discriminate Heq
          | exact H ] ]
  end.

Ltac hs_go :=
  cbv beta;
  lazymatch goal with
  | H : holds_stale _ _ ?s |- wp (mbind _ _) _ _ ?s =>
      rewrite wp_bind;
      eapply wp_mono; [ | | hs_keep H ];
      [ intros ? ? ? | intros; exact Logic.I ];
      cbv beta in *; hs_go
  | H : holds_stale _ _ ?s |- wp _ _ _ ?s => hs_keep H
  | |- wp (mbind _ (set_channels _ (Some (_ :: _)))) _ _ _ =>
      rewrite wp_bind;
      eapply wp_mono; [ | | apply set_channels_first ];
      [ intros ? ? ? | intros; exact Logic.I ];
      cbv beta in *; hs_go
  | |- wp (mbind _ _) _ _ _ =>
      rewrite wp_bind;
      eapply wp_mono; [ | | apply wp_trivial ];
      [ intros ? ? _ | intros; exact Logic.I ];
      hs_go
  end.

Lemma config_set_args_first a prefix v vs s :
  (prefix, Some (v :: vs)) ∈ channel_lists a ->
  wp (config_set_args a) (fun _ => holds_stale (prefix ++ "0") v)
     (fun _ _ => True) s.
Proof.
  unfold channel_lists. intros Hin.
  repeat (apply elem_of_cons in Hin as [Hin | Hin]);
    [injection Hin as -> Hl .. | inversion Hin];
    unfold config_set_args; rewrite <- Hl; hs_go.
Qed.

Lemma channel_zero_not_device_field a prefix l :
  (prefix, l) ∈ channel_lists a -> prefix ++ "0" ∉ config_device_fields.
Proof.
  unfold channel_lists. intros Hin.
  repeat (apply elem_of_cons in Hin as [Hin | Hin]);
    [injection Hin as -> _ .. | inversion Hin];
    unfold config_device_fields; intros H;
    repeat (apply elem_of_cons in H as [H | H]; [discriminate H |]);
    inversion H.
Qed.

(** X8. [config] numbers the entries of a per-channel list from 0 when it
    stores them and the channels from 1 when it configures them.  So the
    first entry of [coupling], [channel_range], [impedence] or [bwlimit] is
    stored in the field [<prefix>0], which no device call reads: when the
    arguments were accepted, at the end of [config] that field holds the
    code of the entry, still marked as not up to date, and the code was
    never read for the device. *)
Theorem config_first_channel_entry_unused dll a st prefix v vs :
  (prefix, Some (v :: vs)) ∈ channel_lists a ->
  fst (config_set_args a st) = inr tt ->
  holds_stale (prefix ++ "0") v (snd (config dll a st))
  /\ exists new,
       trace (snd (config dll a st)) = (trace st ++ new)%list
       /\ (EvGetByte (prefix ++ "0") ∉ new).
Proof.
  intros Hin Hok.
  pose proof (channel_zero_not_device_field a prefix _ Hin) as Hnm.
  pose proof (config_set_args_first a prefix v vs st Hin) as Hwp.
  pose proof (config_set_args_trace a st) as Htr.
  rewrite config_run. unfold wp in Hwp.
  destruct (config_set_args a st) as [[e | []] s1]; [discriminate Hok |].
  cbn [snd] in Htr.
  destruct (config_device_calls_frame dll s1 _ Hnm)
    as (Hp & new & Ht & Hg & _).
  split.
  - destruct Hwp as (p & b & Hlk & H). exists p, b. rewrite Hp.
    split; assumption.
  - exists new. rewrite Ht, Htr. split; [reflexivity | exact Hg].
Qed.

Lemma config_first_channel_entry_unused_witness :
  holds_stale "coupling0" (PInt 2)
    (snd (config Fixture.always_ok ChannelFixture.coupling_args
            ChannelFixture.board))
  /\ exists new,
       trace (snd (config Fixture.always_ok ChannelFixture.coupling_args
                     ChannelFixture.board))
       = (trace ChannelFixture.board ++ new)%list
       /\ (EvGetByte "coupling0" ∉ new).
Proof.
  apply (config_first_channel_entry_unused Fixture.always_ok
           ChannelFixture.coupling_args ChannelFixture.board
           "coupling" (PInt 2) [PInt 1]).
  - unfold channel_lists. left.
  - vm_compute. reflexivity.
Defined.

(** ** acquire: commits only after arming *)

Lemma no_commit_since_refl s : no_commit_since s s.
Proof. exists []. rewrite app_nil_r. split; [reflexivity | constructor]. Qed.

Lemma no_commit_since_app s0 s s' mid :
  no_commit_since s0 s ->
  trace s' = (trace s ++ mid)%list ->
  Forall (fun e => ~ is_commit e) mid ->
  no_commit_since s0 s'.
Proof.
  intros (new & Ht & Hn) Ht' Hmid. exists (new ++ mid)%list.
  rewrite Ht', Ht, <- app_assoc. split; [reflexivity |].
  apply Forall_app. split; assumption.
Qed.

Lemma no_commit_since_event s0 s e :
  ~ is_commit e -> no_commit_since s0 s ->
  no_commit_since s0 (with_trace (trace s ++ [e]) s).
Proof.
  intros He H. apply (no_commit_since_app s0 s _ [e] H); [reflexivity |].
  constructor; [exact He | constructor].
Qed.

Lemma armed_since_event s0 s e :
  armed_since s0 s -> armed_since s0 (with_trace (trace s ++ [e]) s).
Proof.
  intros (pre & post & Ht & H). exists pre, (post ++ [e])%list.
  st_simpl. rewrite Ht, <- !app_assoc. split; [reflexivity | exact H].
Qed.

Lemma check_mode_supported s0 s :
  no_commit_since s0 s ->
  wp acquire_check_mode
     (fun _ s' => no_commit_since s0 s' /\ supported_mode s')
     (fun _ => no_commit_since s0) s.
Proof.
  intros H. unfold acquire_check_mode. rewrite wp_bind, wp_param_get.
  destruct (parameters s !! "mode") as [p |] eqn:Hp; [| exact H].
  destruct (AlazarParameter.get p) as [e | m] eqn:Hget; [exact H |].
  rewrite wp_bind. unfold py_eq. case_bool_decide as Hts.
  - rewrite wp_ret'. rewrite wp_ret'. split; [exact H |].
    exists p. subst m. auto.
  - rewrite wp_bind, wp_param_get, Hp, Hget, wp_ret'.
    case_bool_decide as Hnpt.
    + rewrite wp_ret'. split; [exact H |]. exists p. subst m. auto.
    + exact H.
Qed.

Ltac ev_fin :=
  st_simpl; eexists;
  split; [rewrite <- ?app_assoc; reflexivity |];
  simpl; repeat (constructor; [exact (fun H => H) |]); constructor.

Lemma before_async_read_arms dll flags s :
  supported_mode s ->
  wp (acquire_before_async_read dll flags)
     (fun _ s' =>
        exists mid args,
          trace s'
          = (trace s ++ mid
               ++ [EvCall (Call "AlazarBeforeAsyncRead" args) _succes])%list
          /\ Forall (fun e => ~ is_commit e) mid)
     (fun _ s' =>
        exists mid,
          trace s' = (trace s ++ mid)%list
          /\ Forall (fun e => ~ is_commit e) mid) s.
Proof.
  assert (Hnil : exists mid,
             trace s = (trace s ++ mid)%list
             /\ Forall (fun e => ~ is_commit e) mid).
  { exists []. rewrite app_nil_r. split; [reflexivity | constructor]. }
  intros (p & Hp & Hget). unfold acquire_before_async_read.
  rewrite wp_bind, wp_param_get, Hp.
  destruct Hget as [Hget | Hget]; rewrite Hget.
  - replace (py_eq (PStr "NPT") (PStr "NPT")) with true
      by (vm_compute; reflexivity).
    rewrite wp_bind, wp_get_byte.
    destruct (parameters s !! "samples_per_record") as [p1 |]; [| exact Hnil].
    st_simpl. rewrite wp_bind, wp_get_byte. st_simpl.
    destruct (parameters s !! "records_per_buffer") as [p2 |];
      [| ev_fin].
    rewrite wp_bind, wp_get_byte. st_simpl.
    destruct (parameters s !! "buffers_per_acquisition") as [p3 |];
      [| ev_fin].
    rewrite wp_bind, wp_lift.
    destruct (py_mul _ _) as [e | rpa];
      [ ev_fin |].
    rewrite wp_bind, wp_lift.
    destruct (py_mul _ _) as [e | spb];
      [ ev_fin |].
    rewrite wp_bind, wp_assign_samples_per_buffer.
    rewrite wp_bind, wp_get_byte. st_simpl.
    destruct (parameters s !! "channel_selection") as [p4 |];
      [| ev_fin].
    rewrite wp_bind, wp_get_byte. st_simpl.
    destruct (parameters s !! "transfer_offset") as [p5 |];
      [| ev_fin].
    rewrite wp_bind, wp_dll_call, wp_check. st_simpl.
    destruct (_result_handler _ "AlazarBeforeAsyncRead") as [e | []] eqn:Hrc.
    + ev_fin.
    + apply result_handler_ok in Hrc. rewrite Hrc.
      exists [EvGetByte "samples_per_record"; EvGetByte "records_per_buffer";
              EvGetByte "buffers_per_acquisition";
              EvGetByte "channel_selection"; EvGetByte "transfer_offset"].
      eexists. split; [rewrite <- !app_assoc; reflexivity |].
      repeat (constructor; [exact (fun H => H) |]). constructor.
  - replace (py_eq (PStr "TS") (PStr "NPT")) with false
      by (vm_compute; reflexivity).
    rewrite wp_bind, wp_param_get, Hp, Hget.
    replace (py_eq (PStr "TS") (PStr "TS")) with true
      by (vm_compute; reflexivity).
    rewrite wp_bind, wp_get_byte.
    destruct (parameters s !! "samples_per_record") as [p1 |]; [| exact Hnil].
    st_simpl. rewrite wp_bind, wp_param. st_simpl.
    destruct (parameters s !! "buffers_per_acquisition") as [p3 |];
      [| ev_fin].
    rewrite wp_bind, wp_lift. unfold py_mod_param.
    ev_fin.
Qed.

Lemma no_commit_since_final s0 s :
  no_commit_since s0 s ->
  exists new,
    trace s = (trace s0 ++ new)%list
    /\ forall pre nm post,
         new = (pre ++ EvSetUpdated nm :: post)%list -> Exists is_armed pre.
Proof.
  intros (new & Ht & Hn). exists new. split; [exact Ht |].
  intros pre nm post ->. apply Forall_app in Hn as [_ Hn].
  apply Forall_cons in Hn as [Hn _]. exfalso. apply Hn. exact Logic.I.
Qed.

Lemma armed_since_final s0 s :
  armed_since s0 s ->
  exists new,
    trace s = (trace s0 ++ new)%list
    /\ forall pre nm post,
         new = (pre ++ EvSetUpdated nm :: post)%list -> Exists is_armed pre.
Proof.
  intros (pre0 & post0 & Ht & Hn & Ha). exists (pre0 ++ post0)%list.
  split; [exact Ht |]. intros pre nm post Heq.
  apply app_eq_inv in Heq as [(k & -> & Hk) | (k & -> & Hk)].
  - destruct k as [| e k].
    + rewrite app_nil_r in Ha. exact Ha.
    + exfalso. apply Forall_app in Hn as [_ Hn]. cbn in Hk.
      injection Hk as <- _. apply Forall_cons in Hn as [Hn _].
      apply Hn. exact Logic.I.
  - apply Exists_app. left. exact Ha.
Qed.

(** X9. [acquire] marks a field up to date only after the acquisition was
    armed: in the history of every run, each commit is preceded by a call
    of [AlazarBeforeAsyncRead] that returned the success code. *)
Theorem acquire_commits_only_when_armed dll fuel a s :
  exists new,
    trace (snd (acquire dll fuel a s)) = (trace s ++ new)%list
    /\ forall pre nm post,
         new = (pre ++ EvSetUpdated nm :: post)%list -> Exists is_armed pre.
Proof.
  set (F := fun s' : t =>
              exists new,
                trace s' = (trace s ++ new)%list
                /\ forall pre nm post,
                     new = (pre ++ EvSetUpdated nm :: post)%list ->
                     Exists is_armed pre).
  set (N := no_commit_since s).
  set (B := fun s' : t => no_commit_since s s' /\ supported_mode s').
  set (A := armed_since s).
  assert (HNF : forall (e : exc) s', N s' -> F s')
    by (intros _ s'; apply no_commit_since_final).
  assert (HBF : forall (e : exc) s', B s' -> F s')
    by (intros _ s' [H _]; apply no_commit_since_final, H).
  assert (HAF : forall (e : exc) s', A s' -> F s')
    by (intros _ s'; apply armed_since_final).
  assert (HBtr : forall s' e, ~ is_commit e -> B s' ->
                   B (with_trace (trace s' ++ [e]) s')).
  { intros s' e He [H1 H2]. split; [| exact H2].
    apply no_commit_since_event; assumption. }
  assert (HAtr : forall s' e, True -> A s' ->
                   A (with_trace (trace s' ++ [e]) s')).
  { intros s' e _ H. apply armed_since_event, H. }
  apply (proj1 (wp_final _ F s)). unfold acquire. rewrite wp_bind.
  eapply wp_mono with (Q := fun _ => N) (E := fun _ => N);
    [ | exact HNF
      | apply (frame_acquire_set_args N (fun _ => True));
        [ intros s' nm p _ H; exact H | intros; exact Logic.I
        | apply no_commit_since_refl ] ].
  intros ? s1 H1. rewrite wp_bind.
  eapply wp_mono with (Q := fun _ => B) (E := fun _ => N);
    [ | exact HNF | apply check_mode_supported, H1 ].
  intros ? s2 H2. rewrite wp_bind.
  eapply wp_mono with (Q := fun _ => B) (E := fun _ => B);
    [ | exact HBF
      | apply (frame_channel_info dll B (fun e => ~ is_commit e));
        [ exact HBtr | intros c rc H; exact H | exact H2 ] ].
  intros ? s3 H3. rewrite wp_bind.
  eapply wp_mono with (Q := fun _ => B) (E := fun _ => B);
    [ | exact HBF
      | apply (frame_record_size dll B (fun e => ~ is_commit e));
        [ exact HBtr | intros nm H; exact H | intros c rc H; exact H
        | exact H3 ] ].
  intros ? s4 H4. rewrite wp_bind.
  eapply wp_mono with (Q := fun _ => B) (E := fun _ => B);
    [ | exact HBF
      | apply (frame_flags B (fun e => ~ is_commit e));
        [ exact HBtr | intros s' n H; exact H | intros s' n H; exact H
        | intros nm H; exact H | exact H4 ] ].
  intros flags s5 [H5 Hm5]. rewrite wp_bind.
  eapply wp_mono with (Q := fun _ => A) (E := fun _ => N);
    [ | exact HNF | eapply wp_mono;
                    [ | | apply (before_async_read_arms dll flags s5 Hm5) ] ].
  - intros ? s6 H6. rewrite wp_bind.
    eapply wp_mono with (Q := fun _ => A) (E := fun _ => A);
      [ | exact HAF
        | apply (frame_commit A (fun _ => True) (fun _ => True));
          [ exact HAtr | intros s' nm p _ H; exact H | intros; exact Logic.I
          | intros; exact Logic.I | exact H6 ] ].
    intros ? s7 H7. apply wp_final.
    apply armed_since_final.
    apply (frame_capture dll A (fun _ => True));
      [ exact HAtr | intros; exact Logic.I | exact H7 ].
  - intros ? s6 (mid & args & Ht & Hmid). cbv beta.
    destruct H5 as (new & Hn & Hnew).
    exists (new ++ mid ++ [EvCall (Call "AlazarBeforeAsyncRead" args) _succes])%list,
           [].
    rewrite app_nil_r, Ht, Hn, <- !app_assoc. split; [reflexivity |].
    split.
    + apply Forall_app. split; [exact Hnew |].
      apply Forall_app. split; [exact Hmid |].
      constructor; [exact (fun H => H) | constructor].
    + apply Exists_app. right. apply Exists_app. right. left.
      eexists. reflexivity.
  - intros e s6 (mid & Ht & Hmid). cbv beta.
    apply (no_commit_since_app s s5 s6 mid H5 Ht Hmid).
Qed.

(** ** config: the calls of a run that returns *)

Section Sent.

Variable dll : driver.
Variable st1 : t.

Lemma sent_collect cs ns names s :
  sent st1 cs ns s ->
  wp (collect names get_byte)
     (fun codes s' => codes = map (code st1) names /\ sent st1 cs ns s')
     (fun _ _ => True) s.
Proof.
  revert s. induction names as [| n names IH]; intros s H.
  - split; [reflexivity | exact H].
  - cbn [collect]. rewrite wp_bind, wp_get_byte.
    destruct (parameters s !! n) as [p |] eqn:Hp; [| exact Logic.I].
    rewrite wp_bind. eapply wp_mono; [ | | apply IH ].
    + intros ys s' [-> Hs']. split; [| exact Hs']. cbn [map]. f_equal.
      destruct H as (_ & Hc & _). rewrite <- Hc. unfold code. rewrite Hp.
      reflexivity.
    + intros; exact Logic.I.
    + destruct H as (Hcalls & Hc & Hu). split; [| split].
      * st_simpl. rewrite calls_snoc_get_byte. exact Hcalls.
      * exact Hc.
      * exact Hu.
Qed.

Lemma sent_for_each_set_updated cs ns names s :
  sent st1 cs ns s ->
  wp (for_each names set_updated)
     (fun _ => sent st1 cs (ns ++ names)) (fun _ _ => True) s.
Proof.
  revert ns s. induction names as [| n names IH]; intros ns s H.
  - rewrite app_nil_r. exact H.
  - cbn [for_each]. rewrite wp_bind, wp_set_updated.
    destruct (parameters s !! n) as [p |] eqn:Hp; [| exact Logic.I].
    replace (ns ++ n :: names)%list with ((ns ++ [n]) ++ names)%list
      by (rewrite <- app_assoc; reflexivity).
    apply IH. destruct H as (Hcalls & Hc & Hu). split; [| split].
    + st_simpl. rewrite calls_snoc_set_updated. exact Hcalls.
    + intros nm. rewrite <- Hc. unfold code. st_simpl.
      destruct (decide (nm = n)) as [-> | Hne].
      * rewrite lookup_insert_eq, Hp. reflexivity.
      * rewrite lookup_insert_ne by congruence. reflexivity.
    + intros nm Hnm. unfold uptodate. st_simpl.
      destruct (decide (nm = n)) as [-> | Hne].
      * rewrite lookup_insert_eq. eexists. split; reflexivity.
      * rewrite lookup_insert_ne by congruence.
        apply elem_of_app in Hnm as [Hnm | Hnm]; [apply Hu, Hnm |].
        apply list_elem_of_singleton in Hnm. contradiction.
Qed.

Lemma sent_device_step cs ns f pre names src s :
  sent st1 cs ns s ->
  wp (device_step dll f pre names src)
     (fun _ =>
        sent st1
          (cs ++ [(Call f (pre ++ map (code st1) names), _succes)])
          (ns ++ names))
     (fun _ _ => True) s.
Proof.
  intros H. unfold device_step. rewrite wp_bind.
  eapply wp_mono; [ | | apply sent_collect, H ]; [| intros; exact Logic.I].
  intros codes s1 [-> H1]. cbv beta. rewrite wp_bind, wp_dll_call.
  rewrite wp_bind, wp_check.
  destruct (_result_handler _ src) as [e | []] eqn:Hrc; [exact Logic.I |].
  apply result_handler_ok in Hrc.
  apply sent_for_each_set_updated.
  destruct H1 as (Hcalls & Hc & Hu). split; [| split].
  - st_simpl. rewrite calls_app, Hcalls, <- app_assoc. cbn [calls omap].
    rewrite Hrc. reflexivity.
  - exact Hc.
  - exact Hu.
Qed.

Ltac sent_go H :=
  cbv beta;
  lazymatch goal with
  | |- wp (mbind _ _) _ _ _ => rewrite wp_bind; sent_go H
  | |- wp (device_step _ _ _ _ _) _ _ _ =>
      eapply wp_mono; [ | | apply sent_device_step, H ];
      [ let H' := fresh "H" in intros ? ? H'; sent_go H'
      | intros; exact Logic.I ]
  | |- wp (AlazarTech_ATS.ret _) _ _ _ => rewrite wp_ret'; sent_go H
  | |- _ => exact H
  end.

Lemma sent_config_device_calls s :
  sent st1 [] [] s ->
  let c := code st1 in
  wp (config_device_calls dll)
     (fun _ =>
        sent st1
          [(Call "AlazarSetCaptureClock"
              [c "clock_source"; c "sample_rate"; c "clock_edge";
               c "decimation"], _succes);
           (Call "AlazarInputControl"
              [Some 1; c "coupling1"; c "range1"; c "impedence1"], _succes);
           (Call "AlazarSetBWLimit" [Some 1; c "bwlimit1"], _succes);
           (Call "AlazarInputControl"
              [Some 2; c "coupling2"; c "range2"; c "impedence2"], _succes);
           (Call "AlazarSetBWLimit" [Some 2; c "bwlimit2"], _succes);
           (Call "AlazarSetTriggerOperation"
              [c "trigger_operation";
               c "trigger_engine1"; c "trigger_source1"; c "trigger_slope1";
               c "trigger_level1";
               c "trigger_engine2"; c "trigger_source2"; c "trigger_slope2";
               c "trigger_level2"], _succes);
           (Call "AlazarSetExternalTrigger"
              [c "external_trigger_coupling"; c "trigger_range"], _succes);
           (Call "AlazarSetTriggerDelay" [c "trigger_delay"], _succes);
           (Call "AlazarSetTriggerTimeOut" [c "timeout_ticks"], _succes)]
          config_device_fields)
     (fun _ _ => True) s.
Proof.
  intros H c. unfold config_device_calls. cbn [for_each]. sent_go H.
Qed.

End Sent.

(** X10. A run of [config] that returns has made exactly nine library
    calls, in the order of the source, each answered with the success code:
    the clock, then input control and bandwidth limit for channel 1 and for
    channel 2, then the trigger operation, the external trigger, the
    trigger delay and the trigger timeout.  Each call carried the codes the
    fields held after the arguments were stored; these codes are unchanged
    at the end, and all twenty-five fields are marked up to date. *)
Theorem config_success_calls dll a st :
  fst (config dll a st) = inr tt ->
  let st1 := snd (config_set_args a st) in
  let sf := snd (config dll a st) in
  let c := code st1 in
  calls (trace sf)
  = (calls (trace st)
     ++ [(Call "AlazarSetCaptureClock"
            [c "clock_source"; c "sample_rate"; c "clock_edge";
             c "decimation"], 512);
         (Call "AlazarInputControl"
            [Some 1; c "coupling1"; c "range1"; c "impedence1"], 512);
         (Call "AlazarSetBWLimit" [Some 1; c "bwlimit1"], 512);
         (Call "AlazarInputControl"
            [Some 2; c "coupling2"; c "range2"; c "impedence2"], 512);
         (Call "AlazarSetBWLimit" [Some 2; c "bwlimit2"], 512);
         (Call "AlazarSetTriggerOperation"
            [c "trigger_operation";
             c "trigger_engine1"; c "trigger_source1"; c "trigger_slope1";
             c "trigger_level1";
             c "trigger_engine2"; c "trigger_source2"; c "trigger_slope2";
             c "trigger_level2"], 512);
         (Call "AlazarSetExternalTrigger"
            [c "external_trigger_coupling"; c "trigger_range"], 512);
         (Call "AlazarSetTriggerDelay" [c "trigger_delay"], 512);
         (Call "AlazarSetTriggerTimeOut" [c "timeout_ticks"], 512)])%list
  /\ (forall nm, nm ∈ config_device_fields -> uptodate sf nm)
  /\ (forall nm, code sf nm = c nm).
Proof.
  intros Hok st1 sf c. subst st1 sf c.
  pose proof (config_set_args_trace a st) as Htr.
  rewrite config_run in *.
  destruct (config_set_args a st) as [[e | []] s1]; [discriminate Hok |].
  cbn [snd] in *.
  assert (H0 : sent s1 [] [] s1).
  { split; [rewrite app_nil_r; reflexivity |]. split; [reflexivity |].
    intros nm Hnm. inversion Hnm. }
  pose proof (sent_config_device_calls dll s1 s1 H0) as Hwp.
  cbv zeta in Hwp. unfold wp in Hwp.
  destruct (config_device_calls dll s1) as [[e | []] sf];
    [discriminate Hok |].
  cbn [snd]. destruct Hwp as (Hcalls & Hc & Hu).
  rewrite Hcalls, Htr. split; [reflexivity |]. split; assumption.
Qed.

Lemma config_success_calls_witness :
  List.length
    (calls (trace (snd (config Fixture.always_ok Fixture.no_config_args
                          (Fixture.board Fixture.config_fields)))))
  = 9%nat.
Proof.
  destruct (config_success_calls Fixture.always_ok Fixture.no_config_args
              (Fixture.board Fixture.config_fields)) as (Hcalls & _).
  - vm_compute. reflexivity.
  - rewrite Hcalls. reflexivity.
Defined.

(** ** acquire: the argument [external_startcapture] *)

Lemma same_except_refl nm s : same_except nm s s.
Proof. repeat split; auto. Qed.

Lemma same_except_sym nm s s' : same_except nm s s' -> same_except nm s' s.
Proof.
  intros (H1 & H2 & H3 & H4 & H5 & H6 & H7 & H8 & H9).
  repeat split; try congruence; try apply H9.
  intros n Hn. symmetry. apply H8, Hn.
Qed.

Lemma same_except_trans nm s1 s2 s3 :
  same_except nm s1 s2 -> same_except nm s2 s3 -> same_except nm s1 s3.
Proof.
  intros (H1 & H2 & H3 & H4 & H5 & H6 & H7 & H8 & H9)
         (K1 & K2 & K3 & K4 & K5 & K6 & K7 & K8 & K9).
  repeat split; try congruence.
  - intros n Hn. rewrite H8, K8 by exact Hn. reflexivity.
  - intros H. apply K9, H9, H.
  - intros H. apply H9, K9, H.
Qed.

Section Ignores.

Variable nm : string.

Lemma ignores_ret {A} (a : A) : ignores nm (mret a).
Proof. intros s s' H. split; [reflexivity | exact H]. Qed.

Lemma ignores_ret' {A} (a : A) : ignores nm (AlazarTech_ATS.ret a).
Proof. intros s s' H. split; [reflexivity | exact H]. Qed.

Lemma ignores_raise {A} (e : exc) : ignores nm (raise e : M A).
Proof. intros s s' H. split; [reflexivity | exact H]. Qed.

Lemma ignores_lift {A} (r : res A) : ignores nm (lift r).
Proof. intros s s' H. split; [reflexivity | exact H]. Qed.

Lemma ignores_bind {A B} (m : M A) (f : A -> M B) :
  ignores nm m -> (forall a, ignores nm (f a)) -> ignores nm (m ≫= f).
Proof.
  intros Hm Hf s s' H. rewrite !bind_run.
  destruct (Hm s s' H) as [H1 H2].
  destruct (m s) as [[e | a] s1], (m s') as [[e' | a'] s1'];
    cbn [fst snd] in *; try discriminate.
  - injection H1 as <-. split; [reflexivity | exact H2].
  - injection H1 as <-. apply Hf, H2.
Qed.

Lemma ignores_param n : n <> nm -> ignores nm (param n).
Proof.
  intros Hn s s' H. unfold param.
  assert (parameters s !! n = parameters s' !! n) as -> by (apply H, Hn).
  destruct (parameters s' !! n); cbn [fst snd];
    (split; [reflexivity | exact H]).
Qed.

Lemma ignores_store n p : ignores nm (store n p).
Proof.
  intros s s' (H1 & H2 & H3 & H4 & H5 & H6 & H7 & H8 & H9).
  unfold store. cbn [fst snd]. split; [reflexivity |].
  repeat split; st_simpl; auto.
  - intros k Hk. destruct (decide (k = n)) as [-> | Hne].
    + rewrite !lookup_insert_eq. reflexivity.
    + rewrite !lookup_insert_ne by congruence. apply H8, Hk.
  - destruct (decide (nm = n)) as [-> | Hne].
    + rewrite !lookup_insert_eq. eauto.
    + rewrite !lookup_insert_ne by congruence. apply H9.
  - destruct (decide (nm = n)) as [-> | Hne].
    + rewrite !lookup_insert_eq. eauto.
    + rewrite !lookup_insert_ne by congruence. apply H9.
Qed.

Lemma ignores_emit e : ignores nm (emit e).
Proof.
  intros s s' (H1 & H2 & H3 & H4 & H5 & H6 & H7 & H8 & H9).
  unfold emit. cbn [fst snd]. split; [reflexivity |].
  repeat split; st_simpl; auto; try apply H9. rewrite H4. reflexivity.
Qed.

Lemma ignores_warning msg : ignores nm (warning msg).
Proof.
  intros s s' (H1 & H2 & H3 & H4 & H5 & H6 & H7 & H8 & H9).
  unfold warning. cbn [fst snd]. split; [reflexivity |].
  repeat split; st_simpl; auto; try apply H9. rewrite H5. reflexivity.
Qed.

Lemma ignores_assign_number_of_channels n :
  ignores nm (assign_number_of_channels n).
Proof.
  intros s s' (H1 & H2 & H3 & H4 & H5 & H6 & H7 & H8 & H9).
  split; [reflexivity |]. repeat split; auto; try apply H9.
Qed.

Lemma ignores_assign_samples_per_buffer n :
  ignores nm (assign_samples_per_buffer n).
Proof.
  intros s s' (H1 & H2 & H3 & H4 & H5 & H6 & H7 & H8 & H9).
  split; [reflexivity |]. repeat split; auto; try apply H9.
Qed.

Lemma ignores_dll_call dll f a : ignores nm (dll_call dll f a).
Proof.
  intros s s' (H1 & H2 & H3 & H4 & H5 & H6 & H7 & H8 & H9).
  unfold dll_call. cbn [fst snd]. rewrite H4. split; [reflexivity |].
  repeat split; st_simpl; auto; apply H9.
Qed.

Lemma ignores_attr_buflist : ignores nm attr_buflist.
Proof.
  intros s s' H. unfold attr_buflist.
  assert (buflist s = buflist s') as -> by apply H.
  destruct (buflist s'); cbn [fst snd]; (split; [reflexivity | exact H]).
Qed.

Lemma ignores_attr_waittimeout : ignores nm attr_waittimeout.
Proof.
  intros s s' H. unfold attr_waittimeout.
  assert (waittimeout s = waittimeout s') as -> by apply H.
  destruct (waittimeout s'); cbn [fst snd];
    (split; [reflexivity | exact H]).
Qed.

(** Marking up to date is blind: it does not matter which field it is. *)
Lemma ignores_set_updated n : ignores nm (set_updated n).
Proof.
  destruct (decide (n = nm)) as [-> | Hn].
  - intros s s' H. rewrite !set_updated_run.
    destruct H as (H1 & H2 & H3 & H4 & H5 & H6 & H7 & H8 & H9).
    destruct (parameters s !! nm) as [p |] eqn:Hp,
             (parameters s' !! nm) as [p' |] eqn:Hp'; cbn [fst snd].
    + split; [reflexivity |]. repeat split; st_simpl; auto.
      * rewrite H4. reflexivity.
      * intros k Hk. rewrite !lookup_insert_ne by congruence. apply H8, Hk.
      * rewrite !lookup_insert_eq. eauto.
      * rewrite !lookup_insert_eq. eauto.
    + destruct H9 as [H9 _]. destruct H9 as [? [=]]. eauto.
    + destruct H9 as [_ H9]. destruct H9 as [? [=]]. eauto.
    + split; [reflexivity |]. repeat split; auto; rewrite ?Hp, ?Hp'; auto.
  - unfold set_updated. apply ignores_bind; [apply ignores_param, Hn |].
    intros p. apply ignores_bind; [apply ignores_store |].
    intros ?. apply ignores_emit.
Qed.

Lemma ignores_for_each {A} (l : list A) (body : A -> M unit) :
  (forall x, ignores nm (body x)) -> ignores nm (for_each l body).
Proof.
  intros Hb. induction l as [| x l IH]; [apply ignores_ret' |].
  cbn [for_each]. apply ignores_bind; [apply Hb | intros ?; exact IH].
Qed.

Lemma ignores_py_while fuel (cond : M bool) (body : M unit) :
  ignores nm cond -> ignores nm body -> ignores nm (py_while fuel cond body).
Proof.
  intros Hc Hb. induction fuel as [| fuel IH]; [apply ignores_raise |].
  cbn [py_while]. apply ignores_bind; [exact Hc |].
  intros [|]; [| apply ignores_ret'].
  apply ignores_bind; [exact Hb | intros ?; exact IH].
Qed.

End Ignores.

Ltac ig :=
  repeat
    first
      [ apply ignores_set_updated
      | apply ignores_dll_call
      | apply ignores_emit
      | apply ignores_store
      | apply ignores_warning
      | apply ignores_assign_number_of_channels
      | apply ignores_assign_samples_per_buffer
      | apply ignores_attr_buflist
      | apply ignores_attr_waittimeout
      | apply ignores_ret'
      | apply ignores_ret
      | apply ignores_raise
      | apply ignores_lift
      | apply ignores_param; discriminate
      | apply ignores_for_each; intros ?
      | apply ignores_py_while
      | progress unfold get_byte, param_get, param_set, check, if_given,
                        post_buffer, load_global
      | progress cbv zeta
      | lazymatch goal with
        | |- ignores _ (mbind _ _) => apply ignores_bind; [| intros ?]
        | |- ignores _ (if ?b then _ else _) => destruct b
        | |- ignores _ (match ?x with _ => _ end) => destruct x
        end ].

Lemma acquire_body_ignores dll fuel :
  ignores "external_starcapture"
    (acquire_check_mode;;
     acquire_channel_info dll;;
     acquire_record_size dll;;
     flags ← acquire_flags;
     acquire_before_async_read dll flags;;
     acquire_commit;;
     acquire_capture dll fuel).
Proof.
  unfold acquire_check_mode, acquire_channel_info, acquire_record_size,
    acquire_flags, acquire_before_async_read, acquire_commit,
    acquire_capture.
  ig.
Qed.

Lemma if_given_set_same_except nm v s :
  fst (if_given v (param_set nm) s) = inr tt ->
  same_except nm s (snd (if_given v (param_set nm) s)).
Proof.
  assert (Hwp : wp (if_given v (param_set nm))
                   (fun _ s' => same_except nm s s') (fun _ _ => True) s).
  { rewrite wp_if_given.
    assert (Hset : wp (param_set nm v)
                      (fun _ s' => same_except nm s s') (fun _ _ => True) s).
    { rewrite wp_param_set.
      destruct (parameters s !! nm) as [p |] eqn:Hp; [| exact Logic.I].
      destruct (AlazarParameter._set p v); [exact Logic.I |].
      repeat split; st_simpl; auto;
        first [ intros n Hn; rewrite lookup_insert_ne by congruence;
                reflexivity
              | rewrite lookup_insert_eq; eauto
              | rewrite Hp; eauto ]. }
    destruct v; [apply same_except_refl | exact Hset | exact Hset]. }
  unfold wp in Hwp.
  destruct (if_given v (param_set nm) s) as [[e | []] s']; [discriminate |].
  intros _. exact Hwp.
Qed.

Ltac set_args_step Hok Hok' :=
  rewrite bind_run in Hok, Hok';
  rewrite !bind_run;
  lazymatch type of Hok with
  | context [match ?m ?s with _ => _ end] =>
      destruct (m s) as [[? | []] ?];
      cbv beta iota in Hok, Hok' |- *;
      [cbn [fst] in Hok; discriminate Hok |]
  end.

Lemma acquire_set_args_same_except a v st :
  fst (acquire_set_args a st) = inr tt ->
  fst (acquire_set_args (with_external_startcapture v a) st) = inr tt ->
  same_except "external_starcapture"
    (snd (acquire_set_args a st))
    (snd (acquire_set_args (with_external_startcapture v a) st)).
Proof.
  unfold acquire_set_args, with_external_startcapture.
  cbn [mode samples_per_record records_per_buffer buffers_per_acquisition
       channel_selection transfer_offset external_startcapture
       enable_record_headers alloc_buffers fifo_only_streaming
       interleave_samples get_processed_data].
  intros Hok Hok'.
  do 6 set_args_step Hok Hok'.
  rewrite bind_run in Hok, Hok'. rewrite !bind_run.
  lazymatch type of Hok with
  | context [match if_given _ _ ?s with _ => _ end] =>
      pose proof (if_given_set_same_except "external_starcapture"
                    (external_startcapture a) s) as H7;
      pose proof (if_given_set_same_except "external_starcapture" v s)
        as H7';
      destruct (if_given (external_startcapture a)
                  (param_set "external_starcapture") s) as [[e | []] s7];
      [cbv beta iota in Hok; cbn [fst] in Hok; discriminate Hok |];
      destruct (if_given v (param_set "external_starcapture") s)
        as [[e | []] s7'];
      [cbv beta iota in Hok'; cbn [fst] in Hok'; discriminate Hok' |]
  end.
  cbv beta iota in Hok, Hok' |- *.
  cbn [fst snd] in H7, H7'.
  assert (Hse : same_except "external_starcapture" s7 s7').
  { eapply same_except_trans; [apply same_except_sym, H7 | apply H7'];
      reflexivity. }
  lazymatch goal with
  | |- same_except _ (snd (?m s7)) _ =>
      assert (Hig : ignores "external_starcapture" m) by ig
  end.
  apply (Hig s7 s7' Hse).
Qed.

(** X11. The argument [external_startcapture] of [acquire] has no effect
    on the run.  It is stored in the field [external_starcapture], which
    nothing reads: two calls that differ in this argument only, and whose
    arguments are both accepted, end in the same way, record the same
    history of library calls, reads and commits, and leave every field but
    [external_starcapture] the same. *)
Theorem acquire_ignores_external_startcapture dll fuel a v st :
  fst (acquire_set_args a st) = inr tt ->
  fst (acquire_set_args (with_external_startcapture v a) st) = inr tt ->
  let r := acquire dll fuel a st in
  let r' := acquire dll fuel (with_external_startcapture v a) st in
  fst r = fst r'
  /\ trace (snd r) = trace (snd r')
  /\ (forall nm, nm <> "external_starcapture" ->
        parameters (snd r) !! nm = parameters (snd r') !! nm).
Proof.
  intros Hok Hok' r r'. subst r r'.
  pose proof (acquire_set_args_same_except a v st Hok Hok') as Hse.
  unfold acquire. rewrite !bind_run.
  destruct (acquire_set_args a st) as [[e | []] s1];
    [discriminate Hok |].
  destruct (acquire_set_args (with_external_startcapture v a) st)
    as [[e | []] s1']; [discriminate Hok' |].
  cbn [snd] in Hse.
  destruct (acquire_body_ignores dll fuel s1 s1' Hse) as [Hr Hs].
  split; [exact Hr |]. split; [apply Hs | apply Hs].
Qed.

Lemma acquire_ignores_external_startcapture_witness :
  fst (acquire Fixture.always_ok 10
         (AcquireArgs PNone PNone PNone PNone PNone PNone
                      (PInt 0) PNone PNone PNone PNone PNone)
         Fixture.npt_board)
  = fst (acquire Fixture.always_ok 10 Fixture.no_args Fixture.npt_board).
Proof.
  apply (acquire_ignores_external_startcapture Fixture.always_ok 10
           (AcquireArgs PNone PNone PNone PNone PNone PNone
                        (PInt 0) PNone PNone PNone PNone PNone)
           PNone Fixture.npt_board);
    vm_compute; reflexivity.
Defined.

(** ** acquire: the exceptions it ends with *)

Section RaisesOnly.

Variable P : exc -> Prop.
Hypothesis HKey : forall m, P (KeyError m).
Hypothesis HType : forall m, P (TypeError m).

Lemma ro_ret {A} (a : A) : raises_only P (mret a).
Proof. intros s. exact Logic.I. Qed.

Lemma ro_ret' {A} (a : A) : raises_only P (AlazarTech_ATS.ret a).
Proof. intros s. exact Logic.I. Qed.

Lemma ro_raise {A} (e : exc) : P e -> raises_only P (raise e : M A).
Proof. intros He s. exact He. Qed.

Lemma ro_bind {A B} (m : M A) (f : A -> M B) :
  raises_only P m -> (forall a, raises_only P (f a)) ->
  raises_only P (m ≫= f).
Proof.
  intros Hm Hf s. rewrite bind_run. specialize (Hm s).
  destruct (m s) as [[e | a] s1]; cbn [fst] in *; [exact Hm | apply Hf].
Qed.

Lemma ro_param nm : raises_only P (param nm).
Proof.
  intros s. unfold param. destruct (parameters s !! nm); cbn [fst];
    [exact Logic.I | apply HKey].
Qed.

Lemma ro_store nm p : raises_only P (store nm p).
Proof. intros s. exact Logic.I. Qed.

Lemma ro_emit e : raises_only P (emit e).
Proof. intros s. exact Logic.I. Qed.

Lemma ro_dll_call dll f a : raises_only P (dll_call dll f a).
Proof. intros s. exact Logic.I. Qed.

Lemma ro_warning msg : raises_only P (warning msg).
Proof. intros s. exact Logic.I. Qed.

Lemma ro_assign_number_of_channels n :
  raises_only P (assign_number_of_channels n).
Proof. intros s. exact Logic.I. Qed.

Lemma ro_assign_samples_per_buffer n :
  raises_only P (assign_samples_per_buffer n).
Proof. intros s. exact Logic.I. Qed.

Lemma ro_get_byte nm : raises_only P (get_byte nm).
Proof.
  unfold get_byte. apply ro_bind; [apply ro_param | intros p].
  apply ro_bind; [apply ro_emit | intros ?; apply ro_ret].
Qed.

Lemma ro_set_updated nm : raises_only P (set_updated nm).
Proof.
  unfold set_updated. apply ro_bind; [apply ro_param | intros p].
  apply ro_bind; [apply ro_store | intros ?; apply ro_emit].
Qed.

Lemma ro_param_set nm v : raises_only P (param_set nm v).
Proof.
  unfold param_set. apply ro_bind; [apply ro_param | intros p].
  apply ro_bind; [| intros ?; apply ro_store].
  intros s. unfold lift. cbn [fst]. unfold AlazarParameter._set.
  destruct (AlazarParameter._value_to_byte_dict p !! v);
    [exact Logic.I | apply HKey].
Qed.

Lemma ro_param_get nm :
  P (Exception AlazarParameter.stale_msg) -> raises_only P (param_get nm).
Proof.
  intros Hstale. unfold param_get.
  apply ro_bind; [apply ro_param | intros p].
  intros s. unfold lift. cbn [fst]. unfold AlazarParameter.get.
  destruct (negb (AlazarParameter._uptodate_flag p)); [exact Hstale |].
  destruct (AlazarParameter._byte p) as [b |]; [| apply HKey].
  destruct (AlazarParameter._byte_to_value_dict p !! b);
    [exact Logic.I | apply HKey].
Qed.

Lemma ro_check rc src :
  (forall msg, error_codes !! rc = Some msg ->
     P (Exception (src ++ " raised " ++ pretty rc ++ ": " ++ msg))) ->
  raises_only P (check rc src).
Proof.
  intros Hst s. unfold check, lift. cbn [fst]. unfold _result_handler.
  case_bool_decide; [exact Logic.I |].
  destruct (error_codes !! rc) as [msg |]; [apply Hst; reflexivity |].
  apply HKey.
Qed.

Lemma ro_py_or a b : raises_only P (lift (py_or a b)).
Proof.
  intros s. unfold lift, py_or. cbn [fst].
  destruct a, b; first [exact Logic.I | apply HType].
Qed.

Lemma ro_py_mul a b : raises_only P (lift (py_mul a b)).
Proof.
  intros s. unfold lift, py_mul. cbn [fst].
  destruct a, b; first [exact Logic.I | apply HType].
Qed.

Lemma ro_py_mod_param a p : raises_only P (lift (py_mod_param a p)).
Proof. intros s. apply HType. Qed.

Lemma ro_py_truediv_param a p : raises_only P (lift (py_truediv_param a p)).
Proof. intros s. apply HType. Qed.

Lemma ro_if_given v nm : raises_only P (if_given v (param_set nm)).
Proof.
  destruct v; [apply ro_ret' | apply ro_param_set | apply ro_param_set].
Qed.

Lemma ro_for_each {A} (l : list A) (body : A -> M unit) :
  (forall x, raises_only P (body x)) -> raises_only P (for_each l body).
Proof.
  intros Hb. induction l as [| x l IH]; [apply ro_ret' |].
  cbn [for_each]. apply ro_bind; [apply Hb | intros ?; exact IH].
Qed.

(** A loop whose condition raises whenever it is evaluated. *)
Lemma ro_py_while_cond fuel (cond : M bool) (body : M unit) :
  (forall s, exists e, fst (cond s) = inl e /\ P e) ->
  raises_only P (py_while (S fuel) cond body).
Proof.
  intros Hc s. cbn [py_while]. rewrite bind_run.
  destruct (Hc s) as (e & He & HP).
  destruct (cond s) as [[e' | b] s1]; cbn [fst] in *; [| discriminate He].
  injection He as ->. exact HP.
Qed.

Lemma ro_lift {A} (r : res A) :
  match r with inl e => P e | inr _ => True end -> raises_only P (lift r).
Proof. intros Hr s. exact Hr. Qed.

Hypothesis HStale : P (Exception AlazarParameter.stale_msg).
Hypothesis HBits :
  P (Exception "Only 8 bits per sample supported at this moment").
Hypothesis HStatus :
  forall src rc msg,
    src ∈ acquire_calls -> error_codes !! rc = Some msg ->
    P (Exception (src ++ " raised " ++ pretty rc ++ ": " ++ msg)).
Hypothesis HBuflist :
  P (AttributeError "'AlazarTech_ATS' object has no attribute 'buflist'").
Hypothesis HSizeBytes :
  P (AttributeError "'Buffer' object has no attribute 'size_bytes'").
Hypothesis HLoop : P (NameError "name 'BuffersCompleted' is not defined").

Ltac ro :=
  repeat
    first
      [ apply ro_get_byte
      | apply ro_set_updated
      | apply ro_param_set
      | apply ro_param_get; exact HStale
      | apply ro_param
      | apply ro_dll_call
      | apply ro_warning
      | apply ro_assign_number_of_channels
      | apply ro_assign_samples_per_buffer
      | apply ro_py_or
      | apply ro_py_mul
      | apply ro_py_mod_param
      | apply ro_py_truediv_param
      | apply ro_check;
        (let msg := fresh "msg" in
         let Hmsg := fresh "Hmsg" in
         intros msg Hmsg; apply HStatus;
         [unfold acquire_calls; solve [repeat constructor] | exact Hmsg])
      | apply ro_ret'
      | apply ro_ret
      | apply ro_raise; exact HBits
      | apply ro_for_each; intros ?
      | progress cbv zeta
      | lazymatch goal with
        | |- raises_only _ (mbind _ _) => apply ro_bind; [| intros ?]
        | |- raises_only _ (if ?b then _ else _) => destruct b
        end ].

Lemma ro_acquire_set_args a : raises_only P (acquire_set_args a).
Proof.
  unfold acquire_set_args.
  repeat (apply ro_bind; [apply ro_if_given | intros ?]).
  apply ro_if_given.
Qed.

Lemma ro_acquire_channel_info dll : raises_only P (acquire_channel_info dll).
Proof. unfold acquire_channel_info. ro. Qed.

Lemma ro_acquire_record_size dll : raises_only P (acquire_record_size dll).
Proof. unfold acquire_record_size. ro. Qed.

Lemma ro_acquire_flags : raises_only P acquire_flags.
Proof. unfold acquire_flags. ro. Qed.

Lemma ro_acquire_before_async_read dll flags :
  raises_only P (acquire_before_async_read dll flags).
Proof. unfold acquire_before_async_read. ro. Qed.

Lemma ro_acquire_commit : raises_only P acquire_commit.
Proof. unfold acquire_commit. ro. Qed.

Lemma ro_post_buffer dll buf : raises_only P (post_buffer dll buf).
Proof.
  unfold post_buffer. apply ro_bind; [| intros ?; ro].
  apply ro_lift. exact HSizeBytes.
Qed.

Lemma ro_acquire_capture dll fuel :
  raises_only P (acquire_capture dll (S fuel)).
Proof.
  unfold acquire_capture. apply ro_bind; [| intros bl].
  - intros s. unfold attr_buflist. destruct (buflist s); cbn [fst];
      [exact Logic.I | exact HBuflist].
  - apply ro_bind; [apply ro_for_each; intros b; apply ro_post_buffer |].
    intros ?. apply ro_bind; [apply ro_dll_call | intros r].
    apply ro_bind; [ro | intros ?].
    apply ro_bind; [| intros ?; ro].
    apply ro_py_while_cond. intros s. eexists. split; [| exact HLoop].
    vm_compute. reflexivity.
Qed.

(** Everything [acquire] does after the mode check. *)
Lemma ro_acquire_after_check_mode dll fuel :
  raises_only P
    (acquire_channel_info dll;;
     acquire_record_size dll;;
     flags ← acquire_flags;
     acquire_before_async_read dll flags;;
     acquire_commit;;
     acquire_capture dll (S fuel)).
Proof.
  apply ro_bind; [apply ro_acquire_channel_info | intros ?].
  apply ro_bind; [apply ro_acquire_record_size | intros ?].
  apply ro_bind; [apply ro_acquire_flags | intros flags].
  apply ro_bind; [apply ro_acquire_before_async_read | intros ?].
  apply ro_bind; [apply ro_acquire_commit | intros ?].
  apply ro_acquire_capture.
Qed.

Lemma ro_acquire_check_mode :
  P (Exception unsupported_mode_msg) -> raises_only P acquire_check_mode.
Proof.
  intros HMode. unfold acquire_check_mode.
  apply ro_bind; [apply ro_param_get; exact HStale | intros m].
  apply ro_bind.
  - destruct (py_eq m (PStr "TS")); [apply ro_ret' |].
    apply ro_bind; [apply ro_param_get; exact HStale | intros ?].
    apply ro_ret'.
  - intros [|]; [apply ro_ret' | apply ro_raise, HMode].
Qed.

Lemma ro_acquire dll fuel a :
  P (Exception unsupported_mode_msg) ->
  raises_only P (acquire dll (S fuel) a).
Proof.
  intros HMode. unfold acquire.
  apply ro_bind; [apply ro_acquire_set_args | intros ?].
  apply ro_bind; [apply ro_acquire_check_mode, HMode | intros ?].
  apply ro_acquire_after_check_mode.
Qed.

End RaisesOnly.

(** X12. Every run of [acquire] ends with an exception, and it is one of
    these: [KeyError] (a field is missing, a value is outside the domain
    of its field, or the library returned a status code the table does not
    know); the stale-field error of [get]; the unsupported-mode error; the
    8-bit error; the error built from the table for a status code of one
    of the seven library functions; [TypeError] (a code that is [None], or
    the TS geometry); [AttributeError] for [buflist] or [size_bytes]; or
    [NameError] for the loop counter. *)
Theorem acquire_raises_one_of dll fuel a s :
  exists e,
    fst (acquire dll (S fuel) a s) = inl e /\ acquire_exception e.
Proof.
  destruct (acquire_always_raises dll (S fuel) a s) as [e He].
  exists e. split; [exact He |].
  assert (Hro : raises_only acquire_exception (acquire dll (S fuel) a)).
  { apply ro_acquire; try (intros; constructor; assumption). }
  specialize (Hro s). rewrite He in Hro. exact Hro.
Qed.

(** ** acquire: the unsupported-mode error *)

Lemma check_mode_run s :
  acquire_check_mode s
  = match fst (param_get "mode" s) with
    | inl e => (inl e, s)
    | inr m =>
        if py_eq m (PStr "TS") || py_eq m (PStr "NPT") then (inr tt, s)
        else (inl (Exception unsupported_mode_msg), s)
    end.
Proof.
  unfold acquire_check_mode. rewrite bind_run, param_get_run.
  destruct (parameters s !! "mode") as [p |] eqn:Hp; [| reflexivity].
  cbn [fst]. destruct (AlazarParameter.get p) as [e | m] eqn:Hget;
    [reflexivity |].
  rewrite bind_run. destruct (py_eq m (PStr "TS")); [reflexivity |].
  rewrite bind_run, param_get_run, Hp, Hget. cbn [orb].
  destruct (py_eq m (PStr "NPT")); reflexivity.
Qed.

Lemma not_mode_error_stale :
  Exception AlazarParameter.stale_msg <> Exception unsupported_mode_msg.
Proof. intros H. vm_compute in H. discriminate H. Qed.

Lemma not_mode_error_status src (rc : Z) msg :
  src ∈ acquire_calls ->
  Exception (src ++ " raised " ++ pretty rc ++ ": " ++ msg)
  <> Exception unsupported_mode_msg.
Proof.
  unfold acquire_calls. intros Hsrc.
  repeat (apply elem_of_cons in Hsrc as [-> | Hsrc];
          [intros H; simpl in H; discriminate H |]).
  inversion Hsrc.
Qed.

Lemma after_check_mode_not_mode_error dll fuel s :
  fst ((acquire_channel_info dll;;
        acquire_record_size dll;;
        flags ← acquire_flags;
        acquire_before_async_read dll flags;;
        acquire_commit;;
        acquire_capture dll (S fuel)) s)
  <> inl (Exception unsupported_mode_msg).
Proof.
  pose proof (ro_acquire_after_check_mode
                (fun e => e <> Exception unsupported_mode_msg)) as Hro.
  intros Heq. specialize (Hro ltac:(discriminate) ltac:(discriminate)
    not_mode_error_stale ltac:(discriminate)
    ltac:(intros; apply not_mode_error_status; assumption)
    ltac:(discriminate) ltac:(discriminate) ltac:(discriminate) dll fuel s).
  rewrite Heq in Hro. apply Hro. reflexivity.
Qed.

(** X13. [acquire] ends with the unsupported-mode error exactly when its
    arguments were accepted and the field [mode] then reads a value other
    than TS and NPT, which requires the field to be up to date and hence
    no [mode] argument in this call.  The run has then made no call to the
    library and leaves the instrument as the arguments left it. *)
Theorem acquire_unsupported_mode_iff dll fuel a st :
  let st1 := snd (acquire_set_args a st) in
  let mode_unsupported :=
    fst (acquire_set_args a st) = inr tt
    /\ exists m, fst (param_get "mode" st1) = inr m
                 /\ m <> PStr "TS" /\ m <> PStr "NPT" in
  (fst (acquire dll (S fuel) a st) = inl (Exception unsupported_mode_msg)
   <-> mode_unsupported)
  /\ (mode_unsupported -> snd (acquire dll (S fuel) a st) = st1).
Proof.
  intros st1 B. subst st1 B. unfold acquire. rewrite bind_run.
  pose proof (ro_acquire_set_args
                (fun e => e <> Exception unsupported_mode_msg)
                ltac:(discriminate) a st) as Hset.
  destruct (acquire_set_args a st) as [[e | []] s1]; cbn [fst snd] in *.
  - split; [split |].
    + intros [= ->]. exfalso. apply Hset. reflexivity.
    + intros [[=] _].
    + intros [[=] _].
  - clear Hset. rewrite bind_run, check_mode_run.
    pose proof (ro_param_get
                  (fun e => e <> Exception unsupported_mode_msg)
                  ltac:(discriminate) "mode" not_mode_error_stale s1)
      as Hget.
    destruct (fst (param_get "mode" s1)) as [e | m].
    + cbn [fst snd]. split; [split |].
      * intros [= ->]. exfalso. apply Hget. reflexivity.
      * intros (_ & m & [=] & _).
      * intros (_ & m & [=] & _).
    + clear Hget. unfold py_eq.
      destruct (decide (m = PStr "TS")) as [-> | Hts].
      { rewrite bool_decide_eq_true_2 by reflexivity. cbn [orb].
        split; [split |].
        - intros H. exfalso.
          exact (after_check_mode_not_mode_error dll fuel s1 H).
        - intros (_ & m & [= <-] & Hm & _). congruence.
        - intros (_ & m & [= <-] & Hm & _). congruence. }
      rewrite (bool_decide_eq_false_2 _ Hts). cbn [orb].
      destruct (decide (m = PStr "NPT")) as [-> | Hnpt].
      { rewrite bool_decide_eq_true_2 by reflexivity.
        split; [split |].
        - intros H. exfalso.
          exact (after_check_mode_not_mode_error dll fuel s1 H).
        - intros (_ & m & [= <-] & _ & Hm). congruence.
        - intros (_ & m & [= <-] & _ & Hm). congruence. }
      rewrite (bool_decide_eq_false_2 _ Hnpt). cbn [fst snd].
      split; [split |].
      * intros _. split; [reflexivity |]. exists m. auto.
      * intros _. reflexivity.
      * intros _. reflexivity.
Qed.

Lemma acquire_unsupported_mode_iff_witness :
  fst (acquire Fixture.always_ok 1 Fixture.no_args
         (Fixture.board (Fixture.acquire_fields 0x100 1024 4 10)))
  = inl (Exception unsupported_mode_msg).
Proof.
  apply (acquire_unsupported_mode_iff Fixture.always_ok 0 Fixture.no_args
           (Fixture.board (Fixture.acquire_fields 0x100 1024 4 10))).
  split; [vm_compute; reflexivity |].
  exists (PStr "CS"). vm_compute. repeat split; discriminate.
Defined.

(** ** acquire: a stale mode *)

Lemma param_set_mode_keeps_stale v s :
  stale_mode s ->
  wp (param_set "mode" v) (fun _ => stale_mode) (fun _ => stale_mode) s.
Proof.
  intros H. rewrite wp_param_set.
  destruct (parameters s !! "mode") as [p |]; [| exact H].
  destruct (AlazarParameter._set p v) as [e | p'] eqn:Hset; [exact H |].
  exists p'. st_simpl. rewrite lookup_insert_eq. split; [reflexivity |].
  eapply set_leaves_stale, Hset.
Qed.

Lemma stale_mode_other_field s nm p :
  nm <> "mode" -> stale_mode s ->
  stale_mode (with_parameters (<[nm := p]> (parameters s)) s).
Proof.
  intros Hnm (q & Hq & Hflag). exists q. st_simpl.
  rewrite lookup_insert_ne by exact Hnm. split; assumption.
Qed.

Lemma acquire_set_args_keeps_stale a s :
  stale_mode s ->
  wp (acquire_set_args a) (fun _ => stale_mode) (fun _ => stale_mode) s.
Proof.
  intros H. unfold acquire_set_args. rewrite wp_bind.
  eapply wp_mono with (Q := fun _ => stale_mode) (E := fun _ => stale_mode);
    [ | intros ? ? HE; exact HE | ].
  2: { rewrite wp_if_given.
       destruct (mode a); [exact H | |];
         apply param_set_mode_keeps_stale, H. }
  intros ? s1 H1.
  repeat (lazymatch goal with
          | Hs : stale_mode ?s |- wp (mbind _ _) _ _ ?s =>
              rewrite wp_bind;
              eapply wp_mono;
              [ | | apply (fk_if_given stale_mode);
                    [ intros ? ? ?;
                      apply (fk_param_set stale_mode (fun n => n <> "mode"));
                      [ intros ? ? ?; apply stale_mode_other_field
                      | discriminate | assumption ]
                    | exact Hs ] ];
              [ intros ? ? ? | intros ? ? HE; exact HE ];
              cbv beta in *
          end).
  lazymatch goal with
  | Hs : stale_mode ?s |- wp _ _ _ ?s =>
      apply (fk_if_given stale_mode);
      [ intros ? ? ?;
        apply (fk_param_set stale_mode (fun n => n <> "mode"));
        [ intros ? ? ?; apply stale_mode_other_field
        | discriminate | assumption ]
      | exact Hs ]
  end.
Qed.

(** One call on an instrument whose mode is stale. *)
Lemma acquire_stale_mode dll fuel a s :
  stale_mode s ->
  early_failure (fst (acquire dll fuel a s))
  /\ trace (snd (acquire dll fuel a s)) = trace s
  /\ stale_mode (snd (acquire dll fuel a s)).
Proof.
  intros H. pose proof (acquire_set_args_keeps_stale a s H) as Hwp.
  pose proof (acquire_set_args_trace a s) as Htr.
  pose proof (set_error_is_KeyError) as HK.
  assert (Herr : wp (acquire_set_args a) (fun _ _ => True)
                    (fun e _ => is_KeyError e) s).
  { unfold acquire_set_args.
    repeat (rewrite wp_bind;
            eapply wp_mono with (Q := fun _ _ => True)
                                (E := fun e _ => is_KeyError e);
            [ intros ? ? _ | intros ? ? HE; exact HE | ]).
    all: rewrite wp_if_given;
      lazymatch goal with
      | |- match ?v with _ => _ end =>
          destruct v; [exact Logic.I | |]
      end;
      rewrite wp_param_set;
      lazymatch goal with
      | |- match ?o with _ => _ end =>
          destruct o as [p |]; [| eexists; reflexivity]
      end;
      destruct (AlazarParameter._set p _) eqn:Hset;
      [eapply HK, Hset | exact Logic.I | eapply HK, Hset | exact Logic.I]. }
  unfold acquire. rewrite bind_run. unfold wp in Hwp, Herr.
  destruct (acquire_set_args a s) as [[e | []] s1]; cbn [fst snd] in *.
  - destruct Herr as [m ->]. split; [right; eauto |].
    split; assumption.
  - rewrite bind_run, (check_mode_stale s1 Hwp). cbn [fst snd].
    split; [left; reflexivity |]. split; assumption.
Qed.

Lemma acquire_all_stale_mode dll fuel l s :
  stale_mode s ->
  Forall early_failure (fst (acquire_all dll fuel l s))
  /\ trace (snd (acquire_all dll fuel l s)) = trace s
  /\ stale_mode (snd (acquire_all dll fuel l s)).
Proof.
  revert s. induction l as [| a l IH]; intros s H.
  - split; [constructor |]. split; [reflexivity | exact H].
  - cbn [acquire_all].
    destruct (acquire_stale_mode dll fuel a s H) as (Hr & Htr & Hs).
    destruct (acquire dll fuel a s) as [r s1]. cbn [fst snd] in *.
    destruct (IH s1 Hs) as (Hrs & Htr' & Hs').
    destruct (acquire_all dll fuel l s1) as [rs s2]. cbn [fst snd] in *.
    split; [constructor; assumption |]. split; [congruence | exact Hs'].
Qed.

(** X14. A mode argument makes [acquire] unusable.  When a call is given
    a mode that the field accepts, the field is left stale; and on an
    instrument whose mode is stale every call of [acquire], with any
    arguments, stops at the arguments or at the mode check, makes no call
    to the library and leaves the mode stale.  So after such a call no
    sequence of calls of [acquire] ever reaches the library. *)
Theorem acquire_mode_argument_blocks dll fuel a st p b l :
  mode a <> PNone ->
  parameters st !! "mode" = Some p ->
  AlazarParameter._value_to_byte_dict p !! mode a = Some b ->
  let s1 := snd (acquire dll fuel a st) in
  stale_mode s1
  /\ trace s1 = trace st
  /\ Forall early_failure (fst (acquire_all dll fuel l s1))
  /\ trace (snd (acquire_all dll fuel l s1)) = trace st
  /\ stale_mode (snd (acquire_all dll fuel l s1)).
Proof.
  intros Hmode Hp Hb s1.
  assert (H1 : stale_mode s1 /\ trace s1 = trace st).
  { subst s1. unfold acquire. rewrite bind_run.
    pose proof (acquire_set_args_trace a st) as Htr.
    assert (Hwp : wp (acquire_set_args a) (fun _ => stale_mode)
                     (fun _ => stale_mode) st).
    { unfold acquire_set_args. rewrite wp_bind.
      assert (H0 : wp (if_given (mode a) (param_set "mode"))
                      (fun _ => stale_mode) (fun _ _ => False) st).
      { rewrite wp_if_given.
        assert (Hs : wp (param_set "mode" (mode a))
                        (fun _ => stale_mode) (fun _ _ => False) st).
        { rewrite wp_param_set, Hp. unfold AlazarParameter._set.
          rewrite Hb. eexists. st_simpl. rewrite lookup_insert_eq.
          split; reflexivity. }
        destruct (mode a); [congruence | exact Hs | exact Hs]. }
      eapply wp_mono; [ | | exact H0 ]; [| intros ? ? []].
      intros ? s2 H2. cbv beta.
      pose proof (acquire_set_args_keeps_stale
                    (AcquireArgs PNone (samples_per_record a)
                       (records_per_buffer a) (buffers_per_acquisition a)
                       (channel_selection a) (transfer_offset a)
                       (external_startcapture a) (enable_record_headers a)
                       (alloc_buffers a) (fifo_only_streaming a)
                       (interleave_samples a) (get_processed_data a))
                    s2 H2) as Hk.
      unfold acquire_set_args in Hk. rewrite wp_bind in Hk.
      cbn [mode samples_per_record records_per_buffer
           buffers_per_acquisition channel_selection transfer_offset
           external_startcapture enable_record_headers alloc_buffers
           fifo_only_streaming interleave_samples get_processed_data] in Hk.
      rewrite wp_if_given in Hk. exact Hk. }
    unfold wp in Hwp.
    destruct (acquire_set_args a st) as [[e | []] s2]; cbn [fst snd] in *;
      [split; assumption |].
    rewrite bind_run, (check_mode_stale s2 Hwp). cbn [snd].
    split; assumption. }
  destruct H1 as [Hs1 Ht1].
  destruct (acquire_all_stale_mode dll fuel l s1 Hs1) as (Hrs & Htr & Hs).
  repeat split; try assumption. congruence.
Qed.

Lemma acquire_mode_argument_blocks_witness :
  trace (snd (acquire_all Fixture.always_ok 10
                [Fixture.no_args; Fixture.with_mode (PStr "TS")]
                (snd (acquire Fixture.always_ok 10
                        (Fixture.with_mode (PStr "NPT"))
                        Fixture.npt_board))))
  = trace Fixture.npt_board.
Proof.
  apply (acquire_mode_argument_blocks Fixture.always_ok 10
           (Fixture.with_mode (PStr "NPT")) Fixture.npt_board
           (Fixture.field "mode" Fixture.mode_table (Some 0x200) true)
           0x200);
    vm_compute; first [reflexivity | discriminate].
Defined.

(** ** acquire: the run that gets furthest *)

Lemma result_handler_not_loop_error rc src e :
  _result_handler rc src = inl e -> e <> loop_error.
Proof.
  unfold _result_handler. case_bool_decide; [discriminate |].
  destruct (error_codes !! rc); intros [= <-]; discriminate.
Qed.

Lemma get_not_loop_error p e :
  AlazarParameter.get p = inl e -> e <> loop_error.
Proof.
  unfold AlazarParameter.get.
  destruct (negb (AlazarParameter._uptodate_flag p)); [intros [= <-]; discriminate |].
  destruct (AlazarParameter._byte p) as [b |]; [| intros [= <-]; discriminate].
  destruct (AlazarParameter._byte_to_value_dict p !! b);
    [discriminate | intros [= <-]; discriminate].
Qed.

Lemma calls_snoc_call tr c rc :
  calls (tr ++ [EvCall c rc]) = (calls tr ++ [(c, rc)])%list.
Proof. rewrite calls_app. reflexivity. Qed.

Lemma wp_acquire_capture dll fuel (Q : unit -> t -> Prop) E s :
  wp (acquire_capture dll (S fuel)) Q E s
  = match buflist s with
    | None =>
        E (AttributeError
             "'AlazarTech_ATS' object has no attribute 'buflist'") s
    | Some [] =>
        let r := dll (trace s) (Call "AlazarStartCapture" []) in
        let s' := with_trace
                    (trace s ++ [EvCall (Call "AlazarStartCapture" [])
                                   (return_code r)]) s in
        match _result_handler (return_code r) "AlazarStartCapture" with
        | inl e => E e s'
        | inr _ => E loop_error s'
        end
    | Some (_ :: _) =>
        E (AttributeError
             "'Buffer' object has no attribute 'size_bytes'") s
    end.
Proof.
  unfold wp. rewrite acquire_capture_run.
  destruct (buflist s) as [[| b bl] |]; [| reflexivity | reflexivity].
  cbv zeta. destruct (_result_handler _ "AlazarStartCapture"); reflexivity.
Qed.

Ltac fr_err :=
  let H := fresh in
  intros H; exfalso;
  first [ discriminate H
        | eapply result_handler_not_loop_error; eassumption
        | eapply get_not_loop_error; eassumption ].

Ltac fr_lookup :=
  cbn [parameters trace warnings samples_per_buffer number_of_channels
       buflist waittimeout _handle];
  rewrite ?lookup_insert_ne by discriminate;
  lazymatch goal with
  | |- match ?ps !! ?n with _ => _ end =>
      first
        [ match goal with
          | H : ps !! n = _ |- _ => rewrite H
          end
        | let p := fresh "p" in
          let Hp := fresh "Hp" in
          destruct (ps !! n) as [p |] eqn:Hp; [| fr_err] ]
  end.

Lemma py_or_Some x y : py_or (Some x) (Some y) = inr (Some (Z.lor x y)).
Proof. reflexivity. Qed.

Lemma py_mul_Some x y : py_mul (Some x) (Some y) = inr (x * y).
Proof. reflexivity. Qed.

Ltac fr_opt x :=
  lazymatch x with
  | Some _ => idtac
  | _ =>
      let y := fresh "c" in
      let Hy := fresh "Hc" in
      destruct x as [y |] eqn:Hy;
      [| cbn [py_or py_mul]; try fr_err;
         repeat (lazymatch goal with
                 | |- context [match ?o with Some _ => _ | None => _ end] =>
                     destruct o
                 end; cbn [py_or py_mul]; try fr_err) ]
  end.

Ltac fr_flat :=
  unfold with_trace, with_parameters, with_warnings,
    with_samples_per_buffer, with_number_of_channels;
  cbn [parameters trace warnings samples_per_buffer number_of_channels
       buflist waittimeout _handle].

Ltac fr_step :=
  cbv beta zeta; fr_flat;
  lazymatch goal with
  | |- wp (if py_eq ?a ?b then _ else _) _ _ _ =>
      let v := eval vm_compute in (py_eq a b) in
      change (py_eq a b) with v; cbv iota
  | |- wp (acquire_capture _ _) _ _ _ =>
      rewrite wp_acquire_capture; fr_flat;
      lazymatch goal with
      | |- match ?b with _ => _ end =>
          destruct b as [[| ? ?] |]; [| fr_err | fr_err]
      end;
      cbv zeta;
      lazymatch goal with
      | |- match _result_handler ?rc ?src with _ => _ end =>
          let Hrc := fresh "Hrc" in
          destruct (_result_handler rc src) as [? | []] eqn:Hrc;
          [fr_err | apply result_handler_ok in Hrc; rewrite ?Hrc]
      end
  | |- wp (mbind _ _) _ _ _ => rewrite wp_bind
  | |- wp (get_byte _) _ _ _ => rewrite wp_get_byte; fr_lookup
  | |- wp (set_updated _) _ _ _ => rewrite wp_set_updated; fr_lookup
  | |- wp (param _) _ _ _ => rewrite wp_param; fr_lookup
  | |- wp (param_get _) _ _ _ =>
      rewrite wp_param_get; fr_lookup;
      lazymatch goal with
      | |- match AlazarParameter.get ?p with _ => _ end =>
          first
            [ match goal with
              | H : AlazarParameter.get p = _ |- _ => rewrite H
              end
            | let m := fresh "m" in
              let Hm := fresh "Hm" in
              destruct (AlazarParameter.get p) as [? | m] eqn:Hm;
              [fr_err |] ]
      end
  | |- wp (dll_call _ _ _) _ _ _ => rewrite wp_dll_call
  | |- wp (check _ _) _ _ _ =>
      rewrite wp_check;
      let Hrc := fresh "Hrc" in
      lazymatch goal with
      | |- match _result_handler ?rc ?src with _ => _ end =>
          destruct (_result_handler rc src) as [? | []] eqn:Hrc;
          [fr_err | apply result_handler_ok in Hrc; rewrite ?Hrc]
      end
  | |- wp (assign_number_of_channels _) _ _ _ =>
      rewrite wp_assign_number_of_channels
  | |- wp (assign_samples_per_buffer _) _ _ _ =>
      rewrite wp_assign_samples_per_buffer
  | |- wp (lift (py_or ?a ?b)) _ _ _ =>
      rewrite wp_lift; fr_opt a; fr_opt b; rewrite py_or_Some
  | |- wp (lift (py_mul ?a ?b)) _ _ _ =>
      rewrite wp_lift; fr_opt a; fr_opt b; rewrite py_mul_Some
  | |- wp (lift (py_mod_param _ _)) _ _ _ => rewrite wp_lift; fr_err
  | |- wp (AlazarTech_ATS.ret _) _ _ _ => rewrite wp_ret'
  | |- wp (raise _) _ _ _ => rewrite wp_raise; fr_err
  | |- wp (if bool_decide _ then _ else _) _ _ _ => case_bool_decide
  end.

Lemma acquire_body_furthest dll fuel s1 :
  wp (acquire_check_mode;;
      acquire_channel_info dll;;
      acquire_record_size dll;;
      flags ← acquire_flags;
      acquire_before_async_read dll flags;;
      acquire_commit;;
      acquire_capture dll (S fuel))
     (fun _ _ => True)
     (fun e sf => e = loop_error -> furthest_run s1 sf) s1.
Proof.
  destruct s1 as [h ps bl wt tr ws nc spb].
  rewrite wp_bind. unfold wp at 1. rewrite check_mode_run.
  set (s1 := AlazarTech_ATS.mk h ps bl wt tr ws nc spb).
  pose proof (param_get_run "mode" s1) as Hrun.
  destruct (parameters s1 !! "mode") as [pm |] eqn:Hpm;
    [| rewrite Hrun; cbn [fst]; fr_err].
  rewrite Hrun. cbn [fst].
  destruct (AlazarParameter.get pm) as [e | m] eqn:Hget; [fr_err |].
  destruct (py_eq m (PStr "TS") || py_eq m (PStr "NPT")) eqn:Hm; [| fr_err].
  assert (Hcases : m = PStr "NPT" \/ m = PStr "TS").
  { unfold py_eq in Hm. apply orb_true_iff in Hm as [Hm | Hm];
      apply bool_decide_eq_true_1 in Hm; auto. }
  clear Hm Hrun.
  unfold acquire_channel_info, acquire_record_size, acquire_flags,
    acquire_before_async_read, acquire_commit.
  subst s1. cbn [parameters] in Hpm.
  destruct Hcases as [-> | ->].
  2: { repeat fr_step. }
  repeat fr_step.
  intros _. exists c8, c6, c7, [c; c0; c1; c2; c3; c4; c5].
  unfold code, flag_fields.
  cbn [parameters trace warnings samples_per_buffer number_of_channels
       buflist waittimeout _handle map].
  rewrite param_get_run.
  cbn [parameters].
  rewrite Hpm, Hp, Hp0, Hp1, Hp2, Hp3, Hp4, Hp5, Hp6, Hp7, Hp8, Hp9.
  cbn [mbind option_bind fst]. unfold AlazarParameter._get_byte.
  rewrite Hget, Hc, Hc0, Hc1, Hc2, Hc3, Hc4, Hc5, Hc6, Hc7, Hc8.
  split; [reflexivity |]. split; [reflexivity |].
  split; [reflexivity |]. split; [reflexivity |].
  split; [reflexivity |]. split; [reflexivity |].
  split.
  { repeat first [ rewrite calls_snoc_call
                   | rewrite calls_snoc_get_byte
                   | rewrite calls_snoc_set_updated ].
    rewrite <- ?app_assoc. reflexivity. }
  split.
  { intros nm Hnm. unfold acquire_arg_fields in Hnm. unfold uptodate.
    cbn [parameters].
    repeat (apply elem_of_cons in Hnm as [-> | Hnm];
            [ rewrite ?lookup_insert_ne by discriminate;
              rewrite lookup_insert_eq; eexists; split; reflexivity |]).
    inversion Hnm. }
  split; reflexivity.
Qed.


(** X15. The run of [acquire] that gets furthest.  A run that ends with
    the [NameError] of the loop condition had its arguments accepted, read
    the mode NPT and found [buflist] empty; it made exactly five library
    calls, each answered with 512: [AlazarAbortAsyncRead],
    [AlazarGetChannelInfo], [AlazarSetRecordSize] with 0 and the code of
    [samples_per_record], [AlazarBeforeAsyncRead] with the codes of
    [channel_selection], [transfer_offset], [samples_per_record] and
    [records_per_buffer], the product of the codes of [records_per_buffer]
    and [buffers_per_acquisition], and the bitwise or of the codes of the
    seven flag fields, and [AlazarStartCapture]; and it left the twelve
    argument fields up to date. *)
Theorem acquire_furthest_run dll fuel a st :
  fst (acquire dll (S fuel) a st) = inl loop_error ->
  fst (acquire_set_args a st) = inr tt
  /\ furthest_run (snd (acquire_set_args a st))
       (snd (acquire dll (S fuel) a st)).
Proof.
  unfold acquire. rewrite bind_run.
  pose proof (ro_acquire_set_args (fun e => e <> loop_error)
                ltac:(discriminate) a st) as Hset.
  destruct (acquire_set_args a st) as [[e | []] s1]; cbn [fst snd] in *.
  - intros [= ->]. exfalso. apply Hset. reflexivity.
  - clear Hset. intros Hend. split; [reflexivity |].
    pose proof (acquire_body_furthest dll fuel s1) as Hwp.
    unfold wp in Hwp.
    lazymatch type of Hend with
    | fst (?m s1) = _ => destruct (m s1) as [[e | []] sf]
    end; cbn [fst snd] in *; [| discriminate Hend].
    apply Hwp. congruence.
Qed.

Lemma acquire_furthest_run_witness :
  furthest_run
    (snd (acquire_set_args Fixture.no_args Fixture.npt_board))
    (snd (acquire Fixture.always_ok 1 Fixture.no_args Fixture.npt_board)).
Proof.
  apply (acquire_furthest_run Fixture.always_ok 0 Fixture.no_args
           Fixture.npt_board).
  vm_compute. reflexivity.
Defined.

(** ** config: the exceptions it ends with *)

Lemma ro_for_enumerate P i l (body : Z -> pyval -> M unit) :
  (forall j v, raises_only P (body j v)) ->
  raises_only P (for_enumerate i l body).
Proof.
  intros Hb. revert i. induction l as [| v l IH]; intros i s;
    [exact Logic.I |].
  cbn [for_enumerate]. rewrite bind_run. specialize (Hb i v s).
  destruct (body i v s) as [[e | []] s1]; cbn [fst] in *; [exact Hb |].
  apply IH.
Qed.

Lemma ro_collect_get_byte P names :
  (forall m, P (KeyError m)) ->
  raises_only P (collect names get_byte).
Proof.
  intros HKey. induction names as [| n names IH]; [intros s; exact Logic.I |].
  cbn [collect]. apply ro_bind; [apply ro_get_byte, HKey | intros y].
  apply ro_bind; [exact IH | intros ys; apply ro_ret].
Qed.

Lemma ro_check_status P rc src :
  (forall m, P (KeyError m)) ->
  (forall msg, rc <> _succes -> error_codes !! rc = Some msg ->
     P (Exception (src ++ " raised " ++ pretty rc ++ ": " ++ msg))) ->
  raises_only P (check rc src).
Proof.
  intros HKey Hst s. unfold check, lift. cbn [fst]. unfold _result_handler.
  case_bool_decide as Hrc; [exact Logic.I |].
  destruct (error_codes !! rc) as [msg |]; [apply Hst; auto |].
  apply HKey.
Qed.

Lemma ro_device_step dll f pre names src :
  src ∈ config_sources ->
  raises_only config_exception (device_step dll f pre names src).
Proof.
  intros Hsrc. unfold device_step.
  apply ro_bind; [apply ro_collect_get_byte; constructor | intros codes].
  apply ro_bind; [apply ro_dll_call | intros r].
  apply ro_bind.
  - apply ro_check_status; [constructor |].
    intros msg Hrc Hmsg. constructor; assumption.
  - intros ?. apply ro_for_each. intros n. apply ro_set_updated.
    constructor.
Qed.

Lemma ro_config dll a : raises_only config_exception (config dll a).
Proof.
  unfold config. apply ro_bind.
  - unfold config_set_args, set_channels.
    repeat first
      [ apply ro_if_given; constructor
      | apply ro_ret'
      | apply ro_for_enumerate; intros ? ?; apply ro_param_set; constructor
      | lazymatch goal with
        | |- raises_only _ (mbind _ _) => apply ro_bind; [| intros ?]
        | |- raises_only _ (match ?l with _ => _ end) => destruct l
        end ].
  - intros ?. unfold config_device_calls. cbn [for_each].
    repeat first
      [ apply ro_device_step; unfold config_sources; solve [repeat constructor]
      | apply ro_ret'
      | lazymatch goal with
        | |- raises_only _ (mbind _ _) => apply ro_bind; [| intros ?]
        end ].
Qed.

(** X16. When [config] raises, the exception is a [KeyError] (a field is
    missing, a value is outside the domain of its field, or the library
    returned a status code the table does not know), or the error built
    from the table for a status code other than 512 returned by one of its
    nine library calls.  In particular [config] never fails because a
    field is stale: it reads the codes, not the values. *)
Theorem config_raises_one_of dll a st e :
  fst (config dll a st) = inl e ->
  config_exception e /\ e <> Exception AlazarParameter.stale_msg.
Proof.
  intros He. pose proof (ro_config dll a st) as H. rewrite He in H.
  split; [exact H |]. destruct H as [m | src rc msg Hsrc Hrc Hmsg];
    [discriminate |].
  unfold config_sources in Hsrc. intros Heq.
  repeat (apply elem_of_cons in Hsrc as [-> | Hsrc];
          [vm_compute in Heq; discriminate Heq |]).
  inversion Hsrc.
Qed.

Lemma config_raises_one_of_witness :
  config_exception
    (Exception
       ("AlazarInputControl 1 raised 579: "
        ++ "ApiWaitTimeout: operation did not finish during timeout interval. Check your trigger.")).
Proof.
  apply (config_raises_one_of (Fixture.fails_at 1) Fixture.no_config_args
           (Fixture.board Fixture.config_fields)).
  vm_compute. reflexivity.
Defined.

(** ** acquire: the sizes passed in NPT mode *)

Lemma recorded_since_event s0 e s e' :
  recorded_since s0 e s ->
  recorded_since s0 e (with_trace (trace s ++ [e']) s).
Proof.
  intros (new & Ht & He). exists (new ++ [e'])%list. st_simpl.
  rewrite Ht, <- app_assoc. split; [reflexivity |].
  apply elem_of_app. left. exact He.
Qed.

Lemma code_Some s nm c :
  code s nm = Some c ->
  exists p, parameters s !! nm = Some p /\ AlazarParameter._byte p = Some c.
Proof.
  unfold code. destruct (parameters s !! nm) as [p |]; [| discriminate].
  intros H. exists p. split; [reflexivity | exact H].
Qed.

(** What follows the arming keeps an assertion that survives new events
    and the rebinding of fields. *)
Lemma after_arming_keeps dll fuel (I : t -> Prop) s :
  (forall s e, I s -> I (with_trace (trace s ++ [e]) s)) ->
  (forall s nm p, I s -> I (with_parameters (<[nm := p]> (parameters s)) s)) ->
  I s ->
  wp (acquire_commit;; acquire_capture dll fuel) (fun _ => I) (fun _ => I) s.
Proof.
  intros Htr Hps H. rewrite wp_bind.
  eapply wp_mono;
    [ | | apply (frame_commit I (fun _ => True) (fun _ => True));
          [ intros ? ? _; apply Htr | intros ? ? ? _; apply Hps
          | intros; exact Logic.I | intros; exact Logic.I | exact H ] ];
    [| intros ? ? HE; exact HE].
  intros ? s1 H1. apply wp_final.
  apply (frame_capture dll I (fun _ => True));
    [intros ? ? _; apply Htr | intros; exact Logic.I | exact H1].
Qed.

(** So does what follows the record size, when the assertion also
    survives the assignments to the two locals. *)
Lemma after_record_size_keeps dll fuel (I : t -> Prop) s :
  (forall s e, I s -> I (with_trace (trace s ++ [e]) s)) ->
  (forall s nm p, I s -> I (with_parameters (<[nm := p]> (parameters s)) s)) ->
  (forall s n, I s -> I (with_number_of_channels n s)) ->
  (forall s n, I s -> I (with_samples_per_buffer n s)) ->
  I s ->
  wp (flags ← acquire_flags;
      acquire_before_async_read dll flags;;
      acquire_commit;;
      acquire_capture dll fuel) (fun _ => I) (fun _ => I) s.
Proof.
  intros Htr Hps Hnc Hspb H. rewrite wp_bind.
  eapply wp_mono;
    [ | | apply (frame_flags I (fun _ => True));
          [ intros ? ? _; apply Htr | exact Hnc | exact Hspb
          | intros; exact Logic.I | exact H ] ];
    [| intros ? ? HE; exact HE].
  intros flags s1 H1. rewrite wp_bind.
  eapply wp_mono;
    [ | | apply (frame_before_async_read dll I (fun _ => True));
          [ intros ? ? _; apply Htr | exact Hspb | intros; exact Logic.I
          | intros; exact Logic.I | exact H1 ] ];
    [| intros ? ? HE; exact HE].
  intros ? s2 H2. apply after_arming_keeps; assumption.
Qed.

Ltac ns_lookup :=
  cbn [parameters];
  rewrite ?lookup_insert_ne by discriminate;
  lazymatch goal with
  | |- match ?ps !! ?n with _ => _ end =>
      match goal with
      | H : ps !! n = Some _ |- _ => rewrite H
      end
  end.

Ltac ns_step :=
  cbv beta zeta; fr_flat;
  repeat match goal with
         | H : AlazarParameter._byte ?p = Some _
           |- context [AlazarParameter._byte ?p] => rewrite H
         end;
  lazymatch goal with
  | |- wp (mbind _ _) _ _ _ => rewrite wp_bind
  | |- wp (if py_eq ?a ?b then _ else _) _ _ _ =>
      let v := eval vm_compute in (py_eq a b) in
      change (py_eq a b) with v; cbv iota
  | |- wp (if bool_decide (out_bps _ mod _ = 8) then _ else _) _ _ _ =>
      rewrite bool_decide_eq_true_2
        by (match goal with H : reports_8_bits _ |- _ => apply H end)
  | |- wp (get_byte _) _ _ _ => rewrite wp_get_byte; ns_lookup
  | |- wp (param_get _) _ _ _ =>
      rewrite wp_param_get; ns_lookup;
      match goal with
      | H : AlazarParameter.get ?p = _
        |- context [AlazarParameter.get ?p] => rewrite H
      end
  | |- wp (dll_call _ _ _) _ _ _ => rewrite wp_dll_call
  | |- wp (check (return_code (?d ?tr (Call ?f ?a))) _) _ _ _ =>
      match goal with
      | H : accepts d f |- _ =>
          rewrite wp_check, (H tr a), result_handler_success
      end
  | |- wp (assign_number_of_channels _) _ _ _ =>
      rewrite wp_assign_number_of_channels
  | |- wp (assign_samples_per_buffer _) _ _ _ =>
      rewrite wp_assign_samples_per_buffer
  | |- wp (lift (py_or (Some _) (Some _))) _ _ _ =>
      rewrite wp_lift, py_or_Some
  | |- wp (lift (py_mul (Some _) (Some _))) _ _ _ =>
      rewrite wp_lift, py_mul_Some
  | |- wp (AlazarTech_ATS.ret _) _ _ _ => rewrite wp_ret'
  end.

Ltac ns_recorded :=
  eexists; eexists; cbn [trace];
  split; [rewrite <- ?app_assoc; reflexivity |];
  repeat (apply elem_of_app; right);
  apply list_elem_of_singleton; reflexivity.

Lemma npt_mode_field s1 :
  fst (param_get "mode" s1) = inr (PStr "NPT") ->
  exists pm, parameters s1 !! "mode" = Some pm
             /\ AlazarParameter.get pm = inr (PStr "NPT").
Proof.
  rewrite param_get_run.
  destruct (parameters s1 !! "mode") as [pm |]; [| discriminate].
  cbn [fst]. eauto.
Qed.

Lemma npt_record_size_called dll fuel s1 spr :
  fst (param_get "mode" s1) = inr (PStr "NPT") ->
  accepts dll "AlazarAbortAsyncRead" ->
  accepts dll "AlazarGetChannelInfo" ->
  reports_8_bits dll ->
  code s1 "samples_per_record" = Some spr ->
  let I := fun s' : t =>
             exists rc,
               recorded_since s1
                 (EvCall (Call "AlazarSetRecordSize" [Some 0; Some spr]) rc)
                 s' in
  wp (acquire_check_mode;;
      acquire_channel_info dll;;
      acquire_record_size dll;;
      flags ← acquire_flags;
      acquire_before_async_read dll flags;;
      acquire_commit;;
      acquire_capture dll fuel) (fun _ => I) (fun _ => I) s1.
Proof.
  intros Hmode Habort Hgci H8 Hspr I.
  rewrite wp_bind. unfold wp at 1. rewrite check_mode_run, Hmode.
  replace (py_eq (PStr "NPT") (PStr "TS") || py_eq (PStr "NPT") (PStr "NPT"))
    with true by (vm_compute; reflexivity).
  apply npt_mode_field in Hmode as (pm & Hpm & Hget).
  apply code_Some in Hspr as (p & Hp & Hbyte).
  subst I. destruct s1 as [h ps bl wt tr ws nc spb].
  cbn [parameters] in Hpm, Hp.
  unfold acquire_channel_info, acquire_record_size.
  set (I := fun s' : t => exists rc : Z, recorded_since _ _ s').
  repeat ns_step.
  eapply wp_mono with (Q := fun _ => I) (E := fun _ => I);
    [ | intros ? ? HE; exact HE | apply (fk_check I) ].
  - intros ? s' Hs'. cbv beta.
    apply (after_record_size_keeps dll fuel I s'); [ | | | | exact Hs'].
    + intros s e [rc H]. exists rc. apply recorded_since_event, H.
    + intros s nm q H. exact H.
    + intros s n H. exact H.
    + intros s n H. exact H.
  - subst I. unfold recorded_since. ns_recorded.
Qed.

Lemma npt_before_async_read_called dll fuel s1 spr rpb bpa fs :
  fst (param_get "mode" s1) = inr (PStr "NPT") ->
  accepts dll "AlazarAbortAsyncRead" ->
  accepts dll "AlazarGetChannelInfo" ->
  reports_8_bits dll ->
  accepts dll "AlazarSetRecordSize" ->
  code s1 "samples_per_record" = Some spr ->
  code s1 "records_per_buffer" = Some rpb ->
  code s1 "buffers_per_acquisition" = Some bpa ->
  map (code s1) flag_fields = map Some fs ->
  is_Some (parameters s1 !! "channel_selection") ->
  is_Some (parameters s1 !! "transfer_offset") ->
  let I := fun s' : t =>
             (exists rc,
                recorded_since s1
                  (EvCall
                     (Call "AlazarBeforeAsyncRead"
                        [code s1 "channel_selection";
                         code s1 "transfer_offset";
                         Some spr; Some rpb; Some (rpb * bpa);
                         Some (foldl Z.lor 0 fs)]) rc) s')
             /\ samples_per_buffer s' = spr * rpb in
  wp (acquire_check_mode;;
      acquire_channel_info dll;;
      acquire_record_size dll;;
      flags ← acquire_flags;
      acquire_before_async_read dll flags;;
      acquire_commit;;
      acquire_capture dll fuel) (fun _ => I) (fun _ => I) s1.
Proof.
  intros Hmode Habort Hgci H8 Hsrs Hspr Hrpb Hbpa Hfs [p0 Hp0] [p9 Hp9] I.
  rewrite wp_bind. unfold wp at 1. rewrite check_mode_run, Hmode.
  replace (py_eq (PStr "NPT") (PStr "TS") || py_eq (PStr "NPT") (PStr "NPT"))
    with true by (vm_compute; reflexivity).
  apply npt_mode_field in Hmode as (pm & Hpm & Hget).
  apply code_Some in Hspr as (p & Hp & Hbyte).
  apply code_Some in Hrpb as (p7 & Hp7 & Hbyte7).
  apply code_Some in Hbpa as (p8 & Hp8 & Hbyte8).
  unfold flag_fields in Hfs. cbn [map] in Hfs.
  do 7 (destruct fs as [| ? fs]; [discriminate Hfs |]).
  destruct fs; [| discriminate Hfs]. cbn [map] in Hfs.
  injection Hfs as Hf1 Hf2 Hf3 Hf4 Hf5 Hf6 Hf7.
  apply code_Some in Hf1 as (q1 & Hq1 & Hb1).
  apply code_Some in Hf2 as (q2 & Hq2 & Hb2).
  apply code_Some in Hf3 as (q3 & Hq3 & Hb3).
  apply code_Some in Hf4 as (q4 & Hq4 & Hb4).
  apply code_Some in Hf5 as (q5 & Hq5 & Hb5).
  apply code_Some in Hf6 as (q6 & Hq6 & Hb6).
  apply code_Some in Hf7 as (q7 & Hq7 & Hb7).
  rewrite Hpm in Hq1. injection Hq1 as <-.
  subst I. unfold code. rewrite Hp0, Hp9. cbn [mbind option_bind].
  unfold AlazarParameter._get_byte.
  destruct s1 as [h ps bl wt tr ws nc spb].
  cbn [parameters] in *.
  set (I := fun s' : t => (exists rc : Z, recorded_since _ _ s') /\ _).
  unfold acquire_channel_info, acquire_record_size, acquire_flags,
    acquire_before_async_read.
  repeat ns_step.
  eapply wp_mono with (Q := fun _ => I) (E := fun _ => I);
    [ | intros ? ? HE; exact HE | apply (fk_check I) ].
  - intros ? s' Hs'. cbv beta.
    apply (after_arming_keeps dll fuel I s'); [ | | exact Hs'].
    + intros s e [[rc H] Hspb]. split; [| exact Hspb].
      exists rc. apply recorded_since_event, H.
    + intros s nm q H. exact H.
  - subst I. cbv beta. split; [| reflexivity].
    unfold recorded_since. ns_recorded.
Qed.


Lemma acquire_mode_given_stale dll fuel a s :
  mode a <> PNone ->
  fst (acquire_set_args a s) = inr tt ->
  fst (acquire dll fuel a s) = inl (Exception AlazarParameter.stale_msg).
Proof.
  intros Hmode Hok. unfold acquire. rewrite bind_run.
  pose proof (acquire_set_args_mode_given a s Hmode) as Hwp.
  destruct (acquire_set_args a s) as [[e | []] s1] eqn:Hset;
    [discriminate Hok |].
  apply (wp_run _ _ _ _ _ _ Hwp) in Hset.
  rewrite bind_run, (check_mode_stale s1 Hset). reflexivity.
Qed.

Lemma recorded_since_same_history s0 s0' e s :
  trace s0 = trace s0' -> recorded_since s0 e s -> recorded_since s0' e s.
Proof. unfold recorded_since. intros ->. exact (fun H => H). Qed.

(** C3. The sizes that [acquire] passes to the library in NPT mode.

    Every [AlazarSetRecordSize] call of a run carries pretrigger size 0
    and the code of [samples_per_record], and every
    [AlazarBeforeAsyncRead] call the codes of [samples_per_record] and
    [records_per_buffer] and their
    [records_per_buffer * buffers_per_acquisition], the buffer size
    [samples_per_buffer] being then
    [samples_per_record * records_per_buffer].

    A call that is given a mode, NPT included, passes no size: it makes no
    call to the library and ends with the [KeyError] of a rejected
    argument or, when all its arguments are accepted, with the
    stale-field error that [get] raises on the mode just set.

    A call that is given no mode, on an instrument whose mode reads NPT,
    does pass them: when the library accepts [AlazarAbortAsyncRead] and
    [AlazarGetChannelInfo] and reports 8 bits, [AlazarSetRecordSize] is
    called with these sizes; and when it accepts that call too and the
    fields read for the arming hold codes, [AlazarBeforeAsyncRead] is
    called with these sizes and [samples_per_buffer] is their product. *)
Theorem acquire_npt_sizes dll fuel a st :
  let st1 := snd (acquire_set_args a st) in
  let r := acquire dll fuel a st in
  let c := code st1 in
  (exists new, trace (snd r) = (trace st ++ new)%list
               /\ Forall (npt_call st1 (snd r)) new)
  /\ (mode a <> PNone ->
        trace (snd r) = trace st
        /\ early_failure (fst r)
        /\ (fst (acquire_set_args a st) = inr tt ->
            fst r = inl (Exception AlazarParameter.stale_msg)))
  /\ (fst (acquire_set_args a st) = inr tt ->
      fst (param_get "mode" st1) = inr (PStr "NPT") ->
      accepts dll "AlazarAbortAsyncRead" ->
      accepts dll "AlazarGetChannelInfo" ->
      reports_8_bits dll ->
      forall spr,
        c "samples_per_record" = Some spr ->
        (exists rc,
           recorded_since st
             (EvCall (Call "AlazarSetRecordSize" [Some 0; Some spr]) rc)
             (snd r))
        /\ (accepts dll "AlazarSetRecordSize" ->
            forall rpb bpa fs,
              c "records_per_buffer" = Some rpb ->
              c "buffers_per_acquisition" = Some bpa ->
              map c flag_fields = map Some fs ->
              is_Some (parameters st1 !! "channel_selection") ->
              is_Some (parameters st1 !! "transfer_offset") ->
              (exists rc,
                 recorded_since st
                   (EvCall
                      (Call "AlazarBeforeAsyncRead"
                         [c "channel_selection"; c "transfer_offset";
                          Some spr; Some rpb; Some (rpb * bpa);
                          Some (foldl Z.lor 0 fs)]) rc)
                   (snd r))
              /\ samples_per_buffer (snd r) = spr * rpb)).
Proof.
  intros st1 r c. split; [apply acquire_calls_npt_geometry |]. split.
  - intros Hmode.
    destruct (acquire_mode_given_cases dll fuel a st Hmode)
      as (Htr & Herr & _).
    split; [exact Htr |]. split.
    + unfold early_failure.
      destruct Herr as [Hk | Hs]; [right; exact Hk | left; exact Hs].
    + apply acquire_mode_given_stale, Hmode.
  - intros Hok Hnpt Habort Hgci H8 spr Hspr.
    pose proof (acquire_set_args_trace a st) as Htr.
    assert (Hbody : forall (I : t -> Prop),
              wp (acquire_check_mode;;
                  acquire_channel_info dll;;
                  acquire_record_size dll;;
                  flags ← acquire_flags;
                  acquire_before_async_read dll flags;;
                  acquire_commit;;
                  acquire_capture dll fuel) (fun _ => I) (fun _ => I) st1 ->
              I (snd r)).
    { intros I HI. apply (proj1 (wp_final _ I st1)) in HI.
      subst r. unfold acquire. rewrite bind_run.
      revert HI. subst st1.
      destruct (acquire_set_args a st) as [[e | []] s1];
        [discriminate Hok | exact (fun HI => HI)]. }
    split.
    + destruct (Hbody _ (npt_record_size_called dll fuel st1 spr
                           Hnpt Habort Hgci H8 Hspr)) as [rc Hrc].
      exists rc. eapply recorded_since_same_history; [exact Htr | exact Hrc].
    + intros Hsrs rpb bpa fs Hrpb Hbpa Hfs Hcs Hoff.
      destruct (Hbody _ (npt_before_async_read_called dll fuel st1 spr rpb
                           bpa fs Hnpt Habort Hgci H8 Hsrs Hspr Hrpb Hbpa
                           Hfs Hcs Hoff)) as [[rc Hrc] Hspb].
      split; [| exact Hspb].
      exists rc. eapply recorded_since_same_history; [exact Htr | exact Hrc].
Qed.

Lemma acquire_npt_sizes_witness :
  (trace (snd (acquire Fixture.always_ok 10
                 (AcquireArgs (PStr "NPT") (PInt 1024) (PInt 4) (PInt 10)
                    PNone PNone PNone PNone PNone PNone PNone PNone)
                 Fixture.npt_board))
   = trace Fixture.npt_board
   /\ fst (acquire Fixture.always_ok 10
             (AcquireArgs (PStr "NPT") (PInt 1024) (PInt 4) (PInt 10)
                PNone PNone PNone PNone PNone PNone PNone PNone)
             Fixture.npt_board)
      = inl (Exception AlazarParameter.stale_msg))
  /\ (exists rc,
        recorded_since Fixture.npt_board
          (EvCall (Call "AlazarBeforeAsyncRead"
                     [Some 3; Some 0; Some 1024; Some 4; Some 40; Some 512])
             rc)
          (snd (acquire Fixture.always_ok 10 Fixture.no_args
                  Fixture.npt_board)))
  /\ samples_per_buffer
       (snd (acquire Fixture.always_ok 10 Fixture.no_args Fixture.npt_board))
     = 1024 * 4.
Proof.
  split.
  - pose proof (acquire_npt_sizes Fixture.always_ok 10
                  (AcquireArgs (PStr "NPT") (PInt 1024) (PInt 4) (PInt 10)
                     PNone PNone PNone PNone PNone PNone PNone PNone)
                  Fixture.npt_board) as (_ & H & _).
    cbv zeta in H.
    destruct (H ltac:(discriminate)) as (Htr & _ & Hstale).
    split; [exact Htr | apply Hstale; vm_compute; reflexivity].
  - pose proof (acquire_npt_sizes Fixture.always_ok 10 Fixture.no_args
                  Fixture.npt_board) as (_ & _ & H).
    cbv zeta in H.
    destruct (H ltac:(vm_compute; reflexivity) ltac:(vm_compute; reflexivity)
                ltac:(intros ? ?; reflexivity) ltac:(intros ? ?; reflexivity)
                ltac:(intros ? ?; reflexivity) 1024
                ltac:(vm_compute; reflexivity)) as (_ & Hbar).
    apply (Hbar ltac:(intros ? ?; reflexivity) 4 10
             [0x200; 0; 0; 0; 0; 0; 0]);
      first [ vm_compute; reflexivity | vm_compute; eexists; reflexivity ].
Defined.
